(** * The dashboardr input-filter engine (assets/tab-scroll-fix.js)

    A shallow embedding of the client-side filter engine: the control
    registry [inputState], the default snapshot [defaultValues], the
    per-series snapshot [originalSeriesData], [storeOriginalData],
    [applyAllFilters], [rebuildFromCrossTab] and [resetFilters], followed
    by the properties the specification states about them.

    Conventions of the embedding.
    - JavaScript numbers are exact rationals ([Q]); [NaN] and the two
      infinities are explicit where [parseFloat] or a division can
      produce them. Signed zeros and rounding are not modelled.
    - JSON scalars that label things (categories, slider labels, cross-tab
      cells, the time and country fields of the metric table) are
      integers or strings ([jsval]).
    - Strings are byte strings; [toLowerCase] and [trim] act on the ASCII
      letters and the ASCII white space, as JavaScript does on strings of
      ASCII characters. Properties about the text search assume such
      strings.
    - A JavaScript object used as a map is an association list kept in
      the order [Object.keys] enumerates it: canonical array-index keys
      first, ascending, then the other keys in insertion order.
      [inputState] and [defaultValues] are given in that order. Keys that
      name a property of [Object.prototype] are not considered.
    - The chart surface (Highcharts) is a passive store: [setData],
      [setCategories], [setVisible], [update], [setTitle] overwrite a
      field, [redraw] bumps a counter. [series.options.data] is the data
      last stored and [series.data] holds one point for each of its
      entries; the chart gives every point a numeric [x], its position
      when the entry names none. Every chart has an x axis, a y axis and
      a legend.
    - The timers (retry while no chart exists, debounce of text inputs)
      are outside the embedding: a call that only schedules a retry
      leaves the state as it is. *)

From Stdlib Require Import List String Ascii Bool Arith ZArith QArith Qround Lia.
From Stdlib Require Import Numbers.DecimalString.
Import ListNotations.

Open Scope string_scope.
Open Scope list_scope.

(* ================================================================== *)
(** * JavaScript primitives *)
(* ================================================================== *)

Module JS.

(** A JSON scalar used as a label: a number or a string. *)
Inductive jsval : Type :=
| JNum (z : Z)
| JStr (s : string).

(** The result of [parseFloat]. *)
Inductive jsnumber : Type :=
| NaN
| Inf (negative : bool)
| Fin (q : Q).

(** [String(v)]. *)
Definition String_of_Z (z : Z) : string := NilZero.string_of_int (Z.to_int z).

Definition String (v : jsval) : string :=
  match v with
  | JNum z => String_of_Z z
  | JStr s => s
  end.

(** Truthiness of a scalar: [0] and [""] are falsy. *)
Definition truthy (v : jsval) : bool :=
  match v with
  | JNum z => negb (Z.eqb z 0)
  | JStr s => negb (String.eqb s "")
  end.

(** [haystack.includes(needle)] on strings. *)
Fixpoint includes (haystack needle : string) : bool :=
  String.prefix needle haystack ||
  match haystack with
  | EmptyString => false
  | String.String _ rest => includes rest needle
  end.

(** [s.toLowerCase()], on the ASCII letters: [String.prototype.toLowerCase]
    on strings of ASCII characters. *)
Definition lower_ascii (c : ascii) : ascii :=
  let n := nat_of_ascii c in
  if (65 <=? n)%nat && (n <=? 90)%nat then ascii_of_nat (n + 32) else c.

Fixpoint toLowerCase (s : string) : string :=
  match s with
  | EmptyString => EmptyString
  | String.String c rest => String.String (lower_ascii c) (toLowerCase rest)
  end.

(** White space as [trim] and [parseFloat] skip it (the ASCII part:
    TAB, LF, VT, FF, CR, space). *)
Definition is_space (c : ascii) : bool :=
  let n := nat_of_ascii c in
  ((9 <=? n)%nat && (n <=? 13)%nat) || (n =? 32)%nat.

Fixpoint trimStart (s : string) : string :=
  match s with
  | EmptyString => EmptyString
  | String.String c rest => if is_space c then trimStart rest else s
  end.

Fixpoint string_rev_onto (s acc : string) : string :=
  match s with
  | EmptyString => acc
  | String.String c rest => string_rev_onto rest (String.String c acc)
  end.

Definition string_rev (s : string) : string := string_rev_onto s EmptyString.

Definition trim (s : string) : string :=
  string_rev (trimStart (string_rev (trimStart s))).

(** ** [parseFloat] *)

Definition digit_of (c : ascii) : option Z :=
  let n := nat_of_ascii c in
  if (48 <=? n)%nat && (n <=? 57)%nat then Some (Z.of_nat (n - 48)) else None.

(** Reads the longest run of digits: the digits read so far as an integer,
    how many were read, and what follows. *)
Fixpoint read_digits (s : string) (acc : Z) (count : nat) : Z * nat * string :=
  match s with
  | EmptyString => (acc, count, s)
  | String.String c rest =>
      match digit_of c with
      | Some d => read_digits rest (10 * acc + d)%Z (S count)
      | None => (acc, count, s)
      end
  end.

Definition pow10 (e : Z) : Q :=
  if (0 <=? e)%Z then inject_Z (10 ^ e) else / inject_Z (10 ^ (- e)).

(** The exponent part [e±ddd]; it counts only when at least one digit
    follows. *)
Definition read_exponent (s : string) : Z :=
  match s with
  | String.String c rest =>
      if Ascii.eqb c "e" || Ascii.eqb c "E" then
        let '(neg, rest') :=
          match rest with
          | String.String c' r =>
              if Ascii.eqb c' "-" then (true, r)
              else if Ascii.eqb c' "+" then (false, r)
              else (false, rest)
          | EmptyString => (false, rest)
          end in
        let '(e, k, _) := read_digits rest' 0%Z 0%nat in
        match k with
        | O => 0%Z
        | _ => if neg then (- e)%Z else e
        end
      else 0%Z
  | EmptyString => 0%Z
  end.

(** The unsigned part of a decimal literal. *)
Definition read_unsigned (s : string) : jsnumber :=
  if String.prefix "Infinity" s then Inf false
  else
    let '(ip, ik, after_int) := read_digits s 0%Z 0%nat in
    let '(fp, fk, after_frac) :=
      match after_int with
      | String.String c rest =>
          if Ascii.eqb c "." then read_digits rest 0%Z 0%nat
          else (0%Z, 0%nat, after_int)
      | EmptyString => (0%Z, 0%nat, after_int)
      end in
    match (ik + fk)%nat with
    | O => NaN
    | _ =>
        let mantissa := (inject_Z ip + inject_Z fp * pow10 (- Z.of_nat fk))%Q in
        Fin (mantissa * pow10 (read_exponent after_frac))%Q
    end.

Definition negate (n : jsnumber) : jsnumber :=
  match n with
  | NaN => NaN
  | Inf b => Inf (negb b)
  | Fin q => Fin (- q)%Q
  end.

Definition parseFloat_string (s : string) : jsnumber :=
  match trimStart s with
  | String.String c rest =>
      if Ascii.eqb c "-" then negate (read_unsigned rest)
      else if Ascii.eqb c "+" then read_unsigned rest
      else read_unsigned (String.String c rest)
  | EmptyString => NaN
  end.

(** [parseFloat(v)]: the argument is converted to a string first. *)
Definition parseFloat (v : jsval) : jsnumber :=
  match v with
  | JNum z => Fin (inject_Z z)
  | JStr s => parseFloat_string s
  end.

Definition isNaN (n : jsnumber) : bool :=
  match n with NaN => true | _ => false end.

(** [a >= b] and [a <= b]; any comparison with [NaN] is false. *)
Definition ge (a b : jsnumber) : bool :=
  match a, b with
  | NaN, _ | _, NaN => false
  | Inf false, _ => true
  | _, Inf true => true
  | Inf true, _ => false
  | _, Inf false => false
  | Fin x, Fin y => Qle_bool y x
  end.

Definition le (a b : jsnumber) : bool := ge b a.

(** [a < b]. *)
Definition lt (a b : jsnumber) : bool :=
  match a, b with
  | NaN, _ | _, NaN => false
  | Inf true, Inf true => false
  | Inf true, _ => true
  | Inf false, _ => false
  | Fin _, Inf neg => negb neg
  | Fin x, Fin y => negb (Qle_bool y x)
  end.

(** [Math.round] on a finite number: the nearest integer, halves up. *)
Definition round (q : Q) : Z := Qfloor (q + (1 # 2))%Q.

(** ** Arithmetic on numbers

    IEEE arithmetic on the extended rationals; the sign of a zero is not
    tracked, a division of a non-zero number by zero takes the sign of
    the numerator. *)

Definition Qneg (q : Q) : bool := negb (Qle_bool 0 q).
Definition Qzero (q : Q) : bool := Qeq_bool q 0.

Definition sub (a b : jsnumber) : jsnumber :=
  match a, b with
  | NaN, _ | _, NaN => NaN
  | Inf s, Inf t => if Bool.eqb s t then NaN else Inf s
  | Inf s, Fin _ => Inf s
  | Fin _, Inf t => Inf (negb t)
  | Fin x, Fin y => Fin (x - y)%Q
  end.

Definition mul (a b : jsnumber) : jsnumber :=
  match a, b with
  | NaN, _ | _, NaN => NaN
  | Inf s, Inf t => Inf (xorb s t)
  | Inf s, Fin y => if Qzero y then NaN else Inf (xorb s (Qneg y))
  | Fin x, Inf t => if Qzero x then NaN else Inf (xorb (Qneg x) t)
  | Fin x, Fin y => Fin (x * y)%Q
  end.

Definition div (a b : jsnumber) : jsnumber :=
  match a, b with
  | NaN, _ | _, NaN => NaN
  | Inf _, Inf _ => NaN
  | Inf s, Fin y => Inf (xorb s (Qneg y))
  | Fin _, Inf _ => Fin 0
  | Fin x, Fin y =>
      if Qzero y then (if Qzero x then NaN else Inf (Qneg x))
      else Fin (x / y)%Q
  end.

(** [n || d] on numbers: [0] and [NaN] are falsy. *)
Definition falsy_number (n : jsnumber) : bool :=
  match n with
  | NaN => true
  | Inf _ => false
  | Fin q => Qzero q
  end.

Definition orElse (n d : jsnumber) : jsnumber :=
  if falsy_number n then d else n.

(** [Math.round(n)] used as an array index: [None] when the result is
    not a finite integer. *)
Definition round_index (n : jsnumber) : option Z :=
  match n with
  | Fin q => Some (round q)
  | _ => None
  end.

(** [arr[i]] for an integer [i]. *)
Definition at_index {A : Type} (arr : list A) (i : Z) : option A :=
  if (i <? 0)%Z then None else nth_error arr (Z.to_nat i).

(** ** Number to string

    Integers print in decimal; other finite numbers print their decimal
    expansion, cut after twenty fraction digits. JavaScript prints the
    same digits for numbers from 1e-6 up to 1e21 in size and turns to
    exponent notation outside that range, which is not modelled. *)

Fixpoint fraction_digits (fuel : nat) (rem den : Z) : string :=
  match fuel with
  | O => EmptyString
  | S fuel' =>
      if (rem =? 0)%Z then EmptyString
      else
        let d := (10 * rem / den)%Z in
        (String_of_Z d ++ fraction_digits fuel' (10 * rem - d * den)%Z den)%string
  end.

Definition String_of_Q (q : Q) : string :=
  let n := Qnum q in
  let d := Zpos (Qden q) in
  let a := Z.abs n in
  let body :=
    if (a mod d =? 0)%Z then String_of_Z (a / d)
    else (String_of_Z (a / d) ++ "." ++ fraction_digits 20 (a mod d) d)%string in
  if (n <? 0)%Z then ("-" ++ body)%string else body.

Definition String_of_number (n : jsnumber) : string :=
  match n with
  | NaN => "NaN"
  | Inf false => "Infinity"
  | Inf true => "-Infinity"
  | Fin q => String_of_Q q
  end.

(** ** Equality and order on scalars *)

(** [a === b]. *)
Definition strict_eq (a b : jsval) : bool :=
  match a, b with
  | JNum x, JNum y => Z.eqb x y
  | JStr s, JStr t => String.eqb s t
  | _, _ => false
  end.

(** [a === b] where either side may be [undefined]. *)
Definition strict_eq_opt (a b : option jsval) : bool :=
  match a, b with
  | Some x, Some y => strict_eq x y
  | None, None => true
  | _, _ => false
  end.

(** [list.includes(s)] on an array of strings. *)
Definition mem (s : string) (l : list string) : bool :=
  existsb (String.eqb s) l.

(** The default order of [Array.prototype.sort]: by string conversion,
    [undefined] last. *)
Definition sort_le (a b : option jsval) : bool :=
  match a, b with
  | _, None => true
  | None, Some _ => false
  | Some x, Some y => String.leb (String x) (String y)
  end.

(** Inserts [x] before the first element that is not smaller. *)
Fixpoint sort_insert (x : option jsval) (l : list (option jsval)) : list (option jsval) :=
  match l with
  | [] => [x]
  | y :: rest => if sort_le x y then x :: l else y :: sort_insert x rest
  end.

(** A stable sort: each element is inserted into the sorted rest. *)
Definition sort (l : list (option jsval)) : list (option jsval) :=
  fold_right sort_insert [] l.

(** [[...new Set(l)]]: first occurrences, in order. *)
Fixpoint dedupe_from {A : Type} (eqb : A -> A -> bool) (seen l : list A) : list A :=
  match l with
  | [] => []
  | x :: rest =>
      if existsb (eqb x) seen then dedupe_from eqb seen rest
      else x :: dedupe_from eqb (x :: seen) rest
  end.

Definition dedupe {A : Type} (eqb : A -> A -> bool) (l : list A) : list A :=
  dedupe_from eqb [] l.

End JS.

Import JS.

(* ================================================================== *)
(** * JavaScript objects as ordered maps *)
(* ================================================================== *)

Module Obj.

(** An object with string keys, as the list of its own properties in the
    order [Object.keys] gives them. *)
Definition t (V : Type) : Type := list (string * V).

Definition empty {V : Type} : t V := [].

(** [o[k]]. *)
Fixpoint get {V : Type} (k : string) (o : t V) : option V :=
  match o with
  | [] => None
  | (k', v) :: rest => if String.eqb k' k then Some v else get k rest
  end.

Definition has {V : Type} (k : string) (o : t V) : bool :=
  match get k o with Some _ => true | None => false end.

(** A key is an array index when it is the canonical decimal form of an
    integer below [2^32 - 1]; such keys are enumerated first, ascending. *)
Definition array_index (k : string) : option Z :=
  let '(n, count, rest) := read_digits k 0%Z 0%nat in
  match count, rest with
  | S _, EmptyString =>
      if String.eqb (String_of_Z n) k && (n <? 4294967295)%Z then Some n else None
  | _, _ => None
  end.

(** Overwrites the value of a key that is present. *)
Fixpoint replace {V : Type} (k : string) (v : V) (o : t V) : t V :=
  match o with
  | [] => []
  | (k', v') :: rest =>
      if String.eqb k' k then (k', v) :: rest else (k', v') :: replace k v rest
  end.

(** Adds an array-index key [k] of value [n] at its place. *)
Fixpoint add_index {V : Type} (n : Z) (k : string) (v : V) (o : t V) : t V :=
  match o with
  | [] => [(k, v)]
  | (k', v') :: rest =>
      match array_index k' with
      | Some m => if (m <? n)%Z then (k', v') :: add_index n k v rest else (k, v) :: o
      | None => (k, v) :: o
      end
  end.

(** [o[k] = v]. *)
Definition set {V : Type} (k : string) (v : V) (o : t V) : t V :=
  if has k o then replace k v o
  else match array_index k with
       | Some n => add_index n k v o
       | None => o ++ [(k, v)]
       end.

(** [Object.keys(o)] and [Object.values(o)]. *)
Definition keys {V : Type} (o : t V) : list string := map fst o.
Definition values {V : Type} (o : t V) : list V := map snd o.

(** [delete o[k]]. *)
Definition remove {V : Type} (k : string) (o : t V) : t V :=
  filter (fun e => negb (String.eqb (fst e) k)) o.

End Obj.

(* ================================================================== *)
(** * Data model *)
(* ================================================================== *)

(** ** Control registry *)

(** A control's [inputType], together with the fields only that type
    carries: a switch its boolean [value], [toggleSeries] and [override];
    a slider its numeric [value], [min], [max], [step] and [labels]; a
    text input its string [value]; a number input its [value], [min] and
    [max]. *)
Inductive inputType : Type :=
| select
| checkbox
| radio
| button_group
| switch (value : bool) (toggleSeries : option string) (override : bool)
| slider (value min max step : jsnumber) (labels : option (list jsval))
| text (value : string)
| number (value min max : jsnumber).

(** An entry of [inputState]. *)
Record state : Type := mkState {
  filterVar : string;
  kind : inputType;
  selected : list string
}.

(** An entry of [defaultValues]: [{ selected }] for the controls that
    select values, [{ value }] for the others. *)
Inductive default : Type :=
| default_selected (selected : list string)
| default_checked (value : bool)
| default_number (value : jsnumber)
| default_text (value : string).

(** ** Chart surface *)

(** A data point as JSON: [null], a bare number, an array, or an object
    with optional [x] and [y]. *)
Inductive point : Type :=
| PNull
| PNum (y : Q)
| PArr (coords : list (option Q))
| PObj (x y : option Q).

(** An entry of the [originalSeriesData] map. *)
Record original : Type := mkOriginal {
  orig_data : list point;
  orig_name : string
}.

(** A series object. [originalSeriesData] is a [WeakMap] keyed by the
    series object, so an entry can only be reached through its own key:
    it is the field [snapshot] of the series it belongs to. *)
Record series : Type := mkSeries {
  name : string;
  data : list point;
  visible : bool;
  showInLegend : bool;
  type : option string;
  snapshot : option original
}.

(** A chart: [options.chart.id], the series, the categories of
    [xAxis[0]], the expando [_originalCategories], the legend switch, the
    titles, and the number of [redraw] calls received. *)
Record chart : Type := mkChart {
  chart_id : option string;
  chart_series : list series;
  categories : option (list jsval);
  _originalCategories : option (list jsval);
  legend_enabled : option bool;
  title : option string;
  subtitle : option string;
  yAxis_title : option string;
  redraws : nat
}.

(** ** Page globals *)

(** A cross-tab row: its cells and the count [n]. The count column is
    kept apart from the variable columns. *)
Record row : Type := mkRow {
  cells : Obj.t jsval;
  row_n : Q
}.

Record config : Type := mkConfig {
  xVar : string;
  stackVar : string;
  filterVars : list string;
  stackedType : string;
  stackOrder : list jsval;
  xOrder : list jsval
}.

(** [window.dashboardrCrossTab[chartId]]; [data] or [config] may be
    missing. *)
Record crossTabInfo : Type := mkCrossTabInfo {
  ct_data : option (list row);
  ct_config : option config
}.

(** A row of [window.dashboardrMetricData]: its fields ([country],
    [metric], the time variable) and its [value] ([None] for [null]). *)
Record metricRow : Type := mkMetricRow {
  fields : Obj.t jsval;
  metric_value : option Q
}.

(** The globals the engine reads. The metric table, when present, has a
    first row: the engine reads [allData[0]] unguarded. *)
Record window : Type := mkWindow {
  dashboardrCrossTab : option (Obj.t crossTabInfo);
  dashboardrMetricData : option (metricRow * list metricRow);
  dashboardrTimeVar : option string
}.

(** ** DOM controls *)

(** The part of a control element the engine writes: the tag, the child
    options (of a select), check boxes, radios or buttons with their
    value and selected / checked / active flag, the [checked] and [value]
    properties, the [min] and [max] attributes, the [--slider-percent]
    style property and the text content. *)
Record element : Type := mkElement {
  tagName : string;
  options : list (string * bool);
  checked : bool;
  el_value : string;
  el_min : string;
  el_max : string;
  slider_percent : option jsnumber;
  textContent : string
}.

(** ** The engine *)

Record engine : Type := mkEngine {
  inputState : Obj.t state;
  defaultValues : Obj.t default;
  choicesInstances : list string;
  document : Obj.t element;
  charts : list chart;
  globals : window
}.

(** Field updates. *)
Definition setData (d : list point) (s : series) : series :=
  mkSeries (name s) d (visible s) (showInLegend s) (type s) (snapshot s).
Definition setVisible (v : bool) (s : series) : series :=
  mkSeries (name s) (data s) v (showInLegend s) (type s) (snapshot s).
Definition update_showInLegend (v : bool) (s : series) : series :=
  mkSeries (name s) (data s) (visible s) v (type s) (snapshot s).
Definition update_type (t : string) (s : series) : series :=
  mkSeries (name s) (data s) (visible s) (showInLegend s) (Some t) (snapshot s).
Definition set_snapshot (o : original) (s : series) : series :=
  mkSeries (name s) (data s) (visible s) (showInLegend s) (type s) (Some o).

Definition with_series (l : list series) (c : chart) : chart :=
  mkChart (chart_id c) l (categories c) (_originalCategories c) (legend_enabled c)
          (title c) (subtitle c) (yAxis_title c) (redraws c).
Definition setCategories (cats : list jsval) (c : chart) : chart :=
  mkChart (chart_id c) (chart_series c) (Some cats) (_originalCategories c) (legend_enabled c)
          (title c) (subtitle c) (yAxis_title c) (redraws c).
Definition set_originalCategories (cats : list jsval) (c : chart) : chart :=
  mkChart (chart_id c) (chart_series c) (categories c) (Some cats) (legend_enabled c)
          (title c) (subtitle c) (yAxis_title c) (redraws c).
Definition legend_update (enabled : bool) (c : chart) : chart :=
  mkChart (chart_id c) (chart_series c) (categories c) (_originalCategories c) (Some enabled)
          (title c) (subtitle c) (yAxis_title c) (redraws c).
Definition setTitles (t sub y : string) (c : chart) : chart :=
  mkChart (chart_id c) (chart_series c) (categories c) (_originalCategories c) (legend_enabled c)
          (Some t) (Some sub) (Some y) (redraws c).
Definition redraw (c : chart) : chart :=
  mkChart (chart_id c) (chart_series c) (categories c) (_originalCategories c) (legend_enabled c)
          (title c) (subtitle c) (yAxis_title c) (S (redraws c)).

(* ================================================================== *)
(** * storeOriginalData *)
(* ================================================================== *)

(** [JSON.parse(JSON.stringify(v))] copies a JSON value; values carry no
    identity here, so the copy is the value. *)
Definition deep_clone {A : Type} (v : A) : A := v.

Definition storeOriginal_series (s : series) : series :=
  match snapshot s with
  | Some _ => s
  | None => set_snapshot (mkOriginal (deep_clone (data s)) (name s)) s
  end.

Definition storeOriginal_chart (c : chart) : chart :=
  with_series (map storeOriginal_series (chart_series c)) c.

Definition storeOriginalData (e : engine) : engine :=
  mkEngine (inputState e) (defaultValues e) (choicesInstances e) (document e)
           (map storeOriginal_chart (charts e)) (globals e).

(* ================================================================== *)
(** * applyAllFilters: collecting the active filters *)
(* ================================================================== *)

Record sliderInfo : Type := mkSliderInfo {
  s_value : jsnumber;
  s_min : jsnumber;
  s_max : jsnumber;
  s_step : jsnumber;
  s_labels : option (list jsval)
}.

Record filterSets : Type := mkFilterSets {
  filters : Obj.t (list string);
  sliderFilters : Obj.t sliderInfo;
  switchFilters : Obj.t bool;
  textFilters : Obj.t string;
  numberFilters : Obj.t jsnumber;
  periodFilters : Obj.t (list string)
}.

Definition no_filters : filterSets :=
  mkFilterSets Obj.empty Obj.empty Obj.empty Obj.empty Obj.empty Obj.empty.

Definition nonempty_string (s : string) : bool := negb (String.eqb s "").

(** The entry a slider leaves in [sliderFilters]; [step: state.step || 1]. *)
Definition slider_info (v mn mx stp : jsnumber) (labels : option (list jsval)) : sliderInfo :=
  mkSliderInfo v mn mx (orElse stp (Fin 1)) labels.

(** One round of the loop over [Object.keys(inputState)]. *)
Definition collect_one (fs : filterSets) (entry : string * state) : filterSets :=
  let st := snd entry in
  let fv := filterVar st in
  match kind st with
  | slider v mn mx stp lbls =>
      mkFilterSets (filters fs)
        (Obj.set fv (slider_info v mn mx stp lbls) (sliderFilters fs))
        (switchFilters fs) (textFilters fs) (numberFilters fs) (periodFilters fs)
  | switch v _ _ =>
      mkFilterSets (filters fs) (sliderFilters fs) (Obj.set fv v (switchFilters fs))
        (textFilters fs) (numberFilters fs) (periodFilters fs)
  | text v =>
      if nonempty_string v && nonempty_string (trim v) then
        mkFilterSets (filters fs) (sliderFilters fs) (switchFilters fs)
          (Obj.set fv (toLowerCase (trim v)) (textFilters fs))
          (numberFilters fs) (periodFilters fs)
      else fs
  | number v _ _ =>
      mkFilterSets (filters fs) (sliderFilters fs) (switchFilters fs) (textFilters fs)
        (Obj.set fv v (numberFilters fs)) (periodFilters fs)
  | _ =>
      if String.eqb fv "period" then
        mkFilterSets (filters fs) (sliderFilters fs) (switchFilters fs) (textFilters fs)
          (numberFilters fs) (Obj.set fv (selected st) (periodFilters fs))
      else
        mkFilterSets (Obj.set fv (selected st) (filters fs)) (sliderFilters fs)
          (switchFilters fs) (textFilters fs) (numberFilters fs) (periodFilters fs)
  end.

Definition collect (inputState : Obj.t state) : filterSets :=
  fold_left collect_one inputState no_filters.

(* ================================================================== *)
(** * applyAllFilters: the visible categories *)
(* ================================================================== *)

(** [originalCategories[idx]], which is [undefined] out of range, under
    [parseFloat] and under [String]. *)
Definition parseFloat_at (cats : list jsval) (idx : nat) : jsnumber :=
  match nth_error cats idx with
  | Some c => parseFloat c
  | None => NaN
  end.

Definition String_at (cats : list jsval) (idx : nat) : string :=
  match nth_error cats idx with
  | Some c => String c
  | None => "undefined"
  end.

(** The year range of a period preset, as a test on a category's number. *)
Definition period_keeps (periodValue : string) (catNum : jsnumber) : bool :=
  if isNaN catNum then true
  else if includes periodValue "Pre-COVID" || includes periodValue "2015-2019"
  then ge catNum (Fin 2015) && le catNum (Fin 2019)
  else if includes periodValue "Post-COVID" || includes periodValue "2020"
  then ge catNum (Fin 2020)
  else true.

Definition apply_period (cats : list jsval) (selected : list string)
    (visible : list nat) : list nat :=
  match selected with
  | periodValue :: _ =>
      if nonempty_string periodValue && negb (includes periodValue "All")
      then filter (fun idx => period_keeps periodValue (parseFloat_at cats idx)) visible
      else visible
  | [] => visible
  end.

(** The loop over [Object.keys(periodFilters)]; each key is read back at
    once, so the loop runs over the entries. *)
Definition apply_periodFilters (cats : list jsval) (pf : Obj.t (list string))
    (visible : list nat) : list nat :=
  fold_left (fun vis entry => apply_period cats (snd entry) vis) pf visible.

(** [a.some(v => b.includes(v)) || b.some(c => a.includes(c))]. *)
Definition overlaps (a b : list string) : bool :=
  existsb (fun v => mem v b) a || existsb (fun c => mem c a) b.

Definition apply_categoryFilter (cats : list jsval) (selectedValues : list string)
    (visible : list nat) : list nat :=
  match selectedValues with
  | [] => visible
  | _ =>
      if overlaps selectedValues (map String cats)
      then filter (fun idx => mem (String_at cats idx) selectedValues) visible
      else visible
  end.

Definition apply_categoryFilters (cats : list jsval) (f : Obj.t (list string))
    (visible : list nat) : list nat :=
  fold_left (fun vis entry => apply_categoryFilter cats (snd entry) vis) f visible.

Definition has_labels (info : sliderInfo) : bool :=
  match s_labels info with
  | Some (_ :: _) => true
  | _ => false
  end.

(** [Math.round((value - min) / (step || 1))]. *)
Definition labelIdx (info : sliderInfo) : option Z :=
  round_index (div (sub (s_value info) (s_min info)) (orElse (s_step info) (Fin 1))).

(** [sliderInfo.labels[labelIdx]]. *)
Definition startLabel (info : sliderInfo) : option jsval :=
  match s_labels info, labelIdx info with
  | Some labels, Some i => at_index labels i
  | _, _ => None
  end.

(** [arr.findIndex(p)]. *)
Fixpoint findIndex {A : Type} (p : A -> bool) (arr : list A) : option nat :=
  match arr with
  | [] => None
  | a :: rest => if p a then Some O else option_map S (findIndex p rest)
  end.

Definition apply_slider (cats : list jsval) (info : sliderInfo)
    (visible : list nat) : list nat :=
  if has_labels info then
    match startLabel info with
    | Some label =>
        if truthy label then
          match findIndex (fun cat => String.eqb (String cat) (String label)) cats with
          | Some startCategoryIdx => filter (fun idx => Nat.leb startCategoryIdx idx) visible
          | None => visible
          end
        else visible
    | None => visible
    end
  else
    filter (fun idx =>
              let catNum := parseFloat_at cats idx in
              if negb (isNaN catNum) then ge catNum (s_value info) else true)
           visible.

Definition apply_sliderFilters (cats : list jsval) (sf : Obj.t sliderInfo)
    (visible : list nat) : list nat :=
  fold_left (fun vis entry => apply_slider cats (snd entry) vis) sf visible.

(** [visibleCategoryIndices] for a chart with categories. *)
Definition visibleCategoryIndices (cats : list jsval) (fs : filterSets) : list nat :=
  apply_sliderFilters cats (sliderFilters fs)
    (apply_categoryFilters cats (filters fs)
       (apply_periodFilters cats (periodFilters fs) (seq 0 (List.length cats)))).

(** [visibleCategoryIndices.map(idx => originalCategories[idx])]; the
    indices are in range, an index out of range would give [undefined]
    and is left out. *)
Definition categories_at (cats : list jsval) (indices : list nat) : list jsval :=
  flat_map (fun idx => match nth_error cats idx with Some c => [c] | None => [] end) indices.

(* ================================================================== *)
(** * rebuildFromCrossTab *)
(* ================================================================== *)

(** The "All" labels that mean "do not filter". *)
Definition allLabels : list string :=
  ["all"; "alle"; "tous"; "todo"; "tutti"; "すべて"; "全部"].

Definition hasAllOption (selectedValues : list string) : bool :=
  existsb (fun v => mem (toLowerCase v) allLabels) selectedValues.

(** [String(row[variable])]. *)
Definition String_cell (r : row) (variable : string) : string :=
  match Obj.get variable (cells r) with
  | Some v => String v
  | None => "undefined"
  end.

(** Step 1: one round of the loop over [filterVars]. *)
Definition filter_on (flt : Obj.t (list string)) (filteredData : list row)
    (fv : string) : list row :=
  match Obj.get fv flt with
  | Some ((_ :: _) as selectedValues) =>
      if hasAllOption selectedValues then filteredData
      else filter (fun r => mem (String_cell r fv) selectedValues) filteredData
  | _ => filteredData
  end.

Definition filter_rows (fvs : list string) (flt : Obj.t (list string))
    (rows : list row) : list row :=
  fold_left (filter_on flt) fvs rows.

(** Step 2: the sums by x and stack value. *)
Record summedItem : Type := mkSummed {
  xVal : string;
  stackVal : string;
  sum_n : Q
}.

Definition sum_row (xv sv : string) (summed : Obj.t summedItem) (r : row)
    : Obj.t summedItem :=
  let x := String_cell r xv in
  let s := String_cell r sv in
  let key := (x ++ "|||" ++ s)%string in
  let item := match Obj.get key summed with
              | Some it => it
              | None => mkSummed x s 0
              end in
  Obj.set key (mkSummed (xVal item) (stackVal item) (sum_n item + row_n r)%Q) summed.

Definition sum_rows (xv sv : string) (rows : list row) : Obj.t summedItem :=
  fold_left (sum_row xv sv) rows Obj.empty.

(** Step 3: the sums organised by x. *)
Definition organize_item (byX : Obj.t (Obj.t Q)) (item : summedItem) : Obj.t (Obj.t Q) :=
  let inner := match Obj.get (xVal item) byX with
               | Some i => i
               | None => Obj.empty
               end in
  Obj.set (xVal item) (Obj.set (stackVal item) (sum_n item) inner) byX.

Definition organize (summed : Obj.t summedItem) : Obj.t (Obj.t Q) :=
  fold_left organize_item (Obj.values summed) Obj.empty.

(** Step 4: the total of each x. *)
Definition total_of (inner : Obj.t Q) : Q :=
  fold_left Qplus (Obj.values inner) 0%Q.

Definition totals (byX : Obj.t (Obj.t Q)) : Obj.t Q :=
  fold_left (fun xTotals entry => Obj.set (fst entry) (total_of (snd entry)) xTotals)
            byX Obj.empty.

(** Step 5: the orders and the data of one series. *)
Definition orderedX_of (cfg : config) (byX : Obj.t (Obj.t Q)) : list jsval :=
  match xOrder cfg with
  | [] => map JStr (Obj.keys byX)
  | _ => xOrder cfg
  end.

Definition orderedStack_of (cfg : config) (summed : Obj.t summedItem) : list jsval :=
  match stackOrder cfg with
  | [] => map JStr (dedupe String.eqb (map stackVal (Obj.values summed)))
  | _ => stackOrder cfg
  end.

(** [(byX[xVal] && byX[xVal][stackVal]) ? byX[xVal][stackVal] : 0]. *)
Definition count_at (byX : Obj.t (Obj.t Q)) (x s : jsval) : Q :=
  match Obj.get (String x) byX with
  | Some inner =>
      match Obj.get (String s) inner with
      | Some q => if Qzero q then 0%Q else q
      | None => 0%Q
      end
  | None => 0%Q
  end.

(** [xTotals[xVal] > 0]. *)
Definition positive_total (xTotals : Obj.t Q) (x : jsval) : option Q :=
  match Obj.get (String x) xTotals with
  | Some t => if Qle_bool t 0 then None else Some t
  | None => None
  end.

Definition series_value (isPercent : bool) (byX : Obj.t (Obj.t Q)) (xTotals : Obj.t Q)
    (s x : jsval) : Q :=
  let count := count_at byX x s in
  match isPercent, positive_total xTotals x with
  | true, Some t => (count / t * 100)%Q
  | _, _ => count
  end.

Definition seriesData_of (isPercent : bool) (byX : Obj.t (Obj.t Q)) (xTotals : Obj.t Q)
    (orderedX : list jsval) (s : jsval) : list Q :=
  map (series_value isPercent byX xTotals s) orderedX.

(** [l[i] = f(l[i])]. *)
Fixpoint update_at {A : Type} (i : nat) (f : A -> A) (l : list A) : list A :=
  match l, i with
  | [], _ => []
  | a :: rest, O => f a :: rest
  | a :: rest, S i' => a :: update_at i' f rest
  end.

(** The series a stack value is written to: the first one of that name,
    else the one at the stack value's position. *)
Definition find_series (l : list series) (s : jsval) (seriesIdx : nat) : option nat :=
  let by_name := match s with
                 | JStr nm => findIndex (fun sr => String.eqb (name sr) nm) l
                 | JNum _ => None
                 end in
  match by_name with
  | Some i => Some i
  | None => if Nat.ltb seriesIdx (List.length l) then Some seriesIdx else None
  end.

Definition emit_series (isPercent : bool) (byX : Obj.t (Obj.t Q)) (xTotals : Obj.t Q)
    (orderedX : list jsval) (l : list series) (entry : nat * jsval) : list series :=
  let '(seriesIdx, s) := entry in
  match find_series l s seriesIdx with
  | Some i => update_at i (setData (map PNum (seriesData_of isPercent byX xTotals orderedX s))) l
  | None => l
  end.

(** [arr.forEach((v, i) => ...)]: the elements with their positions. *)
Definition indexed {A : Type} (l : list A) : list (nat * A) :=
  combine (seq 0 (List.length l)) l.

(** The function returns [false] without touching the chart when the
    data or the config is missing ([None] here), and [true] after the
    rebuild. *)
Definition rebuildFromCrossTab (c : chart) (info : crossTabInfo)
    (flt : Obj.t (list string)) : option chart :=
  match ct_data info, ct_config info with
  | Some rows, Some cfg =>
      let filteredData := filter_rows (filterVars cfg) flt rows in
      let summed := sum_rows (xVar cfg) (stackVar cfg) filteredData in
      let byX := organize summed in
      let xTotals := totals byX in
      let isPercent := String.eqb (stackedType cfg) "percent" in
      let orderedX := orderedX_of cfg byX in
      let orderedStack := orderedStack_of cfg summed in
      let c1 := setCategories orderedX c in
      let l := fold_left (emit_series isPercent byX xTotals orderedX)
                         (indexed orderedStack) (chart_series c1) in
      Some (redraw (with_series l c1))
  | _, _ => None
  end.

(* ================================================================== *)
(** * applyAllFilters: one chart on the regular path *)
(* ================================================================== *)

(** [if (!chart._originalCategories && ...categories) chart._originalCategories = categories.slice()]. *)
Definition capture_originalCategories (c : chart) : chart :=
  match _originalCategories c, categories c with
  | None, Some cats => set_originalCategories cats c
  | _, _ => c
  end.

(** [chart._originalCategories || (categories ? categories : null)]. *)
Definition originalCategories (c : chart) : option (list jsval) :=
  match _originalCategories c with
  | Some cats => Some cats
  | None => categories c
  end.

(** No categories, and the first series of the live chart has a first
    point whose [x] is a number. [series.data] holds the points the
    chart made of the data it was given, and the chart gives every point
    a numeric [x] (its position, when the data names none): the test
    comes down to the first series holding a point. *)
Definition hasNumericXAxis (c : chart) : bool :=
  match originalCategories c, chart_series c with
  | None, s0 :: _ =>
      match data s0 with
      | _ :: _ => true
      | [] => false
      end
  | _, _ => false
  end.

(** The [show_legend] switches. *)
Definition apply_legend (registry : Obj.t state) (c : chart) : chart :=
  fold_left
    (fun c entry =>
       match kind (snd entry) with
       | switch v _ _ =>
           if String.eqb (filterVar (snd entry)) "show_legend" then legend_update v c else c
       | _ => c
       end)
    registry c.

(** [typeMap[chartType] || 'line'], for a [chartType] that names no
    property the object literal inherits from [Object.prototype] (for
    such a name the lookup gives the inherited member). *)
Definition typeMap (chartType : string) : string :=
  if String.eqb chartType "Line" then "line"
  else if String.eqb chartType "Area" then "area"
  else if String.eqb chartType "Column" then "column"
  else "line".

Definition apply_chartType (flt : Obj.t (list string)) (c : chart) : chart :=
  fold_left
    (fun c entry =>
       if String.eqb (fst entry) "chart_type" then
         match snd entry with
         | chartType :: _ =>
             if nonempty_string chartType
             then with_series (map (update_type (typeMap chartType)) (chart_series c)) c
             else c
         | [] => c
         end
       else c)
    flt c.

(** ** Metric switching *)

Definition table (allData : metricRow * list metricRow) : list metricRow :=
  fst allData :: snd allData.

(** The configured time variable, or the first of [year], [decade],
    [time], [date] that the first row defines. *)
Definition timeVar_of (w : window) (allData : metricRow * list metricRow) : option string :=
  let detected :=
    let first := fields (fst allData) in
    if Obj.has "year" first then Some "year"
    else if Obj.has "decade" first then Some "decade"
    else if Obj.has "time" first then Some "time"
    else if Obj.has "date" first then Some "date"
    else None in
  match dashboardrTimeVar w with
  | Some tv => if nonempty_string tv then Some tv else detected
  | None => detected
  end.

(** [originalCategories || (timeVar ? [...new Set(allData.map(d => d[timeVar]))].sort() : [])]. *)
Definition timeValues_of (cats : option (list jsval)) (timeVar : option string)
    (allData : metricRow * list metricRow) : list (option jsval) :=
  match cats, timeVar with
  | Some cs, _ => map Some cs
  | None, Some tv => sort (dedupe strict_eq_opt (map (fun d => Obj.get tv (fields d)) (table allData)))
  | None, None => []
  end.

Definition countryData_of (allData : metricRow * list metricRow)
    (countryName selectedMetric : string) : list metricRow :=
  filter (fun d =>
            strict_eq_opt (Obj.get "country" (fields d)) (Some (JStr countryName)) &&
            strict_eq_opt (Obj.get "metric" (fields d)) (Some (JStr selectedMetric)))
         (table allData).

Definition newData_of (countryData : list metricRow) (timeVar : option string)
    (timeValues : list (option jsval)) : list point :=
  map (fun timeVal =>
         match find (fun d => match timeVar with
                              | Some tv => strict_eq_opt (Obj.get tv (fields d)) timeVal
                              | None => false
                              end) countryData with
         | Some p => match metric_value p with Some v => PNum v | None => PNull end
         | None => PNull
         end)
      timeValues.

Definition metric_series (allData : metricRow * list metricRow) (timeVar : option string)
    (timeValues : list (option jsval)) (selectedMetric : string) (s : series) : series :=
  match countryData_of allData (name s) selectedMetric with
  | [] => s
  | countryData =>
      let newData := newData_of countryData timeVar timeValues in
      set_snapshot (mkOriginal (deep_clone newData) (name s)) (setData newData s)
  end.

(** [filters['metric'] && window.dashboardrMetricData], then
    [selectedMetric = filters['metric'][0]], when the branch is taken. *)
Definition selectedMetric_of (w : window) (flt : Obj.t (list string))
    : option (string * (metricRow * list metricRow)) :=
  match Obj.get "metric" flt, dashboardrMetricData w with
  | Some (m :: _), Some allData => if nonempty_string m then Some (m, allData) else None
  | _, _ => None
  end.

Definition apply_metric (w : window) (flt : Obj.t (list string))
    (cats : option (list jsval)) (c : chart) : chart :=
  match selectedMetric_of w flt with
  | Some (m, allData) =>
      let timeVar := timeVar_of w allData in
      let timeValues := timeValues_of cats timeVar allData in
      setTitles (m ++ " by Country") "Trends over time" m
        (with_series (map (metric_series allData timeVar timeValues m) (chart_series c)) c)
  | None => c
  end.

(** ** Series visibility and data *)

Definition switchHiddenSeries (registry : Obj.t state) : list string :=
  flat_map
    (fun entry =>
       match kind (snd entry) with
       | switch v (Some ts) _ => if nonempty_string ts && negb v then [ts] else []
       | _ => []
       end)
    registry.

Definition switchShownSeries (registry : Obj.t state) : list string :=
  flat_map
    (fun entry =>
       match kind (snd entry) with
       | switch v (Some ts) ov => if nonempty_string ts && v && ov then [ts] else []
       | _ => []
       end)
    registry.

(** The two loops that may clear [showSeries]. *)
Definition text_hides (seriesNames : list string) (seriesName searchText : string) : bool :=
  existsb (fun nm => includes (toLowerCase nm) searchText) seriesNames &&
  negb (includes (toLowerCase seriesName) searchText).

Definition filter_hides (seriesNames : list string) (seriesName : string)
    (selectedValues : list string) : bool :=
  match selectedValues with
  | [] => false
  | _ => overlaps selectedValues seriesNames && negb (mem seriesName selectedValues)
  end.

Definition showSeries (fs : filterSets) (seriesNames : list string) (seriesName : string) : bool :=
  let after_text :=
    fold_left (fun show entry =>
                 if text_hides seriesNames seriesName (snd entry) then false else show)
              (textFilters fs) true in
  fold_left (fun show entry =>
               if filter_hides seriesNames seriesName (snd entry) then false else show)
            (filters fs) after_text.

(** The snapshot re-indexed at the visible categories. *)
Definition filteredData_categories (o : original) (visible : list nat) : list point :=
  map (fun idx => match nth_error (orig_data o) idx with
                  | Some p => deep_clone p
                  | None => PNull
                  end) visible.

(** A slider keeps a point unless it is [null] or an object whose [x] is
    below the slider's value. *)
Definition slider_keeps_point (info : sliderInfo) (p : point) : bool :=
  match p with
  | PNull => false
  | PObj (Some x) _ => negb (lt (Fin x) (s_value info))
  | _ => true
  end.

Definition filteredData_numeric (o : original) (sf : Obj.t sliderInfo) : list point :=
  fold_left (fun d entry => filter (slider_keeps_point (snd entry)) d)
            sf (deep_clone (orig_data o)).

(** The last part of the loop body over the series: the data. *)
Definition filter_series_data (fs : filterSets) (cats : option (list jsval))
    (visible : list nat) (numeric : bool) (s : series) : series :=
  match snapshot s, cats with
  | Some o, Some _ => setData (filteredData_categories o visible) s
  | Some o, None => if numeric then setData (filteredData_numeric o (sliderFilters fs)) s else s
  | None, _ => s
  end.

Definition hide (s : series) : series := update_showInLegend false (setVisible false s).
Definition show (s : series) : series := update_showInLegend true (setVisible true s).

Definition apply_series (registry : Obj.t state) (fs : filterSets)
    (seriesNames : list string) (cats : option (list jsval)) (visible : list nat)
    (numeric : bool) (s : series) : series :=
  if mem (name s) (switchHiddenSeries registry) then hide s
  else if mem (name s) (switchShownSeries registry) then
    filter_series_data fs cats visible numeric (show s)
  else if showSeries fs seriesNames (name s) then
    filter_series_data fs cats visible numeric (show s)
  else hide s.

(** The body of [charts.forEach] after the cross-tab test. *)
Definition filter_chart (w : window) (registry : Obj.t state) (fs : filterSets)
    (c : chart) : chart :=
  let c1 := capture_originalCategories c in
  let cats := originalCategories c1 in
  let numeric := hasNumericXAxis c1 in
  let seriesNames := map name (chart_series c1) in
  let visible := match cats with
                 | Some cs => visibleCategoryIndices cs fs
                 | None => []
                 end in
  let newCategories := match cats with
                       | Some cs => categories_at cs visible
                       | None => []
                       end in
  let c2 := apply_legend registry c1 in
  let c3 := apply_chartType (filters fs) c2 in
  let c4 := apply_metric w (filters fs) cats c3 in
  let c5 := with_series
              (map (apply_series registry fs seriesNames cats visible numeric)
                   (chart_series c4)) c4 in
  let c6 := match cats, newCategories with
            | Some _, _ :: _ => setCategories newCategories c5
            | _, _ => c5
            end in
  redraw c6.

(* ================================================================== *)
(** * applyAllFilters *)
(* ================================================================== *)

(** [chartId && window.dashboardrCrossTab && window.dashboardrCrossTab[chartId]]. *)
Definition crossTab_of (w : window) (c : chart) : option crossTabInfo :=
  match chart_id c, dashboardrCrossTab w with
  | Some cid, Some tbl => if nonempty_string cid then Obj.get cid tbl else None
  | _, _ => None
  end.

(** The body of [charts.forEach]. *)
Definition apply_chart (w : window) (registry : Obj.t state) (fs : filterSets)
    (c : chart) : chart :=
  match crossTab_of w c with
  | Some crossTabInfo =>
      match rebuildFromCrossTab c crossTabInfo (filters fs) with
      | Some rebuilt => rebuilt
      | None => filter_chart w registry fs c
      end
  | None => filter_chart w registry fs c
  end.

(** With no chart yet the function only schedules a retry. *)
Definition applyAllFilters (e : engine) : engine :=
  match charts e with
  | [] => e
  | _ =>
      mkEngine (inputState e) (defaultValues e) (choicesInstances e) (document e)
               (map (apply_chart (globals e) (inputState e) (collect (inputState e)))
                    (charts e))
               (globals e)
  end.

(* ================================================================== *)
(** * resetFilters *)
(* ================================================================== *)

(** [s.split(',')]. *)
Fixpoint split_comma (s current : string) : list string :=
  match s with
  | EmptyString => [current]
  | String.String c rest =>
      if Ascii.eqb c "," then current :: split_comma rest EmptyString
      else split_comma rest (current ++ String.String c EmptyString)
  end.

(** The ids named by the button's [data-targets] attribute. *)
Definition targets_of (targetsAttr : string) (defaults : Obj.t default) : list string :=
  if String.eqb targetsAttr "all" then Obj.keys defaults
  else map trim (split_comma targetsAttr EmptyString).

(** Marks exactly the children whose value is among [values]. *)
Definition mark (values : list string) (children : list (string * bool)) : list (string * bool) :=
  map (fun child => (fst child, mem (fst child) values)) children.

Definition with_options (opts : list (string * bool)) (el : element) : element :=
  mkElement (tagName el) opts (checked el) (el_value el) (el_min el) (el_max el)
            (slider_percent el) (textContent el).
Definition with_checked (b : bool) (el : element) : element :=
  mkElement (tagName el) (options el) b (el_value el) (el_min el) (el_max el)
            (slider_percent el) (textContent el).
Definition with_value (v : string) (el : element) : element :=
  mkElement (tagName el) (options el) (checked el) v (el_min el) (el_max el)
            (slider_percent el) (textContent el).
Definition with_percent (p : jsnumber) (el : element) : element :=
  mkElement (tagName el) (options el) (checked el) (el_value el) (el_min el) (el_max el)
            (Some p) (textContent el).
Definition with_textContent (t : string) (el : element) : element :=
  mkElement (tagName el) (options el) (checked el) (el_value el) (el_min el) (el_max el)
            (slider_percent el) t.

(** [updateSliderTrack(input)]. *)
Definition updateSliderTrack (input : element) : element :=
  let mn := orElse (parseFloat_string (el_min input)) (Fin 0) in
  let mx := orElse (parseFloat_string (el_max input)) (Fin 100) in
  let v := parseFloat_string (el_value input) in
  with_percent (mul (div (sub v mn) (sub mx mn)) (Fin 100)) input.

(** The text [updateSliderDisplay] writes: the label at the slider's
    position when there is one, else the value. *)
Definition slider_display (labels : option (list jsval)) (v mn stp : jsnumber) : string :=
  match labels with
  | Some ((_ :: _) as ls) =>
      match round_index (div (sub v mn) stp) with
      | Some idx =>
          match at_index ls idx with
          | Some label => String label
          | None => String_of_number v
          end
      | None => String_of_number v
      end
  | _ => String_of_number v
  end.

(** [updateSliderDisplay]: writes to the element [inputId + '_value']
    when the page has one. *)
Definition updateSliderDisplay (inputId : string) (labels : option (list jsval))
    (v mn stp : jsnumber) (doc : Obj.t element) : Obj.t element :=
  let displayId := (inputId ++ "_value")%string in
  match Obj.get displayId doc with
  | Some valueDisplay =>
      Obj.replace displayId (with_textContent (slider_display labels v mn stp) valueDisplay) doc
  | None => doc
  end.

(** The [value] property of a select: the value of its first selected
    option, the empty string when it has none. *)
Definition select_value (opts : list (string * bool)) : string :=
  match find snd opts with
  | Some opt => fst opt
  | None => ""
  end.

(** New options for a select; its [value] follows. *)
Definition with_select_options (opts : list (string * bool)) (el : element) : element :=
  with_value (select_value opts) (with_options opts el).

(** The DOM side of resetting a select. When the select has a Choices.js
    instance, [removeActiveItems()] takes every item off and
    [setChoiceByValue(defaults.selected)], called for a selection that is
    not empty, makes an item of the choice of each default value, once;
    Choices.js keeps as the options of the select its items, each
    selected. (The defaults the initialisation stores are values of
    options the instance was built from, so each value has a choice.)
    Else, on a native [SELECT], every option is selected exactly when
    its value is among the defaults; another element is left alone. *)
Definition reset_select_element (hasChoices : bool) (sel : list string) (el : element) : element :=
  if hasChoices then
    match sel with
    | [] => with_select_options [] el
    | _ => with_select_options (map (fun v => (v, true)) (dedupe String.eqb sel)) el
    end
  else if String.eqb (tagName el) "SELECT" then with_select_options (mark sel (options el)) el
  else el.

(** The new registry entry and the new page of one target. [None] when
    the default entry lacks the property the control's type reads, which
    no init function produces. *)
Definition reset_control (inputId : string) (hasChoices : bool) (d : default) (st : state)
    (el : element) (doc : Obj.t element) : option (state * Obj.t element) :=
  let fv := filterVar st in
  match kind st, d with
  | select, default_selected sel =>
      Some (mkState fv select sel,
            Obj.replace inputId (reset_select_element hasChoices sel el) doc)
  | checkbox, default_selected sel =>
      Some (mkState fv checkbox sel,
            Obj.replace inputId (with_options (mark sel (options el)) el) doc)
  | radio, default_selected sel =>
      Some (mkState fv radio sel,
            Obj.replace inputId (with_options (mark sel (options el)) el) doc)
  | button_group, default_selected sel =>
      Some (mkState fv button_group sel,
            Obj.replace inputId (with_options (mark sel (options el)) el) doc)
  | switch _ ts ov, default_checked b =>
      Some (mkState fv (switch b ts ov) [if b then "true" else "false"],
            Obj.replace inputId (with_checked b el) doc)
  | slider _ mn mx stp labels, default_number v =>
      let el' := updateSliderTrack (with_value (String_of_number v) el) in
      Some (mkState fv (slider v mn mx stp labels) [String_of_number v],
            updateSliderDisplay inputId labels v mn stp (Obj.replace inputId el' doc))
  | text _, default_text v =>
      Some (mkState fv (text v) [v],
            Obj.replace inputId (with_value v el) doc)
  | number _ mn mx, default_number v =>
      Some (mkState fv (number v mn mx) [String_of_number v],
            Obj.replace inputId (with_value (String_of_number v) el) doc)
  | _, _ => None
  end.

(** One round of [targets.forEach]: a target without defaults, state or
    element is skipped. *)
Definition reset_target (e : engine) (inputId : string) : option engine :=
  match Obj.get inputId (defaultValues e), Obj.get inputId (inputState e),
        Obj.get inputId (document e) with
  | Some d, Some st, Some el =>
      match reset_control inputId (mem inputId (choicesInstances e)) d st el (document e) with
      | Some (st', doc') =>
          Some (mkEngine (Obj.replace inputId st' (inputState e)) (defaultValues e)
                         (choicesInstances e) doc' (charts e) (globals e))
      | None => None
      end
  | _, _, _ => Some e
  end.

Fixpoint reset_targets (targets : list string) (e : engine) : option engine :=
  match targets with
  | [] => Some e
  | inputId :: rest =>
      match reset_target e inputId with
      | Some e' => reset_targets rest e'
      | None => None
      end
  end.

Definition resetFilters (targetsAttr : string) (e : engine) : option engine :=
  option_map applyAllFilters
    (reset_targets (targets_of targetsAttr (defaultValues e)) e).

(* ================================================================== *)
(** * The controls of the page and their initialisation *)
(* ================================================================== *)

(** An element as the init functions read it: its [id] (empty when it
    has none), its classes, the [data-*] attributes they look at, its
    [step] attribute and the part the engine writes. [data_labels] is
    what [JSON.parse(dataset.labels)] gives, an array of scalars; it is
    [None] when the attribute is missing or empty or does not parse, the
    cases in which [labels] stays [null]. *)
Record node : Type := mkNode {
  node_id : string;
  classList : list string;
  data_input_type : option string;
  data_filter_var : option string;
  data_initialized : option string;
  data_toggle_series : option string;
  data_override : option string;
  data_labels : option (list jsval);
  el_step : string;
  dom : element
}.

(** The page while it is initialised: its elements in document order,
    [inputState], [defaultValues] and the ids that have a Choices.js
    instance. *)
Record page : Type := mkPage {
  nodes : list node;
  page_inputState : Obj.t state;
  page_defaultValues : Obj.t default;
  page_choicesInstances : list string
}.

Definition with_nodes (ns : list node) (pg : page) : page :=
  mkPage ns (page_inputState pg) (page_defaultValues pg) (page_choicesInstances pg).

Definition with_dom (f : element -> element) (n : node) : node :=
  mkNode (node_id n) (classList n) (data_input_type n) (data_filter_var n)
         (data_initialized n) (data_toggle_series n) (data_override n) (data_labels n)
         (el_step n) (f (dom n)).

(** [input.dataset.dashboardrInitialized = 'true']. *)
Definition set_initialized (n : node) : node :=
  mkNode (node_id n) (classList n) (data_input_type n) (data_filter_var n)
         (Some "true") (data_toggle_series n) (data_override n) (data_labels n)
         (el_step n) (dom n).

(** ** Selectors *)

Definition has_class (cls : string) (n : node) : bool := mem cls (classList n).

Definition is_tag (tag : string) (n : node) : bool := String.eqb (tagName (dom n)) tag.

(** [[data-input-type="t"]]. *)
Definition input_type_is (t : string) (n : node) : bool :=
  match data_input_type n with
  | Some t' => String.eqb t' t
  | None => false
  end.

(** [.dashboardr-input[data-input-type="select"], select.dashboardr-input]. *)
Definition select_selector (n : node) : bool :=
  (has_class "dashboardr-input" n && input_type_is "select" n) ||
  (is_tag "SELECT" n && has_class "dashboardr-input" n).

Definition checkbox_selector (n : node) : bool := has_class "dashboardr-checkbox-group" n.
Definition radio_selector (n : node) : bool := has_class "dashboardr-radio-group" n.
Definition switch_selector (n : node) : bool := is_tag "INPUT" n && input_type_is "switch" n.
Definition slider_selector (n : node) : bool := is_tag "INPUT" n && input_type_is "slider" n.
Definition text_selector (n : node) : bool := is_tag "INPUT" n && input_type_is "text" n.
Definition number_selector (n : node) : bool := is_tag "INPUT" n && input_type_is "number" n.
Definition button_group_selector (n : node) : bool := has_class "dashboardr-button-group" n.

(** [document.querySelectorAll(selector)]: the positions of the matching
    elements, in document order. *)
Definition querySelectorAll (selector : node -> bool) (ns : list node) : list nat :=
  filter (fun i => match nth_error ns i with
                   | Some n => selector n
                   | None => false
                   end)
         (seq 0 (List.length ns)).

(** [document.getElementById(id)]: the first element of that id; no
    element has the empty id. *)
Definition getElementById (id : string) (ns : list node) : option nat :=
  if nonempty_string id then findIndex (fun n => String.eqb (node_id n) id) ns else None.

(** ** Reading a control *)

(** [getSelectedValues(input)]: the values of the selected options of a
    [SELECT], else the value of the element. *)
Definition getSelectedValues (input : element) : list string :=
  if String.eqb (tagName input) "SELECT" then map fst (filter snd (options input))
  else [el_value input].

(** [getCheckboxValues(group)]: the values of the checked boxes. *)
Definition getCheckboxValues (group : element) : list string :=
  map fst (filter snd (options group)).

(** [getRadioValue(group)]: the value of the first checked radio. *)
Definition getRadioValue (group : element) : list string :=
  match find snd (options group) with
  | Some checked => [fst checked]
  | None => []
  end.

(** The value of the first active button of a button group:
    [activeBtn ? [activeBtn.dataset.value] : []]. *)
Definition activeButtonValue (group : element) : list string :=
  match find snd (options group) with
  | Some activeBtn => [fst activeBtn]
  | None => []
  end.

(** ** The init functions *)

(** [input.dataset.dashboardrInitialized === 'true']. *)
Definition initialized (input : node) : bool :=
  match data_initialized input with
  | Some flag => String.eqb flag "true"
  | None => false
  end.

(** The two tests every init function starts with: an element marked
    as initialised is skipped, and so is one without [data-filter-var].
    The result is the filter variable of an element that goes on. *)
Definition init_guard (input : node) : option string :=
  if initialized input then None
  else match data_filter_var input with
       | Some filterVar => if nonempty_string filterVar then Some filterVar else None
       | None => None
       end.

(** [inputState[inputId] = st; defaultValues[inputId] = d]. *)
Definition register (inputId : string) (st : state) (d : default) (pg : page) : page :=
  mkPage (nodes pg) (Obj.set inputId st (page_inputState pg))
         (Obj.set inputId d (page_defaultValues pg)) (page_choicesInstances pg).

(** [choicesInstances[inputId] = choices]. *)
Definition add_choices (inputId : string) (pg : page) : page :=
  mkPage (nodes pg) (page_inputState pg) (page_defaultValues pg)
         (inputId :: page_choicesInstances pg).

(** One round of the [forEach] of an init function over the element at
    position [i]: the guard, the mark, then the part [body] that is the
    function's own, on the element as it was read. *)
Definition init_element (body : nat -> node -> string -> page -> page) (pg : page) (i : nat)
    : page :=
  match nth_error (nodes pg) i with
  | Some input =>
      match init_guard input with
      | Some filterVar =>
          body i input filterVar (with_nodes (update_at i set_initialized (nodes pg)) pg)
      | None => pg
      end
  | None => pg
  end.

Definition init_each (selector : node -> bool) (body : nat -> node -> string -> page -> page)
    (pg : page) : page :=
  fold_left (init_element body) (querySelectorAll selector (nodes pg)) pg.

(** [initSelectInputs(hasChoices)]. [constructs] tells whether
    [new Choices(input, ...)] returns for an element; when it throws, the
    error is logged and the element is registered without an instance. *)
Definition select_body (hasChoices : bool) (constructs : node -> bool)
    (i : nat) (input : node) (filterVar : string) (pg : page) : page :=
  let inputId := node_id input in
  let pg1 := if hasChoices && is_tag "SELECT" input && constructs input
             then add_choices inputId pg else pg in
  let selected := getSelectedValues (dom input) in
  register inputId (mkState filterVar select selected) (default_selected selected) pg1.

Definition initSelectInputs (hasChoices : bool) (constructs : node -> bool) (pg : page) : page :=
  init_each select_selector (select_body hasChoices constructs) pg.

(** [initCheckboxInputs()]. *)
Definition checkbox_body (i : nat) (group : node) (filterVar : string) (pg : page) : page :=
  let selected := getCheckboxValues (dom group) in
  register (node_id group) (mkState filterVar checkbox selected) (default_selected selected) pg.

Definition initCheckboxInputs (pg : page) : page := init_each checkbox_selector checkbox_body pg.

(** [initRadioInputs()]. *)
Definition radio_body (i : nat) (group : node) (filterVar : string) (pg : page) : page :=
  let selected := getRadioValue (dom group) in
  register (node_id group) (mkState filterVar radio selected) (default_selected selected) pg.

Definition initRadioInputs (pg : page) : page := init_each radio_selector radio_body pg.

(** [initSwitchInputs()]: [toggleSeries = dataset.toggleSeries || null],
    [override = dataset.override === 'true']. *)
Definition toggleSeries_of (input : node) : option string :=
  match data_toggle_series input with
  | Some nm => if nonempty_string nm then Some nm else None
  | None => None
  end.

Definition override_of (input : node) : bool :=
  match data_override input with
  | Some flag => String.eqb flag "true"
  | None => false
  end.

Definition switch_body (i : nat) (input : node) (filterVar : string) (pg : page) : page :=
  let value := checked (dom input) in
  register (node_id input)
           (mkState filterVar (switch value (toggleSeries_of input) (override_of input))
                    [if value then "true" else "false"])
           (default_checked value) pg.

Definition initSwitchInputs (pg : page) : page := init_each switch_selector switch_body pg.

(** [updateSliderDisplay] on the page: the display is the first element
    of the id [inputId + '_value']. *)
Definition updateSliderDisplay_page (inputId : string) (labels : option (list jsval))
    (v mn stp : jsnumber) (ns : list node) : list node :=
  match getElementById (inputId ++ "_value") ns with
  | Some j => update_at j (with_dom (with_textContent (slider_display labels v mn stp))) ns
  | None => ns
  end.

(** [initSliderInputs()]: the entry, the default, then the display and
    the track of the element itself. *)
Definition slider_body (i : nat) (input : node) (filterVar : string) (pg : page) : page :=
  let inputId := node_id input in
  let value := parseFloat_string (el_value (dom input)) in
  let min := parseFloat_string (el_min (dom input)) in
  let max := parseFloat_string (el_max (dom input)) in
  let step := orElse (parseFloat_string (el_step input)) (Fin 1) in
  let labels := data_labels input in
  let pg1 := register inputId
               (mkState filterVar (slider value min max step labels) [el_value (dom input)])
               (default_number value) pg in
  let ns1 := updateSliderDisplay_page inputId labels value min step (nodes pg1) in
  with_nodes (update_at i (with_dom updateSliderTrack) ns1) pg1.

Definition initSliderInputs (pg : page) : page := init_each slider_selector slider_body pg.

(** [initTextInputs()]. *)
Definition text_body (i : nat) (input : node) (filterVar : string) (pg : page) : page :=
  let value := el_value (dom input) in
  register (node_id input) (mkState filterVar (text value) [value]) (default_text value) pg.

Definition initTextInputs (pg : page) : page := init_each text_selector text_body pg.

(** [initNumberInputs()]: [value = parseFloat(input.value) || 0]. *)
Definition number_body (i : nat) (input : node) (filterVar : string) (pg : page) : page :=
  let value := orElse (parseFloat_string (el_value (dom input))) (Fin 0) in
  register (node_id input)
           (mkState filterVar
                    (number value (parseFloat_string (el_min (dom input)))
                            (parseFloat_string (el_max (dom input))))
                    [el_value (dom input)])
           (default_number value) pg.

Definition initNumberInputs (pg : page) : page := init_each number_selector number_body pg.

(** [initButtonGroupInputs()]. *)
Definition button_group_body (i : nat) (group : node) (filterVar : string) (pg : page) : page :=
  let selected := activeButtonValue (dom group) in
  register (node_id group) (mkState filterVar button_group selected)
           (default_selected selected) pg.

Definition initButtonGroupInputs (pg : page) : page :=
  init_each button_group_selector button_group_body pg.

(** [initDashboardrInputs()]; [hasChoices] is
    [typeof Choices !== 'undefined']. *)
Definition initDashboardrInputs (hasChoices : bool) (constructs : node -> bool) (pg : page)
    : page :=
  initButtonGroupInputs
    (initNumberInputs
       (initTextInputs
          (initSliderInputs
             (initSwitchInputs
                (initRadioInputs
                   (initCheckboxInputs
                      (initSelectInputs hasChoices constructs pg))))))).

(** [safeInit()]: the flag [initialized] after the call, and the page. *)
Definition safeInit (hasChoices : bool) (constructs : node -> bool) (initialized : bool)
    (pg : page) : bool * page :=
  if initialized then (true, pg)
  else (true, initDashboardrInputs hasChoices constructs pg).

(** [window.dashboardrFilterHook(inputId, filterVar, attempt)]: the
    legacy hook runs the initialisation again once the input system is
    there and the document is no longer loading; its arguments are not
    read. *)
Definition dashboardrFilterHook (dashboardrInputs_ready : bool) (readyState : string)
    (hasChoices : bool) (constructs : node -> bool) (pg : page) : page :=
  if dashboardrInputs_ready && negb (String.eqb readyState "loading")
  then initDashboardrInputs hasChoices constructs pg
  else pg.

(** ** From the page to the engine *)

(** The elements by id, as [document.getElementById] finds them. *)
Definition document_of (ns : list node) : Obj.t element :=
  map (fun n => (node_id n, dom n)) (filter (fun n => nonempty_string (node_id n)) ns).

Definition engine_of (pg : page) (cs : list chart) (w : window) : engine :=
  mkEngine (page_inputState pg) (page_defaultValues pg) (page_choicesInstances pg)
           (document_of (nodes pg)) cs w.

(* ================================================================== *)
(** * The event handlers *)
(* ================================================================== *)

(** A handler closes over the id of its control and the element; the
    element is passed as it is when the event fires, and is the one the
    document then holds under the id. [None] stands for the cases no
    page with one control per id reaches: the registry has no entry
    under the id, or the entry is of another control type and the
    handler would give it a [value] of the wrong type. *)

(** The document when the element [el] of the control fires an event. *)
Definition fired (inputId : string) (el : element) (e : engine) : engine :=
  mkEngine (inputState e) (defaultValues e) (choicesInstances e)
           (Obj.replace inputId el (document e)) (charts e) (globals e).

(** [inputState[inputId].selected = selected]. *)
Definition set_selected (inputId : string) (sel : list string) (e : engine) : option engine :=
  match Obj.get inputId (inputState e) with
  | Some st =>
      Some (mkEngine (Obj.replace inputId (mkState (filterVar st) (kind st) sel) (inputState e))
                     (defaultValues e) (choicesInstances e) (document e) (charts e) (globals e))
  | None => None
  end.

(** The [change] handler of a select. *)
Definition select_changed (inputId : string) (input : element) (e : engine) : option engine :=
  option_map applyAllFilters
    (set_selected inputId (getSelectedValues input) (fired inputId input e)).

(** [enhanceNativeMultiSelect]: a press on the option at position [j]
    of a native multiple select toggles the option and fires [change]. *)
Definition toggle (j : nat) (opts : list (string * bool)) : list (string * bool) :=
  map (fun o => (fst (snd o), if Nat.eqb (fst o) j then negb (snd (snd o)) else snd (snd o)))
      (indexed opts).

Definition option_pressed (inputId : string) (input : element) (j : nat) (e : engine)
    : option engine :=
  select_changed inputId (with_select_options (toggle j (options input)) input) e.

(** The [change] handler of the boxes of a check-box group. *)
Definition checkbox_changed (inputId : string) (group : element) (e : engine) : option engine :=
  option_map applyAllFilters
    (set_selected inputId (getCheckboxValues group) (fired inputId group e)).

(** The [change] handler of the radios of a radio group. *)
Definition radio_changed (inputId : string) (group : element) (e : engine) : option engine :=
  option_map applyAllFilters
    (set_selected inputId (getRadioValue group) (fired inputId group e)).

(** The [click] handler of the button at position [j] of a button
    group: the button becomes the only active one, its value the
    selection. *)
Definition activate (j : nat) (buttons : list (string * bool)) : list (string * bool) :=
  map (fun b => (fst (snd b), Nat.eqb (fst b) j)) (indexed buttons).

Definition button_clicked (inputId : string) (group : element) (j : nat) (e : engine)
    : option engine :=
  match nth_error (options group) j with
  | Some btn =>
      option_map applyAllFilters
        (set_selected inputId [fst btn]
           (fired inputId (with_options (activate j (options group)) group) e))
  | None => None
  end.

(** The [change] handler of a switch. *)
Definition switch_changed (inputId : string) (input : element) (e : engine) : option engine :=
  match Obj.get inputId (inputState e) with
  | Some st =>
      match kind st with
      | switch _ ts ov =>
          let b := checked input in
          Some (applyAllFilters
                  (mkEngine (Obj.replace inputId
                               (mkState (filterVar st) (switch b ts ov)
                                        [if b then "true" else "false"])
                               (inputState e))
                            (defaultValues e) (choicesInstances e)
                            (Obj.replace inputId input (document e))
                            (charts e) (globals e)))
      | _ => None
      end
  | None => None
  end.

(** The [input] handler of a slider; [labels], [min] and [step] are the
    ones read at initialisation. The display and the track of the
    element are brought up to date, then the filters are applied. *)
Definition slider_moved (inputId : string) (labels : option (list jsval)) (min step : jsnumber)
    (input : element) (e : engine) : option engine :=
  match Obj.get inputId (inputState e) with
  | Some st =>
      match kind st with
      | slider _ mn mx stp lbls =>
          let newValue := parseFloat_string (el_value input) in
          let doc1 := updateSliderDisplay inputId labels newValue min step (document e) in
          let doc2 := Obj.replace inputId (updateSliderTrack input) doc1 in
          Some (applyAllFilters
                  (mkEngine (Obj.replace inputId
                               (mkState (filterVar st) (slider newValue mn mx stp lbls)
                                        [el_value input])
                               (inputState e))
                            (defaultValues e) (choicesInstances e) doc2
                            (charts e) (globals e)))
      | _ => None
      end
  | None => None
  end.

(** The [input] handler of a text input, once its debounce timer has
    fired. *)
Definition text_typed (inputId : string) (input : element) (e : engine) : option engine :=
  match Obj.get inputId (inputState e) with
  | Some st =>
      match kind st with
      | text _ =>
          Some (applyAllFilters
                  (mkEngine (Obj.replace inputId
                               (mkState (filterVar st) (text (el_value input)) [el_value input])
                               (inputState e))
                            (defaultValues e) (choicesInstances e)
                            (Obj.replace inputId input (document e))
                            (charts e) (globals e)))
      | _ => None
      end
  | None => None
  end.

(** The [input] handler of a number input:
    [newValue = parseFloat(input.value) || 0]. *)
Definition number_typed (inputId : string) (input : element) (e : engine) : option engine :=
  match Obj.get inputId (inputState e) with
  | Some st =>
      match kind st with
      | number _ mn mx =>
          let newValue := orElse (parseFloat_string (el_value input)) (Fin 0) in
          Some (applyAllFilters
                  (mkEngine (Obj.replace inputId
                               (mkState (filterVar st) (number newValue mn mx) [el_value input])
                               (inputState e))
                            (defaultValues e) (choicesInstances e)
                            (Obj.replace inputId input (document e))
                            (charts e) (globals e)))
      | _ => None
      end
  | None => None
  end.

(** [reapplyFilters()]. *)
Definition reapplyFilters (e : engine) : engine := applyAllFilters e.

(** The click on a tab, once its timer has fired: the series that have
    appeared are captured, then the filters are applied. *)
Definition tab_clicked (e : engine) : engine := applyAllFilters (storeOriginalData e).

(** [waitForChartsAndApply()]: the flag [filtersApplied] after the call,
    and the engine. While no chart exists the call only schedules a
    retry. *)
Definition waitForChartsAndApply (filtersApplied : bool) (e : engine) : bool * engine :=
  if filtersApplied then (true, e)
  else match charts e with
       | [] => (false, e)
       | _ => (true, applyAllFilters (storeOriginalData e))
       end.

(** ** What can happen on a page *)

(** The events the engine listens to, each with what its handler closes
    over and the element as it is when the event fires, a run of
    [waitForChartsAndApply] and a call of [reapply] through the exported
    API. *)
Inductive event : Type :=
| SelectChanged (inputId : string) (input : element)
| OptionPressed (inputId : string) (input : element) (j : nat)
| CheckboxChanged (inputId : string) (group : element)
| RadioChanged (inputId : string) (group : element)
| ButtonClicked (inputId : string) (group : element) (j : nat)
| SwitchChanged (inputId : string) (input : element)
| SliderMoved (inputId : string) (labels : option (list jsval)) (min step : jsnumber)
              (input : element)
| TextTyped (inputId : string) (input : element)
| NumberTyped (inputId : string) (input : element)
| TabClicked
| ChartsAwaited (filtersApplied : bool)
| Reapplied
| ResetClicked (targetsAttr : string).

Definition handle (ev : event) (e : engine) : option engine :=
  match ev with
  | SelectChanged inputId input => select_changed inputId input e
  | OptionPressed inputId input j => option_pressed inputId input j e
  | CheckboxChanged inputId group => checkbox_changed inputId group e
  | RadioChanged inputId group => radio_changed inputId group e
  | ButtonClicked inputId group j => button_clicked inputId group j e
  | SwitchChanged inputId input => switch_changed inputId input e
  | SliderMoved inputId labels min step input => slider_moved inputId labels min step input e
  | TextTyped inputId input => text_typed inputId input e
  | NumberTyped inputId input => number_typed inputId input e
  | TabClicked => Some (tab_clicked e)
  | ChartsAwaited filtersApplied => Some (snd (waitForChartsAndApply filtersApplied e))
  | Reapplied => Some (reapplyFilters e)
  | ResetClicked targetsAttr => resetFilters targetsAttr e
  end.

(** A sequence of events, handled one after the other. *)
Fixpoint handle_all (evs : list event) (e : engine) : option engine :=
  match evs with
  | [] => Some e
  | ev :: rest =>
      match handle ev e with
      | Some e' => handle_all rest e'
      | None => None
      end
  end.

(* ================================================================== *)
(** * Vocabulary of the properties *)
(* ================================================================== *)

(** The surviving categories of a chart whose original categories are
    [cats], under the controls of [registry]: [newCategories]. *)
Definition surviving (cats : list jsval) (registry : Obj.t state) : list jsval :=
  categories_at cats (visibleCategoryIndices cats (collect registry)).

(** The controls that select values: select, checkbox, radio and
    button group. *)
Definition discrete (k : inputType) : bool :=
  match k with
  | select | checkbox | radio | button_group => true
  | _ => false
  end.

(** A category's number passes a lower bound, or the category is not
    numeric. *)
Definition at_least (bound : jsnumber) (cat : jsval) : bool :=
  isNaN (parseFloat cat) || ge (parseFloat cat) bound.

(** The sum of a list of numbers. *)
Definition Qsum (l : list Q) : Q := fold_right Qplus 0%Q l.

(** The stack order in use lists every stack value of the rows once:
    either none is supplied, and the values met are used, or the one
    supplied has no two entries of the same string form and holds the
    stack value of every row. *)
Definition stack_order_complete (cfg : config) (rows : list row) : Prop :=
  stackOrder cfg = [] \/
  (NoDup (map String (stackOrder cfg)) /\
   forall r, In r rows -> In (String_cell r (stackVar cfg)) (map String (stackOrder cfg))).

(** The sums organised by x: keys are met once, at both levels, and each
    stack key of a bucket is the stack value of a summed item. *)
Definition organized (items : list summedItem) (byX : Obj.t (Obj.t Q)) : Prop :=
  NoDup (Obj.keys byX) /\
  forall x inner, In (x, inner) byX ->
    NoDup (Obj.keys inner) /\
    forall s, In s (Obj.keys inner) -> exists item, In item items /\ stackVal item = s.

(** ** The regular path, field by field *)

(** The chart is rebuilt from cross-tab data: it has an entry in
    [dashboardrCrossTab] with both [data] and [config]. *)
Definition rebuilt_from_crossTab (w : window) (c : chart) : bool :=
  match crossTab_of w c with
  | Some info =>
      match ct_data info, ct_config info with
      | Some _, Some _ => true
      | _, _ => false
      end
  | None => false
  end.

(** The value the [show_legend] switches leave in the legend: the last
    one's, if there is one. *)
Definition legend_choice (registry : Obj.t state) : option bool :=
  fold_left
    (fun acc entry =>
       match kind (snd entry) with
       | switch v _ _ =>
           if String.eqb (filterVar (snd entry)) "show_legend" then Some v else acc
       | _ => acc
       end)
    registry None.

(** The series type the [chart_type] entries leave. *)
Definition type_choice (flt : Obj.t (list string)) : option string :=
  fold_left
    (fun acc entry =>
       if String.eqb (fst entry) "chart_type" then
         match snd entry with
         | chartType :: _ => if nonempty_string chartType then Some (typeMap chartType) else acc
         | [] => acc
         end
       else acc)
    flt None.

Definition retype (t : option string) (s : series) : series :=
  match t with
  | Some t' => update_type t' s
  | None => s
  end.

(** What metric switching does to one series. *)
Definition remetric (w : window) (flt : Obj.t (list string)) (cats : option (list jsval))
    (s : series) : series :=
  match selectedMetric_of w flt with
  | Some (m, allData) =>
      metric_series allData (timeVar_of w allData)
                    (timeValues_of cats (timeVar_of w allData) allData) m s
  | None => s
  end.

Definition visible_of (cats : option (list jsval)) (fs : filterSets) : list nat :=
  match cats with
  | Some cs => visibleCategoryIndices cs fs
  | None => []
  end.

(** What one run of the regular path does to one series of chart [c]. *)
Definition filter_series (w : window) (registry : Obj.t state) (fs : filterSets)
    (c : chart) (s : series) : series :=
  apply_series registry fs (map name (chart_series c)) (originalCategories c)
    (visible_of (originalCategories c) fs) (hasNumericXAxis c)
    (remetric w (filters fs) (originalCategories c) (retype (type_choice (filters fs)) s)).

(** The category labels after one run of the regular path. *)
Definition new_categories (fs : filterSets) (c : chart) : option (list jsval) :=
  match originalCategories c with
  | Some cs =>
      match categories_at cs (visibleCategoryIndices cs fs) with
      | [] => categories c
      | newCategories => Some newCategories
      end
  | None => categories c
  end.

Definition or_else {A : Type} (a b : option A) : option A :=
  match a with
  | Some _ => a
  | None => b
  end.

Definition metric_title (w : window) (flt : Obj.t (list string)) : option string :=
  option_map fst (selectedMetric_of w flt).

(** ** Operations of the engine, and what they keep *)

(** No metric rebuild takes place in this state: no metric is selected,
    or the page has no metric table. *)
Definition no_metric_rebuild (e : engine) : Prop :=
  selectedMetric_of (globals e) (filters (collect (inputState e))) = None.

(** One operation of the engine: the snapshot capture, a filter
    application, a reset (the controls are reset, then the filters are
    applied), or a change of the controls by the user. [P] is what holds
    of the state in which the filters are applied. *)
Inductive step (P : engine -> Prop) : engine -> engine -> Prop :=
| step_store (e : engine) : step P e (storeOriginalData e)
| step_apply (e : engine) : P e -> step P e (applyAllFilters e)
| step_reset (targetsAttr : string) (e e1 : engine) :
    reset_targets (targets_of targetsAttr (defaultValues e)) e = Some e1 ->
    P e1 ->
    step P e (applyAllFilters e1)
| step_input (e : engine) (registry : Obj.t state) (doc : Obj.t element) :
    step P e (mkEngine registry (defaultValues e) (choicesInstances e) doc
                       (charts e) (globals e)).









(** ** Reset, piece by piece *)

(** The registry entry a reset leaves, when the default entry has the
    property the control's type reads. *)
Definition state_reset (st : state) (d : default) : option state :=
  match kind st, d with
  | select, default_selected sel => Some (mkState (filterVar st) select sel)
  | checkbox, default_selected sel => Some (mkState (filterVar st) checkbox sel)
  | radio, default_selected sel => Some (mkState (filterVar st) radio sel)
  | button_group, default_selected sel => Some (mkState (filterVar st) button_group sel)
  | switch _ ts ov, default_checked b =>
      Some (mkState (filterVar st) (switch b ts ov) [if b then "true" else "false"])
  | slider _ mn mx stp labels, default_number v =>
      Some (mkState (filterVar st) (slider v mn mx stp labels) [String_of_number v])
  | text _, default_text v => Some (mkState (filterVar st) (text v) [v])
  | number _ mn mx, default_number v =>
      Some (mkState (filterVar st) (number v mn mx) [String_of_number v])
  | _, _ => None
  end.

(** What a reset does to the control's element. *)
Definition element_reset (hasChoices : bool) (st : state) (d : default) (el : element) : element :=
  match kind st, d with
  | select, default_selected sel => reset_select_element hasChoices sel el
  | checkbox, default_selected sel
  | radio, default_selected sel
  | button_group, default_selected sel => with_options (mark sel (options el)) el
  | switch _ _ _, default_checked b => with_checked b el
  | slider _ _ _ _ _, default_number v => updateSliderTrack (with_value (String_of_number v) el)
  | text _, default_text v => with_value v el
  | number _ _ _, default_number v => with_value (String_of_number v) el
  | _, _ => el
  end.

(** The text a reset writes to the display of a slider. *)
Definition display_reset (st : state) (d : default) : option string :=
  match kind st, d with
  | slider _ mn _ stp labels, default_number v => Some (slider_display labels v mn stp)
  | _, _ => None
  end.

Definition write_display (inputId : string) (t : option string) (doc : Obj.t element)
    : Obj.t element :=
  match t with
  | Some t' =>
      match Obj.get (inputId ++ "_value")%string doc with
      | Some valueDisplay =>
          Obj.replace (inputId ++ "_value")%string (with_textContent t' valueDisplay) doc
      | None => doc
      end
  | None => doc
  end.

(** The control [inputId] stands at its default: its registry entry,
    its element and its display are what a reset would write. *)
Definition at_default (e : engine) (inputId : string) : Prop :=
  forall d st el,
    Obj.get inputId (defaultValues e) = Some d ->
    Obj.get inputId (inputState e) = Some st ->
    Obj.get inputId (document e) = Some el ->
    state_reset st d = Some st /\
    element_reset (mem inputId (choicesInstances e)) st d el = el /\
    forall t valueDisplay,
      display_reset st d = Some t ->
      Obj.get (inputId ++ "_value")%string (document e) = Some valueDisplay ->
      textContent valueDisplay = t.

(** The element [el'] of a control of type [k] shows the default [d],
    [el] being the element before the reset. A select under Choices.js
    holds the default values, once each, as its selected options; of a
    native [SELECT], a check-box group, a radio group or a button group,
    every child is marked exactly when its value is among the defaults;
    a switch is checked as the default says; a slider, a text input and
    a number input hold the default as their value, and the track of the
    slider is filled for it. A select that is neither under Choices.js
    nor a [SELECT] element is not written. *)
Definition shows_default (hasChoices : bool) (k : inputType) (d : default)
    (el el' : element) : Prop :=
  match k, d with
  | select, default_selected sel =>
      if hasChoices then
        options el' = map (fun v => (v, true)) (dedupe String.eqb sel) /\
        el_value el' = select_value (options el')
      else if String.eqb (tagName el) "SELECT" then
        options el' = mark sel (options el) /\
        el_value el' = select_value (options el')
      else options el' = options el /\ el_value el' = el_value el
  | checkbox, default_selected sel
  | radio, default_selected sel
  | button_group, default_selected sel => options el' = mark sel (options el)
  | switch _ _ _, default_checked b => checked el' = b
  | slider _ _ _ _ _, default_number v =>
      el_value el' = String_of_number v /\
      slider_percent el'
      = slider_percent (updateSliderTrack (with_value (String_of_number v) el))
  | text _, default_text v => el_value el' = v
  | number _ _ _, default_number v => el_value el' = String_of_number v
  | _, _ => True
  end.

(** Every control has the default entry its init function writes: one
    with [selected] for the controls that select values, one with
    [value] of the control's own type for the others. *)
Definition defaults_match (e : engine) : Prop :=
  forall inputId d st,
    Obj.get inputId (defaultValues e) = Some d ->
    Obj.get inputId (inputState e) = Some st ->
    state_reset st d <> None.

(** ** One run of the regular path on one series, as a record *)

(** The data metric switching rebuilds for the series named [nm], when
    it rebuilds it. *)
Definition rebuilt_data (w : window) (flt : Obj.t (list string))
    (cats : option (list jsval)) (nm : string) : option (list point) :=
  match selectedMetric_of w flt with
  | Some (m, allData) =>
      match countryData_of allData nm m with
      | [] => None
      | countryData =>
          Some (newData_of countryData (timeVar_of w allData)
                           (timeValues_of cats (timeVar_of w allData) allData))
      end
  | None => None
  end.

(** The series named [nm] ends up visible. *)
Definition series_shown (registry : Obj.t state) (fs : filterSets)
    (seriesNames : list string) (nm : string) : bool :=
  negb (mem nm (switchHiddenSeries registry)) &&
  (mem nm (switchShownSeries registry) || showSeries fs seriesNames nm).

Definition series_after (w : window) (registry : Obj.t state) (fs : filterSets)
    (seriesNames : list string) (cats : option (list jsval)) (numeric : bool)
    (s : series) : series :=
  let rebuilt := rebuilt_data w (filters fs) cats (name s) in
  let base := match rebuilt with Some newData => newData | None => data s end in
  let stored := match rebuilt with
                | Some newData => Some (mkOriginal newData (name s))
                | None => snapshot s
                end in
  let shown := series_shown registry fs seriesNames (name s) in
  mkSeries (name s)
           (if shown then
              match stored, cats with
              | Some o, Some _ => filteredData_categories o (visible_of cats fs)
              | Some o, None =>
                  if numeric then filteredData_numeric o (sliderFilters fs) else base
              | None, _ => base
              end
            else base)
           shown shown
           (or_else (type_choice (filters fs)) (type s))
           stored.

(** A second run of the regular path treats the chart as the first
    did: the chart has categories, or no metric is rebuilding a series
    of the chart, or no slider is registered and the first series holds
    a point. *)
Definition stable_axis (w : window) (fs : filterSets) (c : chart) : Prop :=
  originalCategories c <> None \/
  (forall s, In s (chart_series c) -> rebuilt_data w (filters fs) None (name s) = None) \/
  (sliderFilters fs = [] /\ hasNumericXAxis c = true).

(** ** The series writes of a cross-tab rebuild *)

(** [find_series] reads the names and the number of the series only. *)
Definition find_series_by (names : list string) (s : jsval) (seriesIdx : nat) : option nat :=
  let by_name := match s with
                 | JStr nm => findIndex (fun n' => String.eqb n' nm) names
                 | JNum _ => None
                 end in
  match by_name with
  | Some i => Some i
  | None => if Nat.ltb seriesIdx (List.length names) then Some seriesIdx else None
  end.

(** One [setData]: the position of the series and the data. *)
Definition write_all (writes : list (nat * list point)) (l : list series) : list series :=
  fold_left (fun l wr => update_at (fst wr) (setData (snd wr)) l) writes l.

Definition resolve (isPercent : bool) (byX : Obj.t (Obj.t Q)) (xTotals : Obj.t Q)
    (orderedX : list jsval) (names : list string) (entries : list (nat * jsval))
    : list (nat * list point) :=
  flat_map (fun entry =>
              match find_series_by names (snd entry) (fst entry) with
              | Some i => [(i, map PNum (seriesData_of isPercent byX xTotals orderedX (snd entry)))]
              | None => []
              end)
           entries.

(** What the page shows of its charts: the category labels and, per
    series, the name, the visibility and the data. *)
Definition displayed (e : engine) : list (option (list jsval) * list (string * bool * list point)) :=
  map (fun c => (categories c,
                 map (fun s => (name s, visible s, data s)) (chart_series c)))
      (charts e).

(** ** Selections that filter nothing *)

(** A selection as the engine reads it: an empty selection counts as no
    selection. *)
Definition active (o : option (list string)) : option (list string) :=
  match o with
  | Some (v :: rest) => Some (v :: rest)
  | _ => None
  end.

(** Two filter objects hold the same non-empty selections. *)
Definition similar (flt flt' : Obj.t (list string)) : Prop :=
  NoDup (Obj.keys flt) /\ NoDup (Obj.keys flt') /\
  forall k, active (Obj.get k flt') = active (Obj.get k flt).

Definition similar_sets (fs fs' : filterSets) : Prop :=
  similar (filters fs) (filters fs') /\
  similar (periodFilters fs) (periodFilters fs') /\
  sliderFilters fs' = sliderFilters fs /\
  textFilters fs' = textFilters fs.

(** The tests one discrete filter and one period preset put on a
    category index. *)
Definition category_passes (cats : list jsval) (selectedValues : list string) (idx : nat) : bool :=
  match selectedValues with
  | [] => true
  | _ =>
      if overlaps selectedValues (map String cats)
      then mem (String_at cats idx) selectedValues
      else true
  end.

Definition period_passes (cats : list jsval) (selected : list string) (idx : nat) : bool :=
  match selected with
  | periodValue :: _ =>
      if nonempty_string periodValue && negb (includes periodValue "All")
      then period_keeps periodValue (parseFloat_at cats idx)
      else true
  | [] => true
  end.

(** ** Filters as tests on a category *)

(** The test one slider puts on a category index. *)
Definition slider_passes (cats : list jsval) (info : sliderInfo) (idx : nat) : bool :=
  if has_labels info then
    match startLabel info with
    | Some label =>
        if truthy label then
          match findIndex (fun cat => String.eqb (String cat) (String label)) cats with
          | Some startCategoryIdx => Nat.leb startCategoryIdx idx
          | None => true
          end
        else true
    | None => true
    end
  else
    let catNum := parseFloat_at cats idx in
    if negb (isNaN catNum) then ge catNum (s_value info) else true.

(** [l] is [l'] with some elements left out, the others in their order. *)
Inductive subsequence {A : Type} : list A -> list A -> Prop :=
| subsequence_nil : subsequence [] []
| subsequence_skip (a : A) (l l' : list A) : subsequence l l' -> subsequence l (a :: l')
| subsequence_keep (a : A) (l l' : list A) : subsequence l l' -> subsequence (a :: l) (a :: l').

(** ** Controls the charts do not read *)

(** A control no chart reads: a number input, or a switch that neither
    toggles a series nor is bound to [show_legend]. *)
Definition unread (st : state) : bool :=
  match kind st with
  | number _ _ _ => true
  | switch _ ts _ =>
      negb (String.eqb (filterVar st) "show_legend") &&
      match ts with
      | Some nm => negb (nonempty_string nm)
      | None => true
      end
  | _ => false
  end.

(** Two registries that differ in unread controls only. *)
Definition same_but_unread (r r' : Obj.t state) : Prop :=
  Forall2 (fun a b => a = b \/ (unread (snd a) = true /\ unread (snd b) = true)) r r'.

(** A text input whose value is blank. *)
Definition blank (v : string) : bool :=
  negb (nonempty_string v && nonempty_string (trim v)).

(** The name of a series holds the search text, case apart. *)
Definition name_matches (searchText nm : string) : bool :=
  includes (toLowerCase nm) searchText.

(** A string of ASCII characters. On such strings [toLowerCase] and
    [trim] are [String.prototype.toLowerCase] and
    [String.prototype.trim]; on others JavaScript also folds the case of
    letters and trims white space outside ASCII. *)
Definition is_ascii (s : string) : bool :=
  forallb (fun ch => (nat_of_ascii ch <? 128)%nat) (list_ascii_of_string s).

(** The search runs on ASCII text: the names of the series of the chart
    and the values of the text inputs. *)
Definition ascii_search (registry : Obj.t state) (c : chart) : Prop :=
  (forall s, In s (chart_series c) -> is_ascii (name s) = true) /\
  (forall j st v, In (j, st) registry -> kind st = text v -> is_ascii v = true).

(** The names every object inherits from [Object.prototype]: looking one
    of them up in an object literal gives the inherited member, not
    [undefined]. *)
Definition inherited_properties : list string :=
  ["constructor"; "hasOwnProperty"; "isPrototypeOf"; "propertyIsEnumerable";
   "toLocaleString"; "toString"; "valueOf"; "__proto__";
   "__defineGetter__"; "__defineSetter__"; "__lookupGetter__"; "__lookupSetter__"].

(** ** The cross-tab rebuild, cell by cell *)

(** A series after a [setData]: everything but the data is as before. *)
Definition data_rewritten (s s' : series) : Prop := exists d, s' = setData d s.

(** The key under which a row is summed: [xVal + '|||' + stackVal]. *)
Definition key_of (xv sv : string) (r : row) : string :=
  (String_cell r xv ++ "|||" ++ String_cell r sv)%string.

(** Rows with the same key have the same x value and stack value: the
    separator does not glue two different pairs together. *)
Definition keys_distinguish (xv sv : string) (rows : list row) : Prop :=
  forall r r', In r rows -> In r' rows -> key_of xv sv r = key_of xv sv r' ->
    String_cell r xv = String_cell r' xv /\ String_cell r sv = String_cell r' sv.

(** The rows of one x value and one stack value, and their total count. *)
Definition in_cell (xv sv x s : string) (r : row) : bool :=
  String.eqb (String_cell r xv) x && String.eqb (String_cell r sv) s.

Definition cell_sum (xv sv : string) (rows : list row) (x s : string) : Q :=
  Qsum (map row_n (filter (in_cell xv sv x s) rows)).

(** [byX[x][s]]. *)
Definition cell (byX : Obj.t (Obj.t Q)) (x s : string) : option Q :=
  match Obj.get x byX with
  | Some inner => Obj.get s inner
  | None => None
  end.

(** The object [summed] holds the sums of the rows [processed]: one item
    per key, carrying the x value, the stack value and the total count of
    the rows of its cell. *)
Definition sums_rows (xv sv : string) (processed : list row) (summed : Obj.t summedItem) : Prop :=
  NoDup (Obj.keys summed) /\
  (forall r, In r processed ->
     exists item,
       Obj.get (key_of xv sv r) summed = Some item /\
       xVal item = String_cell r xv /\
       stackVal item = String_cell r sv /\
       sum_n item == cell_sum xv sv processed (String_cell r xv) (String_cell r sv)) /\
  (forall k item, In (k, item) summed -> exists r, In r processed /\ k = key_of xv sv r).

(** The key an item was summed under. *)
Definition item_key (item : summedItem) : string :=
  (xVal item ++ "|||" ++ stackVal item)%string.

Definition item_in_cell (x s : string) (item : summedItem) : bool :=
  String.eqb (xVal item) x && String.eqb (stackVal item) s.

(** The total count of the rows of one x value. *)
Definition bucket_sum (xv : string) (rows : list row) (x : string) : Q :=
  Qsum (map row_n (filter (fun r => String.eqb (String_cell r xv) x) rows)).

(** The total of the items of one x value, and the total a bucket of
    [byX] holds. *)
Definition items_sum (x : string) (items : list summedItem) : Q :=
  Qsum (map sum_n (filter (fun item => String.eqb (xVal item) x) items)).

Definition bucket_total (byX : Obj.t (Obj.t Q)) (x : string) : Q :=
  match Obj.get x byX with
  | Some inner => Qsum (Obj.values inner)
  | None => 0
  end.

(** ** Metric switching, label by label *)

(** The point metric switching gives the series [nm] at the time value
    [timeVal]: the value of the first row of that country and metric
    whose time field is strictly equal to it, [null] when there is
    none. *)
Definition metric_point (w : window) (allData : metricRow * list metricRow)
    (selectedMetric nm : string) (timeVal : jsval) : point :=
  match find (fun d => match timeVar_of w allData with
                       | Some tv => strict_eq_opt (Obj.get tv (fields d)) (Some timeVal)
                       | None => false
                       end)
             (countryData_of allData nm selectedMetric) with
  | Some p => match metric_value p with Some v => PNum v | None => PNull end
  | None => PNull
  end.

(** A check of [keys_distinguish] by evaluation. *)
Definition keys_distinguish_b (xv sv : string) (rows : list row) : bool :=
  forallb (fun r =>
             forallb (fun r' =>
                        negb (String.eqb (key_of xv sv r) (key_of xv sv r')) ||
                        (String.eqb (String_cell r xv) (String_cell r' xv) &&
                         String.eqb (String_cell r sv) (String_cell r' sv)))
                     rows)
          rows.

(** ** Initialisation and interaction *)

(** The default entry an init function writes next to a registry
    entry: the selection of a control that selects values, the value of
    the others. *)
Definition default_of (st : state) : default :=
  match kind st with
  | select | checkbox | radio | button_group => default_selected (selected st)
  | switch v _ _ => default_checked v
  | slider v _ _ _ _ => default_number v
  | text v => default_text v
  | number v _ _ => default_number v
  end.

Definition defaults_of (registry : Obj.t state) : Obj.t default :=
  map (fun entry => (fst entry, default_of (snd entry))) registry.

(** An element later in the initialisation: what the selectors read is
    as before, and an element the guard stops is still stopped. *)
Definition ages (n n' : node) : Prop :=
  classList n' = classList n /\
  data_input_type n' = data_input_type n /\
  tagName (dom n') = tagName (dom n) /\
  (init_guard n = None -> init_guard n' = None).

(** Every element a selector matches is stopped by the guard. *)
Definition all_stopped (selector : node -> bool) (pg : page) : Prop :=
  forall n, In n (nodes pg) -> selector n = true -> init_guard n = None.

(** A control type with its value left out. *)
Definition without_value (k : inputType) : inputType :=
  match k with
  | switch _ ts ov => switch false ts ov
  | slider _ mn mx stp labels => slider NaN mn mx stp labels
  | text _ => text ""
  | number _ mn mx => number NaN mn mx
  | _ => k
  end.

(** The same control, whatever its value and its selection: the filter
    variable, the type, and what the type carries besides the value. *)
Definition same_control (st st' : state) : Prop :=
  filterVar st' = filterVar st /\ without_value (kind st') = without_value (kind st).

Definition same_controls (r r' : Obj.t state) : Prop :=
  Forall2 (fun a b => fst b = fst a /\ same_control (snd a) (snd b)) r r'.

(** Two entries a filter application cannot tell apart: the selection of
    a control that has a value of its own is never read. *)
Definition same_reading (st st' : state) : Prop :=
  filterVar st' = filterVar st /\ kind st' = kind st /\
  (discrete (kind st) = true -> selected st' = selected st).

(** What the page holds for its controls since they were registered:
    the default entries, the controls under their ids, and an element
    for every id that had one. *)
Definition controls_kept (e0 e : engine) : Prop :=
  defaultValues e = defaultValues e0 /\
  same_controls (inputState e0) (inputState e) /\
  forall k, Obj.get k (document e0) <> None -> Obj.get k (document e) <> None.

(** A selector reads what [ages] keeps. *)
Definition static (selector : node -> bool) : Prop :=
  forall n n', ages n n' -> selector n' = selector n.

(** The part of an init function that is its own writes no attribute a
    selector or the guard reads. *)
Definition body_ages (body : nat -> node -> string -> page -> page) : Prop :=
  forall i input filterVar pg, Forall2 ages (nodes pg) (nodes (body i input filterVar pg)).

(** ** Sample inputs *)

Module Sample.

(** Counts of answers by wave and country, with a gender column to
    filter on. *)
Definition survey : list row :=
  [ mkRow [("wave", JNum 1); ("country", JStr "DE"); ("gender", JStr "f")] 3;
    mkRow [("wave", JNum 1); ("country", JStr "NL"); ("gender", JStr "f")] 1;
    mkRow [("wave", JNum 1); ("country", JStr "NL"); ("gender", JStr "m")] 4;
    mkRow [("wave", JNum 2); ("country", JStr "DE"); ("gender", JStr "m")] 2 ].

Definition percent_config : config :=
  mkConfig "wave" "country" ["gender"] "percent" [] [].

(** The same, with a stack order that leaves "NL" out. *)
Definition partial_order_config : config :=
  mkConfig "wave" "country" ["gender"] "percent" [JStr "DE"] [].

Definition plain_series (nm : string) (d : list point) : series :=
  mkSeries nm d true true None None.

Definition stacked_chart : chart :=
  mkChart (Some "attitudes") [plain_series "DE" []; plain_series "NL" []]
          None None None None None None 0.

Definition years_chart : chart :=
  mkChart None
          [plain_series "DE" [PNum 1; PNum 2; PNum 3];
           plain_series "NL" [PNum 4; PNum 5; PNum 6]]
          (Some (map JNum [2014; 2019; 2021]%Z)) None None None None None 0.

Definition no_globals : window := mkWindow None None None.

(** A page with the given controls and charts and nothing else. *)
Definition page (registry : Obj.t state) (cs : list chart) (w : window) : engine :=
  mkEngine registry Obj.empty [] Obj.empty cs w.

Definition period_radio (v : string) : Obj.t state :=
  [("period", mkState "period" radio [v])].

(** A switch that toggles the series [nm] and is off. *)
Definition switch_off (nm : string) : Obj.t state :=
  [("toggle", mkState "show" (switch false (Some nm) false) ["false"])].

Definition crossTab_globals : window :=
  mkWindow (Some [("attitudes", mkCrossTabInfo (Some survey) (Some percent_config))])
           None None.

(** A metric table by country and year, a select bound to [metric], and
    a chart of two countries over the years 2014 and 2019. *)
Definition metric_table : metricRow * list metricRow :=
  (mkMetricRow [("country", JStr "DE"); ("metric", JStr "trust"); ("year", JNum 2014)] (Some 10),
   [mkMetricRow [("country", JStr "DE"); ("metric", JStr "trust"); ("year", JNum 2019)] (Some 20);
    mkMetricRow [("country", JStr "NL"); ("metric", JStr "use"); ("year", JNum 2014)] (Some 7)]).

Definition metric_globals : window := mkWindow None (Some metric_table) None.

Definition metric_select (m : string) : Obj.t state :=
  [("metric_input", mkState "metric" select [m])].

Definition trend_chart : chart :=
  mkChart None [plain_series "DE" [PNum 1; PNum 2]; plain_series "NL" [PNum 3; PNum 4]]
          (Some (map JNum [2014; 2019]%Z)) None None None None None 0.

(** A page with a labelled slider, its display, and a select, both moved
    away from their defaults. *)
Definition controls_page : engine :=
  mkEngine
    [("year_slider",
      mkState "year" (slider (Fin 2) (Fin 0) (Fin 2) (Fin 1)
                             (Some [JStr "2014"; JStr "2019"; JStr "2021"])) ["2"]);
     ("country", mkState "country" select ["NL"])]
    [("year_slider", default_number (Fin 0));
     ("country", default_selected ["DE"])]
    []
    [("year_slider", mkElement "INPUT" [] false "2" "0" "2" None "");
     ("year_slider_value", mkElement "SPAN" [] false "" "" "" None "2021");
     ("country", mkElement "SELECT" [("DE", false); ("NL", true)] false "NL" "" "" None "")]
    [years_chart]
    no_globals.

(** Two series on a numeric x axis (points with [x], no categories), a
    metric table with rows for "DE" only, one of them without a value, a
    metric select and a slider at a given value. *)
Definition gap_table : metricRow * list metricRow :=
  (mkMetricRow [("country", JStr "DE"); ("metric", JStr "trust"); ("year", JNum 2014)] (Some 10),
   [mkMetricRow [("country", JStr "DE"); ("metric", JStr "trust"); ("year", JNum 2019)] None]).

Definition gap_globals : window := mkWindow None (Some gap_table) None.

Definition metric_and_slider (v : Q) : Obj.t state :=
  [("metric_input", mkState "metric" select ["trust"]);
   ("from", mkState "x" (slider (Fin v) (Fin 0) (Fin 100) (Fin 1) None) ["0"])].

Definition scatter_chart : chart :=
  mkChart None
          [plain_series "NL" [PObj (Some 1) (Some 5)];
           plain_series "DE" [PObj (Some 1) (Some 6)]]
          None None None None None None 0.

(** The page after the snapshot capture and one filter application with
    the slider at 0, and then the slider moved to 100. *)
Definition scatter_page : engine :=
  page (metric_and_slider 100)
       (charts (applyAllFilters
                  (storeOriginalData (page (metric_and_slider 0) [scatter_chart] gap_globals))))
       gap_globals.

(** The data stored in the snapshot, chart by chart and series by
    series. *)
Definition stored (e : engine) : list (list (option (list point))) :=
  map (fun c => map (fun s => option_map orig_data (snapshot s)) (chart_series c)) (charts e).

End Sample.

(** ** Sample pages *)

Module Fixtures.

(** A stacked chart with a series for a country the survey has no row
    of. *)
Definition three_country_chart : chart :=
  mkChart (Some "attitudes")
          [Sample.plain_series "DE" []; Sample.plain_series "NL" [];
           Sample.plain_series "ES" [PNum 9]]
          None None None None None None 0.

Definition survey_info : crossTabInfo :=
  mkCrossTabInfo (Some Sample.survey) (Some Sample.percent_config).

(** A native select, a labelled slider and the slider's display, before
    the initialisation. *)
Definition country_select : node :=
  mkNode "country" ["dashboardr-input"] (Some "select") (Some "country") None None None None ""
         (mkElement "SELECT" [("DE", true); ("NL", false)] false "DE" "" "" None "").

Definition year_slider : node :=
  mkNode "year_slider" ["dashboardr-input"] (Some "slider") (Some "year") None None None
         (Some [JStr "2014"; JStr "2019"; JStr "2021"]) "1"
         (mkElement "INPUT" [] false "0" "0" "2" None "").

Definition year_display : node :=
  mkNode "year_slider_value" [] None None None None None None ""
         (mkElement "SPAN" [] false "" "" "" None "").

Definition fresh_page : page :=
  mkPage [country_select; year_slider; year_display] Obj.empty Obj.empty [].

Definition loaded_page : page := initDashboardrInputs false (fun _ => false) fresh_page.

Definition loaded : engine := engine_of loaded_page [Sample.years_chart] Sample.no_globals.

(** The user picks "NL", moves the slider to its last step and opens a
    tab. *)
Definition session : list event :=
  [ SelectChanged "country"
      (mkElement "SELECT" [("DE", false); ("NL", true)] false "NL" "" "" None "");
    SliderMoved "year_slider" (Some [JStr "2014"; JStr "2019"; JStr "2021"]) (Fin 0) (Fin 1)
      (mkElement "INPUT" [] false "2" "0" "2" None "");
    TabClicked ].

(** A slider on the filter variable [x], at a given value, and the
    scatter chart captured and filtered once with the slider at 0. *)
Definition x_slider (v : Q) : Obj.t state :=
  [("from", mkState "x" (slider (Fin v) (Fin 0) (Fin 100) (Fin 1) None)
                    [String_of_number (Fin v)])].

Definition scatter_loaded : engine :=
  applyAllFilters
    (storeOriginalData (Sample.page (x_slider 0) [Sample.scatter_chart] Sample.no_globals)).

(** The user moves the slider of a page to [v]. *)
Definition slide (v : Q) (e : engine) : engine :=
  mkEngine (x_slider v) (defaultValues e) (choicesInstances e) (document e)
           (charts e) (globals e).

End Fixtures.

(* ================================================================== *)
(** * Properties *)
(* ================================================================== *)

(** ** The primitives on examples *)

Example String_of_numbers :
  String (JNum 2018) = "2018" /\ String (JNum (-3)) = "-3" /\
  String_of_number (Fin (5 # 2)) = "2.5" /\ String_of_number (Fin (-7)) = "-7".
Proof. repeat split. Qed.

Example parseFloat_examples :
  parseFloat (JStr "2019") = Fin (inject_Z 2019) /\
  ge (parseFloat (JStr " 2019.5 approx")) (Fin (4039 # 2)) = true /\
  le (parseFloat (JStr " 2019.5 approx")) (Fin (4039 # 2)) = true /\
  ge (parseFloat (JStr "1e3")) (Fin 1000) = true /\
  parseFloat (JStr "Total") = NaN /\
  parseFloat (JStr "-Infinity") = Inf true.
Proof. repeat split. Qed.

Example string_examples :
  trim "  All years " = "All years" /\ toLowerCase "Tous" = "tous" /\
  includes "Pre-COVID (2015-2019)" "2015-2019" = true /\
  includes "2015-2020" "2015-2019" = false.
Proof. repeat split. Qed.

Example round_examples :
  round (5 # 2) = 3%Z /\ round (-5 # 2) = (-2)%Z /\ round (12 # 5) = 2%Z.
Proof. repeat split. Qed.

(** Array-index keys come first, ascending; the others keep the order in
    which they were added. *)
Example object_key_order :
  Obj.keys (Obj.set "10" 1 (Obj.set "b" 2 (Obj.set "9" 3 (Obj.set "a" 4 Obj.empty))))
  = ["9"; "10"; "a"; "b"] /\
  Obj.keys (Obj.set "a" 5 (Obj.set "b" 2 (Obj.set "a" 4 Obj.empty))) = ["a"; "b"].
Proof. repeat split. Qed.

(** ** Lists and indices *)

Lemma categories_at_filter_seq (q : jsval -> bool) (pre cats : list jsval) :
  categories_at (pre ++ cats)
    (filter (fun idx => match nth_error (pre ++ cats) idx with
                        | Some c => q c
                        | None => true
                        end)
            (seq (List.length pre) (List.length cats)))
  = filter q cats.
Proof.
  revert pre. induction cats as [|c cats IH]; intros pre; [reflexivity|].
  cbn [List.length seq filter].
  assert (Hc : nth_error (pre ++ c :: cats) (List.length pre) = Some c).
  { rewrite nth_error_app2 by lia. now rewrite Nat.sub_diag. }
  rewrite Hc.
  specialize (IH (pre ++ [c])).
  rewrite <- app_assoc, length_app in IH. cbn [List.length app] in IH.
  rewrite Nat.add_1_r in IH.
  destruct (q c).
  - unfold categories_at in *. cbn [flat_map]. rewrite Hc. cbn [app].
    now rewrite IH.
  - exact IH.
Qed.

Lemma categories_at_filter (q : jsval -> bool) (cats : list jsval) :
  categories_at cats
    (filter (fun idx => match nth_error cats idx with
                        | Some c => q c
                        | None => true
                        end)
            (seq 0 (List.length cats)))
  = filter q cats.
Proof. exact (categories_at_filter_seq q [] cats). Qed.

Lemma filter_true {A : Type} (l : list A) : filter (fun _ => true) l = l.
Proof. induction l; cbn; congruence. Qed.

Lemma categories_at_all (cats : list jsval) :
  categories_at cats (seq 0 (List.length cats)) = cats.
Proof.
  rewrite <- (filter_true (seq 0 (List.length cats))).
  rewrite (filter_ext _ (fun idx => match nth_error cats idx with
                                    | Some c => (fun _ => true) c
                                    | None => true
                                    end)).
  - rewrite categories_at_filter. apply filter_true.
  - intros idx. now destruct (nth_error cats idx).
Qed.

Lemma categories_at_from_seq (k : nat) (pre cats : list jsval) :
  categories_at (pre ++ cats)
    (filter (fun idx => Nat.leb (List.length pre + k) idx)
            (seq (List.length pre) (List.length cats)))
  = skipn k cats.
Proof.
  revert pre k. induction cats as [|c cats IH]; intros pre k.
  - now destruct k.
  - cbn [List.length seq filter].
    specialize (IH (pre ++ [c])).
    rewrite <- app_assoc, length_app in IH. cbn [List.length app] in IH.
    rewrite Nat.add_1_r in IH.
    destruct k as [|k].
    + rewrite Nat.add_0_r, Nat.leb_refl.
      unfold categories_at in *. cbn [flat_map].
      rewrite nth_error_app2 by lia. rewrite Nat.sub_diag. cbn [nth_error app skipn].
      f_equal. specialize (IH 0%nat). cbn [skipn] in IH.
      rewrite <- IH at 2. f_equal. apply filter_ext_in.
      intros idx Hin. apply in_seq in Hin.
      rewrite !(proj2 (Nat.leb_le _ _)) by lia. reflexivity.
    + destruct (Nat.leb_spec (List.length pre + S k) (List.length pre)); [lia|].
      cbn [skipn]. rewrite <- (IH k). f_equal. apply filter_ext.
      intros idx. now rewrite Nat.add_succ_r.
Qed.

Lemma categories_at_from (k : nat) (cats : list jsval) :
  categories_at cats (filter (fun idx => Nat.leb k idx) (seq 0 (List.length cats)))
  = skipn k cats.
Proof. exact (categories_at_from_seq k [] cats). Qed.

(** ** Strings *)

Lemma prefix_nonempty_of_empty (needle : string) :
  String.prefix needle "" = true -> needle = "".
Proof. destruct needle; [reflexivity|discriminate]. Qed.

Lemma includes_empty_haystack (needle : string) :
  includes "" needle = true -> needle = "".
Proof.
  cbn. rewrite orb_false_r. apply prefix_nonempty_of_empty.
Qed.

Lemma includes_nonempty (haystack needle : string) :
  includes haystack needle = true -> needle <> "" -> nonempty_string haystack = true.
Proof.
  intros H Hn. destruct haystack; [|reflexivity].
  now apply includes_empty_haystack in H.
Qed.

(** ** Objects *)

Lemma Obj_set_empty {V : Type} (k : string) (v : V) : Obj.set k v Obj.empty = [(k, v)].
Proof.
  unfold Obj.set, Obj.has, Obj.empty. cbn.
  now destruct (Obj.array_index k).
Qed.

(** ** The period presets *)

Lemma period_keeps_range (pv : string) (catNum : jsnumber) :
  includes pv "2015-2019" = true ->
  period_keeps pv catNum = isNaN catNum || (ge catNum (Fin 2015) && le catNum (Fin 2019)).
Proof.
  intros H. unfold period_keeps. rewrite H, orb_true_r. now destruct (isNaN catNum).
Qed.

Lemma period_keeps_from (pv : string) (catNum : jsnumber) :
  includes pv "Pre-COVID" = false -> includes pv "2015-2019" = false ->
  includes pv "2020" = true ->
  period_keeps pv catNum = isNaN catNum || ge catNum (Fin 2020).
Proof.
  intros H1 H2 H3. unfold period_keeps. rewrite H1, H2, H3, orb_true_r.
  now destruct (isNaN catNum).
Qed.

Lemma collect_period (i : string) (k : inputType) (sel : list string) :
  discrete k = true ->
  collect [(i, mkState "period" k sel)]
  = mkFilterSets Obj.empty Obj.empty Obj.empty Obj.empty Obj.empty [("period", sel)].
Proof. destruct k; try discriminate; reflexivity. Qed.

Lemma surviving_period (i : string) (k : inputType) (sel : list string) (cats : list jsval) :
  discrete k = true ->
  surviving cats [(i, mkState "period" k sel)]
  = categories_at cats (apply_period cats sel (seq 0 (List.length cats))).
Proof.
  intros Hk. unfold surviving, visibleCategoryIndices. now rewrite (collect_period i k sel Hk).
Qed.

Lemma surviving_period_keeps (i : string) (k : inputType) (pv : string)
    (rest : list string) (cats : list jsval) :
  discrete k = true -> nonempty_string pv = true -> includes pv "All" = false ->
  surviving cats [(i, mkState "period" k (pv :: rest))]
  = filter (fun c => period_keeps pv (parseFloat c)) cats.
Proof.
  intros Hk Hne Hall. rewrite (surviving_period i k _ cats Hk).
  unfold apply_period. rewrite Hne, Hall. cbn [negb andb].
  rewrite <- categories_at_filter. f_equal. apply filter_ext.
  intros idx. unfold parseFloat_at. now destruct (nth_error cats idx).
Qed.

(** C5, as amended. A control that selects values and is bound to the
    filter variable [period] acts through its first selected value:
    - a value containing "All" leaves the categories as they are;
    - a value containing "2015-2019" and not "All" leaves exactly
      [2015; 2016] of [2014; 2015; 2016; 2020; 2021];
    - a value containing "2020", and none of "All", "Pre-COVID" and
      "2015-2019", keeps exactly the categories whose number is at least
      2020 together with the categories that are not numeric. *)
Theorem period_presets (i : string) (k : inputType) (periodValue : string)
    (rest : list string) :
  discrete k = true ->
  let registry := [(i, mkState "period" k (periodValue :: rest))] in
  (includes periodValue "All" = true ->
   forall cats, surviving cats registry = cats) /\
  (includes periodValue "All" = false -> includes periodValue "2015-2019" = true ->
   surviving (map JNum [2014; 2015; 2016; 2020; 2021]%Z) registry
   = map JNum [2015; 2016]%Z) /\
  (includes periodValue "All" = false -> includes periodValue "Pre-COVID" = false ->
   includes periodValue "2015-2019" = false -> includes periodValue "2020" = true ->
   forall cats, surviving cats registry = filter (at_least (Fin 2020)) cats).
Proof.
  intros Hk registry. subst registry. repeat split.
  - intros Hall cats. rewrite (surviving_period i k _ cats Hk).
    unfold apply_period. rewrite Hall, andb_false_r. apply categories_at_all.
  - intros Hall Hrange.
    rewrite (surviving_period_keeps i k periodValue rest _ Hk); trivial.
    + rewrite (filter_ext _ _ (fun c => period_keeps_range periodValue (parseFloat c) Hrange)).
      reflexivity.
    + apply (includes_nonempty _ _ Hrange). discriminate.
  - intros Hall Hpre Hrange Hfrom cats.
    rewrite (surviving_period_keeps i k periodValue rest _ Hk); trivial.
    + apply filter_ext. intros c. now apply period_keeps_from.
    + apply (includes_nonempty _ _ Hfrom). discriminate.
Qed.

Lemma period_presets_witness :
  (forall cats, surviving cats [("period", mkState "period" radio ["All years"])] = cats) /\
  surviving (map JNum [2014; 2015; 2016; 2020; 2021]%Z)
            [("period", mkState "period" radio ["2015-2019"])]
  = map JNum [2015; 2016]%Z /\
  (forall cats, surviving cats [("period", mkState "period" radio ["2020"])]
                = filter (at_least (Fin 2020)) cats).
Proof.
  split; [|split].
  - apply (period_presets "period" radio "All years" []); reflexivity.
  - apply (period_presets "period" radio "2015-2019" []); reflexivity.
  - apply (period_presets "period" radio "2020" []); reflexivity.
Defined.

(** C5 as stated fails at three inputs: a value that contains both "All"
    and "2015-2019" filters nothing; a value that contains both
    "2015-2019" and "2020" keeps the range 2015 to 2019, not the years
    from 2020; and a category that is not numeric survives the preset
    "2020" although it has no number at or above 2020. *)
Lemma period_presets_counterexample :
  let years := map JNum [2014; 2015; 2016; 2020; 2021]%Z in
  let preset v := [("period", mkState "period" radio [v])] in
  (includes "All (2015-2019)" "2015-2019" = true /\
   surviving years (preset "All (2015-2019)") = years /\
   years <> map JNum [2015; 2016]%Z) /\
  (includes "2015-2019 vs 2020" "2020" = true /\
   surviving years (preset "2015-2019 vs 2020") = map JNum [2015; 2016]%Z /\
   map JNum [2015; 2016]%Z <> filter (fun c => ge (parseFloat c) (Fin 2020)) years) /\
  (includes "2020" "2020" = true /\
   surviving [JStr "2019"; JStr "2020"; JStr "Total"] (preset "2020")
   = [JStr "2020"; JStr "Total"] /\
   [JStr "2020"; JStr "Total"]
   <> filter (fun c => ge (parseFloat c) (Fin 2020)) [JStr "2019"; JStr "2020"; JStr "Total"]).
Proof. repeat split; discriminate. Qed.

(** ** The slider *)

Lemma collect_slider (i fv : string) (v mn mx stp : jsnumber)
    (labels : option (list jsval)) (sel : list string) :
  collect [(i, mkState fv (slider v mn mx stp labels) sel)]
  = mkFilterSets Obj.empty [(fv, slider_info v mn mx stp labels)]
                 Obj.empty Obj.empty Obj.empty Obj.empty.
Proof. unfold collect. cbn -[Obj.set]. now rewrite Obj_set_empty. Qed.

Lemma surviving_slider (i fv : string) (v mn mx stp : jsnumber)
    (labels : option (list jsval)) (sel : list string) (cats : list jsval) :
  surviving cats [(i, mkState fv (slider v mn mx stp labels) sel)]
  = categories_at cats
      (apply_slider cats (slider_info v mn mx stp labels) (seq 0 (List.length cats))).
Proof. unfold surviving, visibleCategoryIndices. now rewrite collect_slider. Qed.

(** Keep-from-index: a slider alone, whose current label is truthy and
    first occurs among the original categories at position [k], leaves
    exactly the categories from position [k] on. *)
Lemma slider_keeps_from_label (i fv : string) (v mn mx stp : jsnumber)
    (labels : list jsval) (sel : list string) (cats : list jsval)
    (label : jsval) (k : nat) :
  startLabel (slider_info v mn mx stp (Some labels)) = Some label ->
  truthy label = true ->
  findIndex (fun cat => String.eqb (String cat) (String label)) cats = Some k ->
  surviving cats [(i, mkState fv (slider v mn mx stp (Some labels)) sel)] = skipn k cats.
Proof.
  intros Hlabel Htruthy Hfind. rewrite surviving_slider. unfold apply_slider.
  assert (Hhas : has_labels (slider_info v mn mx stp (Some labels)) = true).
  { unfold startLabel in Hlabel. cbn in Hlabel |- *.
    destruct labels; [|reflexivity].
    destruct (labelIdx _) as [z|]; [|discriminate].
    unfold at_index in Hlabel. destruct (z <? 0)%Z; [discriminate|].
    now destruct (Z.to_nat z). }
  rewrite Hhas, Hlabel, Htruthy, Hfind. apply categories_at_from.
Qed.

(** A slider without labels, alone, keeps exactly the categories whose
    number is at least the slider's value, and those that are not
    numeric. *)
Lemma slider_without_labels (i fv : string) (v mn mx stp : jsnumber)
    (labels : option (list jsval)) (sel : list string) (cats : list jsval) :
  labels = None \/ labels = Some [] ->
  surviving cats [(i, mkState fv (slider v mn mx stp labels) sel)]
  = filter (at_least v) cats.
Proof.
  intros Hl. rewrite surviving_slider. unfold apply_slider.
  assert (Hhas : has_labels (slider_info v mn mx stp labels) = false)
    by (destruct Hl; subst; reflexivity).
  rewrite Hhas. rewrite <- categories_at_filter. f_equal. apply filter_ext.
  intros idx. unfold parseFloat_at, at_least. cbn [s_value slider_info].
  destruct (nth_error cats idx) as [c|]; [|reflexivity].
  now destruct (isNaN (parseFloat c)).
Qed.

(** The example of the specification: categories 2015 to 2021, labels
    "2015", "2018", "2021", the slider on the second label. *)
Example slider_example :
  surviving (map JNum [2015; 2016; 2017; 2018; 2019; 2020; 2021]%Z)
            [("year_slider",
              mkState "year" (slider (Fin 1) (Fin 0) (Fin 2) (Fin 1)
                                     (Some [JStr "2015"; JStr "2018"; JStr "2021"])) ["1"])]
  = map JNum [2018; 2019; 2020; 2021]%Z.
Proof. reflexivity. Qed.

(** C6 at the failing input. The labels are the numbers -1, 0, 1, the
    categories are the same three values, and the slider stands on the
    label 0, which occurs among the categories at position 1. The guard
    [if (startLabel)] takes the label 0 for no label: every category
    survives, where keep-from-index leaves [0; 1]. The display of the
    same slider, which tests the index against the number of labels,
    does show the label "0". *)
Theorem slider_label_zero_keeps_everything :
  let cats := map JNum [-1; 0; 1]%Z in
  let labels := Some (map JNum [-1; 0; 1]%Z) in
  let info := slider_info (Fin 0) (Fin (-1)) (Fin 1) (Fin 1) labels in
  startLabel info = Some (JNum 0) /\
  findIndex (fun cat => String.eqb (String cat) (String (JNum 0))) cats = Some 1%nat /\
  surviving cats
    [("score_slider", mkState "score" (slider (Fin 0) (Fin (-1)) (Fin 1) (Fin 1) labels) ["0"])]
  = cats /\
  cats <> skipn 1 cats /\
  slider_display labels (Fin 0) (Fin (-1)) (Fin 1) = "0".
Proof. repeat split; discriminate. Qed.

(** ** Reading an object after a write *)

Lemma get_replace_eq {V : Type} (k : string) (v : V) (o : Obj.t V) :
  Obj.has k o = true -> Obj.get k (Obj.replace k v o) = Some v.
Proof.
  unfold Obj.has. induction o as [|[k' v'] o IH]; cbn; [discriminate|].
  destruct (String.eqb_spec k' k) as [->|Hne]; cbn.
  - now rewrite String.eqb_refl.
  - intros H. apply String.eqb_neq in Hne. now rewrite Hne, IH.
Qed.

Lemma get_replace_neq {V : Type} (k k' : string) (v : V) (o : Obj.t V) :
  k' <> k -> Obj.get k' (Obj.replace k v o) = Obj.get k' o.
Proof.
  intros Hne. induction o as [|[k0 v0] o IH]; cbn; [reflexivity|].
  destruct (String.eqb_spec k0 k) as [->|Hk]; cbn.
  - apply not_eq_sym, String.eqb_neq in Hne. now rewrite Hne.
  - now rewrite IH.
Qed.

Lemma get_add_index_eq {V : Type} (n : Z) (k : string) (v : V) (o : Obj.t V) :
  Obj.get k o = None -> Obj.get k (Obj.add_index n k v o) = Some v.
Proof.
  induction o as [|[k' v'] o IH]; cbn.
  - now rewrite String.eqb_refl.
  - destruct (String.eqb_spec k' k) as [->|Hne]; [discriminate|]. intros H.
    apply String.eqb_neq in Hne.
    destruct (Obj.array_index k') as [m|]; [destruct (m <? n)%Z|]; cbn;
      rewrite ?String.eqb_refl, ?Hne; auto.
Qed.

Lemma get_add_index_neq {V : Type} (n : Z) (k k' : string) (v : V) (o : Obj.t V) :
  k' <> k -> Obj.get k' (Obj.add_index n k v o) = Obj.get k' o.
Proof.
  intros Hne. apply not_eq_sym, String.eqb_neq in Hne.
  induction o as [|[k0 v0] o IH]; cbn.
  - now rewrite Hne.
  - destruct (Obj.array_index k0) as [m|]; [destruct (m <? n)%Z|]; cbn;
      rewrite ?Hne, ?IH; reflexivity.
Qed.

Lemma get_app {V : Type} (k : string) (o1 o2 : Obj.t V) :
  Obj.get k (o1 ++ o2)
  = match Obj.get k o1 with Some v => Some v | None => Obj.get k o2 end.
Proof.
  induction o1 as [|[k' v'] o1 IH]; cbn; [reflexivity|].
  now destruct (String.eqb k' k).
Qed.

Lemma get_set_eq {V : Type} (k : string) (v : V) (o : Obj.t V) :
  Obj.get k (Obj.set k v o) = Some v.
Proof.
  unfold Obj.set. destruct (Obj.has k o) eqn:Hhas.
  - now apply get_replace_eq.
  - assert (Hnone : Obj.get k o = None).
    { unfold Obj.has in Hhas. now destruct (Obj.get k o). }
    destruct (Obj.array_index k).
    + now apply get_add_index_eq.
    + rewrite get_app, Hnone. cbn. now rewrite String.eqb_refl.
Qed.

Lemma get_set_neq {V : Type} (k k' : string) (v : V) (o : Obj.t V) :
  k' <> k -> Obj.get k' (Obj.set k v o) = Obj.get k' o.
Proof.
  intros Hne. unfold Obj.set. destruct (Obj.has k o).
  - now apply get_replace_neq.
  - destruct (Obj.array_index k).
    + now apply get_add_index_neq.
    + rewrite get_app. cbn. apply not_eq_sym, String.eqb_neq in Hne. rewrite Hne.
      now destruct (Obj.get k' o).
Qed.

Lemma get_remove_eq {V : Type} (k : string) (o : Obj.t V) :
  Obj.get k (Obj.remove k o) = None.
Proof.
  unfold Obj.remove. induction o as [|[k' v'] o IH]; cbn; [reflexivity|].
  destruct (String.eqb k' k) eqn:E; cbn; [assumption|]. now rewrite E.
Qed.

Lemma get_remove_neq {V : Type} (k k' : string) (o : Obj.t V) :
  k' <> k -> Obj.get k' (Obj.remove k o) = Obj.get k' o.
Proof.
  intros Hne. unfold Obj.remove. induction o as [|[k0 v0] o IH]; cbn; [reflexivity|].
  destruct (String.eqb_spec k0 k) as [->|Hk]; cbn.
  - apply not_eq_sym, String.eqb_neq in Hne. now rewrite Hne.
  - now rewrite IH.
Qed.

Lemma fold_left_ext_in {A B : Type} (f g : A -> B -> A) (l : list B) (a : A) :
  (forall a b, In b l -> f a b = g a b) -> fold_left f l a = fold_left g l a.
Proof.
  revert a. induction l as [|b l IH]; intros a H; cbn; [reflexivity|].
  rewrite H by now left. apply IH. intros a' b' Hin. apply H. now right.
Qed.

(** ** The "All" option of the cross-tab rebuild *)

Lemma filter_on_all (flt : Obj.t (list string)) (fv : string) (sel : list string)
    (rows : list row) (fv' : string) :
  Obj.get fv flt = Some sel -> hasAllOption sel = true ->
  filter_on flt rows fv' = filter_on (Obj.remove fv flt) rows fv'.
Proof.
  intros Hget Hall. unfold filter_on.
  destruct (String.eqb_spec fv' fv) as [->|Hne].
  - rewrite Hget, get_remove_eq. destruct sel; [discriminate|]. now rewrite Hall.
  - now rewrite get_remove_neq.
Qed.

(** C8. A filter variable whose selection holds an "All" label (any
    case, any of the listed languages) is not filtered on: the rebuild
    gives the chart it gives when the variable has no selection. *)
Theorem crossTab_all_disables_filter (c : chart) (info : crossTabInfo)
    (flt : Obj.t (list string)) (fv : string) (sel : list string) :
  Obj.get fv flt = Some sel ->
  hasAllOption sel = true ->
  rebuildFromCrossTab c info flt = rebuildFromCrossTab c info (Obj.remove fv flt).
Proof.
  intros Hget Hall. unfold rebuildFromCrossTab.
  destruct (ct_data info) as [rows|]; [|reflexivity].
  destruct (ct_config info) as [cfg|]; [|reflexivity].
  assert (Hrows : filter_rows (filterVars cfg) flt rows
                  = filter_rows (filterVars cfg) (Obj.remove fv flt) rows).
  { unfold filter_rows. apply fold_left_ext_in. intros a b _.
    now apply (filter_on_all flt fv sel). }
  now rewrite Hrows.
Qed.

(** ** The keys of an object after a write *)

Lemma get_In {V : Type} (k : string) (v : V) (o : Obj.t V) :
  Obj.get k o = Some v -> In (k, v) o.
Proof.
  induction o as [|[k' v'] o IH]; cbn; [discriminate|].
  destruct (String.eqb_spec k' k) as [->|Hne].
  - intros [= ->]. now left.
  - intros H. right. now apply IH.
Qed.

Lemma get_None_keys {V : Type} (k : string) (o : Obj.t V) :
  Obj.get k o = None <-> ~ In k (Obj.keys o).
Proof.
  unfold Obj.keys. induction o as [|[k' v'] o IH]; cbn.
  - tauto.
  - destruct (String.eqb_spec k' k) as [->|Hne].
    + split; [discriminate|]. intros H. exfalso. apply H. now left.
    + rewrite IH. tauto.
Qed.

Lemma In_get {V : Type} (k : string) (v : V) (o : Obj.t V) :
  NoDup (Obj.keys o) -> In (k, v) o -> Obj.get k o = Some v.
Proof.
  unfold Obj.keys. induction o as [|[k' v'] o IH]; cbn; [tauto|].
  intros Hnd [Hin|Hin]; inversion Hnd as [|? ? Hnotin Hnd']; subst.
  - injection Hin as -> ->. now rewrite String.eqb_refl.
  - destruct (String.eqb_spec k' k) as [->|Hne]; [|now apply IH].
    exfalso. apply Hnotin. now apply (in_map fst) in Hin.
Qed.

Lemma keys_replace {V : Type} (k : string) (v : V) (o : Obj.t V) :
  Obj.keys (Obj.replace k v o) = Obj.keys o.
Proof.
  unfold Obj.keys. induction o as [|[k' v'] o IH]; cbn; [reflexivity|].
  destruct (String.eqb k' k); cbn; congruence.
Qed.

Lemma add_index_split {V : Type} (n : Z) (k : string) (v : V) (o : Obj.t V) :
  exists o1 o2, o = o1 ++ o2 /\ Obj.add_index n k v o = o1 ++ (k, v) :: o2.
Proof.
  induction o as [|[k' v'] o (o1 & o2 & Ho & Hadd)]; cbn.
  - now exists [], [].
  - destruct (Obj.array_index k') as [m|]; [destruct (m <? n)%Z|].
    + exists ((k', v') :: o1), o2. cbn. now rewrite Hadd, <- Ho.
    + now exists [], ((k', v') :: o).
    + now exists [], ((k', v') :: o).
Qed.

(** A write to an absent key adds one entry somewhere. *)
Lemma set_split {V : Type} (k : string) (v : V) (o : Obj.t V) :
  Obj.has k o = false ->
  exists o1 o2, o = o1 ++ o2 /\ Obj.set k v o = o1 ++ (k, v) :: o2.
Proof.
  intros Hhas. unfold Obj.set. rewrite Hhas.
  destruct (Obj.array_index k).
  - apply add_index_split.
  - exists o, []. now rewrite app_nil_r.
Qed.

Lemma In_replace {V : Type} (k : string) (v : V) (o : Obj.t V) (e : string * V) :
  In e (Obj.replace k v o) -> e = (k, v) \/ In e o.
Proof.
  induction o as [|[k' v'] o IH]; cbn; [tauto|].
  destruct (String.eqb_spec k' k) as [->|Hne]; cbn; intuition.
Qed.

Lemma In_set {V : Type} (k : string) (v : V) (o : Obj.t V) (e : string * V) :
  In e (Obj.set k v o) -> e = (k, v) \/ In e o.
Proof.
  destruct (Obj.has k o) eqn:Hhas.
  - unfold Obj.set. rewrite Hhas. apply In_replace.
  - destruct (set_split k v o Hhas) as (o1 & o2 & -> & ->).
    rewrite !in_app_iff. cbn. intuition.
Qed.

Lemma NoDup_keys_set {V : Type} (k : string) (v : V) (o : Obj.t V) :
  NoDup (Obj.keys o) -> NoDup (Obj.keys (Obj.set k v o)).
Proof.
  intros Hnd. destruct (Obj.has k o) eqn:Hhas.
  - unfold Obj.set. rewrite Hhas. now rewrite keys_replace.
  - assert (Hnotin : ~ In k (Obj.keys o)).
    { apply get_None_keys. unfold Obj.has in Hhas. now destruct (Obj.get k o). }
    destruct (set_split k v o Hhas) as (o1 & o2 & -> & ->).
    unfold Obj.keys in *. rewrite map_app in *. cbn.
    apply NoDup_Add with (a := k) (l := map fst o1 ++ map fst o2); [|now constructor].
    apply Add_app.
Qed.

Lemma In_keys_set {V : Type} (k k' : string) (v : V) (o : Obj.t V) :
  In k' (Obj.keys (Obj.set k v o)) -> k' = k \/ In k' (Obj.keys o).
Proof.
  unfold Obj.keys. rewrite !in_map_iff. intros ([k0 v0] & <- & Hin).
  apply In_set in Hin. destruct Hin as [[= -> ->]|Hin]; [now left|].
  right. now exists (k0, v0).
Qed.

Lemma crossTab_all_disables_filter_witness :
  rebuildFromCrossTab Sample.stacked_chart
    (mkCrossTabInfo (Some Sample.survey) (Some Sample.percent_config))
    [("gender", ["Tous"])]
  = rebuildFromCrossTab Sample.stacked_chart
      (mkCrossTabInfo (Some Sample.survey) (Some Sample.percent_config))
      (Obj.remove "gender" [("gender", ["Tous"])]).
Proof.
  apply (crossTab_all_disables_filter _ _ _ "gender" ["Tous"]); reflexivity.
Defined.

Example all_labels_any_case :
  hasAllOption ["f"; "ALL"] = true /\ hasAllOption ["すべて"] = true /\
  hasAllOption ["Alle"] = true /\ hasAllOption ["f"; "m"] = false.
Proof. repeat split. Qed.

(** ** Sums of rationals *)

Lemma Qsum_cons (a : Q) (l : list Q) : Qsum (a :: l) = (a + Qsum l)%Q.
Proof. reflexivity. Qed.

Lemma fold_left_Qplus (l : list Q) (a : Q) : fold_left Qplus l a == a + Qsum l.
Proof.
  revert a. induction l as [|b l IH]; intros a.
  - unfold Qsum. cbn [fold_left fold_right]. ring.
  - cbn [fold_left]. rewrite IH, Qsum_cons. ring.
Qed.

Lemma total_of_Qsum (inner : Obj.t Q) : total_of inner == Qsum (Obj.values inner).
Proof. unfold total_of. rewrite fold_left_Qplus. ring. Qed.

Lemma Qsum_map_ext {A : Type} (f g : A -> Q) (l : list A) :
  (forall a, In a l -> f a == g a) -> Qsum (map f l) == Qsum (map g l).
Proof.
  induction l as [|a l IH]; intros H; [reflexivity|].
  cbn [map]. rewrite !Qsum_cons.
  rewrite (H a) by now left. rewrite IH; [reflexivity|].
  intros b Hb. apply H. now right.
Qed.

Lemma Qsum_scale {A : Type} (f : A -> Q) (t : Q) (l : list A) :
  ~ t == 0 ->
  Qsum (map (fun a => f a / t * 100) l) == Qsum (map f l) / t * 100.
Proof.
  intros Ht. induction l as [|a l IH].
  - unfold Qsum. cbn [map fold_right]. field. exact Ht.
  - cbn [map]. rewrite !Qsum_cons, IH. field. exact Ht.
Qed.

(** The value a stack key contributes to a bucket: as [count_at] reads
    it. *)
Lemma Qzero_eq (q : Q) : (if Qzero q then 0 else q) == q.
Proof.
  unfold Qzero. destruct (Qeq_bool q 0) eqn:E; [|reflexivity].
  apply Qeq_bool_iff in E. now rewrite E.
Qed.

Lemma Qsum_single_key (k : string) (v : Q) (g : string -> Q) (l : list string) :
  NoDup l -> In k l -> g k == 0 ->
  Qsum (map (fun s => if String.eqb k s then v else g s) l) == v + Qsum (map g l).
Proof.
  induction l as [|a l IH]; intros Hnd Hin Hg; [destruct Hin|].
  inversion Hnd as [|? ? Hnotin Hnd']; subst. cbn [map]. rewrite !Qsum_cons.
  destruct (String.eqb_spec k a) as [->|Hne].
  - rewrite Hg.
    rewrite (Qsum_map_ext (fun s => if String.eqb a s then v else g s) g).
    + ring.
    + intros b Hb. destruct (String.eqb_spec a b) as [->|_]; [contradiction|reflexivity].
  - destruct Hin as [->|Hin]; [contradiction|].
    rewrite IH by assumption. ring.
Qed.

(** Summing the entries of an object over a duplicate-free list that
    holds all its keys gives the total of its values. *)
Lemma Qsum_over_keys (inner : Obj.t Q) (l : list string) :
  NoDup (Obj.keys inner) -> NoDup l ->
  (forall s, In s (Obj.keys inner) -> In s l) ->
  Qsum (map (fun s => match Obj.get s inner with
                      | Some q => if Qzero q then 0 else q
                      | None => 0
                      end) l)
  == Qsum (Obj.values inner).
Proof.
  unfold Obj.keys, Obj.values.
  induction inner as [|[k v] inner IH]; intros Hk Hl Hsub.
  - cbn [Obj.get map]. clear Hsub. induction l as [|a l IHl]; [reflexivity|].
    inversion Hl; subst. cbn [map]. rewrite Qsum_cons, IHl by assumption.
    unfold Qsum. cbn [fold_right]. ring.
  - cbn [map fst snd] in *. rewrite Qsum_cons.
    inversion Hk as [|? ? Hnotin Hk']; subst.
    rewrite (Qsum_map_ext _ (fun s => if String.eqb k s then v
                                      else match Obj.get s inner with
                                           | Some q => if Qzero q then 0 else q
                                           | None => 0
                                           end)).
    + rewrite Qsum_single_key.
      * rewrite IH; [reflexivity|assumption|assumption|].
        intros s Hs. apply Hsub. now right.
      * assumption.
      * apply Hsub. now left.
      * assert (Hnone : Obj.get k inner = None) by now apply get_None_keys.
        rewrite Hnone. reflexivity.
    + intros s _. cbn [Obj.get]. destruct (String.eqb k s); [apply Qzero_eq|reflexivity].
Qed.

(** ** The aggregation of the cross-tab rebuild *)

Lemma mem_In (s : string) (l : list string) : mem s l = true <-> In s l.
Proof.
  unfold mem. rewrite existsb_exists. split.
  - intros (x & Hin & Heq). apply String.eqb_eq in Heq. now subst.
  - intros Hin. exists s. split; [assumption|apply String.eqb_refl].
Qed.

Lemma dedupe_from_spec (seen l : list string) :
  NoDup (dedupe_from String.eqb seen l) /\
  (forall x, In x (dedupe_from String.eqb seen l) <-> In x l /\ ~ In x seen).
Proof.
  revert seen. induction l as [|a l IH]; intros seen; cbn.
  - split; [constructor|]. tauto.
  - fold (mem a seen). destruct (mem a seen) eqn:Hmem.
    + apply mem_In in Hmem. destruct (IH seen) as [Hnd Hin]. split; [assumption|].
      intros x. rewrite Hin. split; [tauto|]. intros [[->|Hx] Hns]; tauto.
    + assert (Hnot : ~ In a seen).
      { intros Hin. apply mem_In in Hin. congruence. }
      destruct (IH (a :: seen)) as [Hnd Hin]. split.
      * constructor; [|assumption]. rewrite Hin. cbn. tauto.
      * intros x. cbn. rewrite Hin. cbn. split.
        -- intros [->|[Hx Hns]]; tauto.
        -- intros [[->|Hx] Hns]; [now left|].
           destruct (string_dec a x) as [->|Hne]; [now left|]. right. tauto.
Qed.

Lemma dedupe_NoDup (l : list string) : NoDup (dedupe String.eqb l).
Proof. apply dedupe_from_spec. Qed.

Lemma dedupe_In (l : list string) (x : string) : In x (dedupe String.eqb l) <-> In x l.
Proof. unfold dedupe. rewrite (proj2 (dedupe_from_spec [] l)). cbn. tauto. Qed.

Lemma In_values_set {V : Type} (k : string) (v v' : V) (o : Obj.t V) :
  In v' (Obj.values (Obj.set k v o)) -> v' = v \/ In v' (Obj.values o).
Proof.
  unfold Obj.values. rewrite !in_map_iff. intros ([k0 v0] & <- & Hin).
  apply In_set in Hin. destruct Hin as [[= -> ->]|Hin]; [now left|].
  right. now exists (k0, v0).
Qed.

Lemma get_In_values {V : Type} (k : string) (v : V) (o : Obj.t V) :
  Obj.get k o = Some v -> In v (Obj.values o).
Proof. intros H. apply get_In in H. unfold Obj.values. now apply (in_map snd) in H. Qed.

(** Every summed item carries the stack value of one of the rows. *)
Lemma sum_rows_stack_values (xv sv : string) (all rows : list row)
    (acc : Obj.t summedItem) :
  (forall r, In r rows -> In r all) ->
  (forall item, In item (Obj.values acc) ->
                exists r, In r all /\ stackVal item = String_cell r sv) ->
  forall item, In item (Obj.values (fold_left (sum_row xv sv) rows acc)) ->
               exists r, In r all /\ stackVal item = String_cell r sv.
Proof.
  revert acc. induction rows as [|r rows IH]; intros acc Hsub Hacc; [exact Hacc|].
  cbn [fold_left]. apply IH; [intros r' Hr'; apply Hsub; now right|].
  intros item Hin. unfold sum_row in Hin. apply In_values_set in Hin.
  destruct Hin as [->|Hin]; [|now apply Hacc]. cbn [stackVal].
  destruct (Obj.get _ acc) as [it|] eqn:Hget.
  - apply Hacc. now apply get_In_values in Hget.
  - exists r. split; [apply Hsub; now left|reflexivity].
Qed.

Lemma organize_fold (all items : list summedItem) (acc : Obj.t (Obj.t Q)) :
  (forall item, In item items -> In item all) ->
  organized all acc ->
  organized all (fold_left organize_item items acc).
Proof.
  revert acc. induction items as [|item items IH]; intros acc Hsub Hacc; [exact Hacc|].
  cbn [fold_left]. apply IH; [intros it Hit; apply Hsub; now right|].
  destruct Hacc as [Hnd Hinner]. unfold organize_item. split.
  - now apply NoDup_keys_set.
  - intros x inner Hin. apply In_set in Hin. destruct Hin as [[= -> ->]|Hin]; [|exact (Hinner _ _ Hin)].
    assert (Hold : NoDup (Obj.keys match Obj.get (xVal item) acc with
                                   | Some i => i
                                   | None => Obj.empty
                                   end) /\
                   forall s, In s (Obj.keys match Obj.get (xVal item) acc with
                                            | Some i => i
                                            | None => Obj.empty
                                            end) ->
                             exists it, In it all /\ stackVal it = s).
    { destruct (Obj.get (xVal item) acc) as [i|] eqn:Hget.
      - apply get_In in Hget. exact (Hinner _ _ Hget).
      - split; [constructor|]. intros s []. }
    destruct Hold as [Hnd' Hkeys]. split.
    + now apply NoDup_keys_set.
    + intros s Hs. apply In_keys_set in Hs. destruct Hs as [->|Hs]; [|now apply Hkeys].
      exists item. split; [apply Hsub; now left|reflexivity].
Qed.

Lemma organize_organized (summed : Obj.t summedItem) :
  organized (Obj.values summed) (organize summed).
Proof.
  apply organize_fold; [auto|]. split; [constructor|]. intros x inner [].
Qed.

(** The total stored for a bucket is the total of its sums. *)
Lemma get_totals_fold (k : string) (l : Obj.t (Obj.t Q)) (acc : Obj.t Q) :
  NoDup (Obj.keys l) ->
  Obj.get k (fold_left (fun xTotals entry =>
                          Obj.set (fst entry) (total_of (snd entry)) xTotals) l acc)
  = match Obj.get k l with
    | Some inner => Some (total_of inner)
    | None => Obj.get k acc
    end.
Proof.
  revert acc. induction l as [|[k0 i0] l IH]; intros acc Hnd; [reflexivity|].
  unfold Obj.keys in Hnd. cbn [map fst] in Hnd. inversion Hnd as [|? ? Hnotin Hnd']; subst.
  cbn [fold_left fst snd Obj.get]. rewrite (IH _ Hnd').
  destruct (String.eqb_spec k0 k) as [->|Hne].
  - assert (Hnone : Obj.get k l = None) by now apply get_None_keys.
    now rewrite Hnone, get_set_eq.
  - destruct (Obj.get k l); [reflexivity|]. apply get_set_neq. congruence.
Qed.

Lemma get_totals (k : string) (byX : Obj.t (Obj.t Q)) :
  NoDup (Obj.keys byX) ->
  Obj.get k (totals byX) = option_map total_of (Obj.get k byX).
Proof.
  intros Hnd. unfold totals. rewrite (get_totals_fold k byX Obj.empty Hnd).
  now destruct (Obj.get k byX).
Qed.

(** The stack order in use is duplicate-free and holds the stack keys of
    every bucket. *)
Lemma orderedStack_covers (cfg : config) (rows : list row) :
  let summed := sum_rows (xVar cfg) (stackVar cfg) rows in
  stack_order_complete cfg rows ->
  NoDup (map String (orderedStack_of cfg summed)) /\
  forall item, In item (Obj.values summed) ->
               In (stackVal item) (map String (orderedStack_of cfg summed)).
Proof.
  intros summed Hcomplete. unfold orderedStack_of. unfold stack_order_complete in Hcomplete.
  assert (Hdefault :
            NoDup (map String (map JStr (dedupe String.eqb (map stackVal (Obj.values summed))))) /\
            forall item, In item (Obj.values summed) ->
              In (stackVal item)
                 (map String (map JStr (dedupe String.eqb (map stackVal (Obj.values summed)))))).
  { rewrite map_map. cbn [String]. rewrite map_id. split; [apply dedupe_NoDup|].
    intros item Hin. apply dedupe_In. now apply in_map. }
  destruct (stackOrder cfg) as [|s0 order] eqn:Horder; [exact Hdefault|].
  destruct Hcomplete as [Hnil|[Hnd Hall]]; [discriminate|]. split; [exact Hnd|].
  intros item Hin.
  destruct (sum_rows_stack_values (xVar cfg) (stackVar cfg) rows rows Obj.empty) with (item := item)
    as (r & Hr & Hstack); auto.
  - intros it [].
  - rewrite Hstack. now apply Hall.
Qed.

Lemma positive_total_spec (xTotals : Obj.t Q) (x : jsval) (t : Q) :
  positive_total xTotals x = Some t ->
  Obj.get (String x) xTotals = Some t /\ ~ t == 0.
Proof.
  unfold positive_total. destruct (Obj.get (String x) xTotals) as [t'|]; [|discriminate].
  destruct (Qle_bool t' 0) eqn:Hle; [discriminate|]. intros [= ->]. split; [reflexivity|].
  intros Hz. assert (Hle' : Qle_bool t 0 = true) by (apply Qle_bool_iff; rewrite Hz; apply Qle_refl).
  congruence.
Qed.

(** C3, as amended. In percent mode, for every x bucket of the rebuilt
    chart whose total is above 0, the values computed for that bucket,
    one per entry of the stack order in use, add up to 100, provided the
    stack order in use lists every stack value of the filtered rows once:
    the first-seen order always does, a supplied [stackOrder] is taken as
    it is. This holds for all rows and all filter selections. *)
Theorem crossTab_percent_sums_to_100 (cfg : config) (flt : Obj.t (list string))
    (rows : list row) :
  stackedType cfg = "percent" ->
  let filteredData := filter_rows (filterVars cfg) flt rows in
  let summed := sum_rows (xVar cfg) (stackVar cfg) filteredData in
  let byX := organize summed in
  let xTotals := totals byX in
  let orderedX := orderedX_of cfg byX in
  let orderedStack := orderedStack_of cfg summed in
  stack_order_complete cfg filteredData ->
  forall (i : nat) (x : jsval) (t : Q),
    nth_error orderedX i = Some x ->
    positive_total xTotals x = Some t ->
    Qsum (map (fun s => nth i (seriesData_of (String.eqb (stackedType cfg) "percent")
                                             byX xTotals orderedX s) 0)
              orderedStack) == 100.
Proof.
  intros Hpercent filteredData summed byX xTotals orderedX orderedStack Hcomplete i x t Hx Ht.
  rewrite Hpercent. cbn [String.eqb Ascii.eqb Bool.eqb].
  destruct (orderedStack_covers cfg filteredData Hcomplete) as [Hnd Hcover].
  fold summed in Hnd, Hcover. fold orderedStack in Hnd, Hcover.
  destruct (organize_organized summed) as [HndX Hinner]. fold byX in HndX, Hinner.
  destruct (positive_total_spec _ _ _ Ht) as [Hget Hnz].
  unfold xTotals in Hget. rewrite (get_totals _ _ HndX) in Hget.
  destruct (Obj.get (String x) byX) as [inner|] eqn:HbyX; [|discriminate].
  injection Hget as Htotal.
  destruct (Hinner _ _ (get_In _ _ _ HbyX)) as [Hnd_inner Hkeys].
  rewrite (Qsum_map_ext _ (fun s => count_at byX x s / t * 100)).
  2:{ intros s _. unfold seriesData_of.
      rewrite (nth_error_nth _ _ _ (map_nth_error _ _ _ Hx)).
      unfold series_value. now rewrite Ht. }
  rewrite Qsum_scale by exact Hnz.
  assert (Hsum : Qsum (map (count_at byX x) orderedStack) == t).
  { rewrite <- Htotal, total_of_Qsum.
    rewrite <- (Qsum_over_keys inner (map String orderedStack) Hnd_inner Hnd).
    - rewrite map_map. apply Qsum_map_ext. intros s _. unfold count_at. now rewrite HbyX.
    - intros s Hs. destruct (Hkeys s Hs) as (item & Hitem & <-). now apply Hcover. }
  rewrite Hsum. field. exact Hnz.
Qed.

Lemma crossTab_percent_sums_to_100_witness :
  Qsum (map (fun s =>
               nth 0 (seriesData_of true
                        (organize (sum_rows "wave" "country" Sample.survey))
                        (totals (organize (sum_rows "wave" "country" Sample.survey)))
                        [JStr "1"; JStr "2"] s) 0)
            [JStr "DE"; JStr "NL"]) == 100.
Proof.
  exact (crossTab_percent_sums_to_100 Sample.percent_config [] Sample.survey
           eq_refl (or_introl eq_refl) 0%nat (JStr "1") 8 eq_refl eq_refl).
Defined.

(** C3 as stated fails when a stack order is supplied that leaves a
    stack value out: with the order ["DE"] and rows for "DE" and "NL",
    the bucket "1" has total 8, its only emitted value is 37.5, and the
    series "NL" of the chart is not written at all. *)
Lemma crossTab_percent_counterexample :
  let cfg := Sample.partial_order_config in
  let summed := sum_rows (xVar cfg) (stackVar cfg)
                         (filter_rows (filterVars cfg) [] Sample.survey) in
  let byX := organize summed in
  nth_error (orderedX_of cfg byX) 0 = Some (JStr "1") /\
  positive_total (totals byX) (JStr "1") = Some 8 /\
  Qsum (map (fun s => nth 0 (seriesData_of (String.eqb (stackedType cfg) "percent")
                                           byX (totals byX) (orderedX_of cfg byX) s) 0)
            (orderedStack_of cfg summed)) == 75 # 2 /\
  ~ 75 # 2 == 100 /\
  option_map (fun c => map data (chart_series c))
             (rebuildFromCrossTab Sample.stacked_chart
                (mkCrossTabInfo (Some Sample.survey) (Some cfg)) [])
  = Some [[PNum (300 # 8); PNum (200 # 2)]; []].
Proof.
  repeat split.
  intros H. vm_compute in H. discriminate H.
Qed.

(** ** The regular path in closed form *)

Lemma apply_legend_choice (registry : Obj.t state) (c : chart) :
  apply_legend registry c
  = match legend_choice registry with
    | Some v => legend_update v c
    | None => c
    end.
Proof.
  unfold apply_legend, legend_choice.
  change c with (match @None bool with Some v => legend_update v c | None => c end) at 1.
  generalize (@None bool). induction registry as [|[i st] registry IH]; intros acc; [reflexivity|].
  cbn [fold_left snd]. rewrite <- IH. f_equal.
  destruct (kind st); try reflexivity.
  destruct (String.eqb (filterVar st) "show_legend"); [|reflexivity].
  now destruct acc.
Qed.

Lemma apply_chartType_choice (flt : Obj.t (list string)) (c : chart) :
  apply_chartType flt c
  = with_series (map (retype (type_choice flt)) (chart_series c)) c.
Proof.
  unfold apply_chartType, type_choice.
  assert (Hgen : forall acc,
             fold_left
               (fun c entry =>
                  if String.eqb (fst entry) "chart_type" then
                    match snd entry with
                    | chartType :: _ =>
                        if nonempty_string chartType
                        then with_series (map (update_type (typeMap chartType)) (chart_series c)) c
                        else c
                    | [] => c
                    end
                  else c)
               flt (with_series (map (retype acc) (chart_series c)) c)
             = with_series
                 (map (retype
                         (fold_left
                            (fun acc entry =>
                               if String.eqb (fst entry) "chart_type" then
                                 match snd entry with
                                 | chartType :: _ =>
                                     if nonempty_string chartType
                                     then Some (typeMap chartType) else acc
                                 | [] => acc
                                 end
                               else acc)
                            flt acc))
                      (chart_series c)) c).
  { induction flt as [|[k sel] flt IH]; intros acc; [reflexivity|].
    cbn [fold_left fst snd]. rewrite <- IH. f_equal.
    destruct (String.eqb k "chart_type"); [|reflexivity].
    destruct sel as [|chartType sel]; [reflexivity|].
    destruct (nonempty_string chartType); [|reflexivity].
    unfold with_series. cbn. f_equal. rewrite map_map. apply map_ext.
    intros s. now destruct acc. }
  rewrite <- (Hgen None). f_equal. cbn [retype]. rewrite map_id. now destruct c.
Qed.

Lemma originalCategories_capture (c : chart) :
  originalCategories (capture_originalCategories c) = originalCategories c.
Proof.
  unfold capture_originalCategories, originalCategories.
  destruct (_originalCategories c) eqn:E; [now rewrite E|].
  destruct (categories c) eqn:E'; cbn; now rewrite ?E, ?E'.
Qed.

Lemma captured_originalCategories (c : chart) :
  _originalCategories (capture_originalCategories c) = originalCategories c.
Proof.
  unfold capture_originalCategories, originalCategories.
  destruct (_originalCategories c) eqn:E; [assumption|].
  now destruct (categories c).
Qed.

Lemma capture_fields (c : chart) :
  chart_id (capture_originalCategories c) = chart_id c /\
  chart_series (capture_originalCategories c) = chart_series c /\
  categories (capture_originalCategories c) = categories c /\
  legend_enabled (capture_originalCategories c) = legend_enabled c /\
  title (capture_originalCategories c) = title c /\
  subtitle (capture_originalCategories c) = subtitle c /\
  yAxis_title (capture_originalCategories c) = yAxis_title c /\
  redraws (capture_originalCategories c) = redraws c.
Proof.
  unfold capture_originalCategories.
  destruct (_originalCategories c); [|destruct (categories c) eqn:E]; cbn; rewrite ?E; repeat split.
Qed.

Lemma hasNumericXAxis_capture (c : chart) :
  hasNumericXAxis (capture_originalCategories c) = hasNumericXAxis c.
Proof.
  unfold hasNumericXAxis. rewrite originalCategories_capture.
  now rewrite (proj1 (proj2 (capture_fields c))).
Qed.

(** One run of the regular path, as a record. *)
Lemma filter_chart_fields (w : window) (registry : Obj.t state) (fs : filterSets) (c : chart) :
  filter_chart w registry fs c
  = mkChart (chart_id c)
            (map (filter_series w registry fs c) (chart_series c))
            (new_categories fs c)
            (originalCategories c)
            (or_else (legend_choice registry) (legend_enabled c))
            (or_else (option_map (fun m => (m ++ " by Country")%string) (metric_title w (filters fs)))
                     (title c))
            (or_else (option_map (fun _ => "Trends over time") (metric_title w (filters fs)))
                     (subtitle c))
            (or_else (metric_title w (filters fs)) (yAxis_title c))
            (S (redraws c)).
Proof.
  unfold filter_chart. rewrite apply_chartType_choice, apply_legend_choice.
  rewrite originalCategories_capture, hasNumericXAxis_capture.
  destruct (capture_fields c) as (Hid & Hser & Hcat & Hleg & Htitle & Hsub & Hy & Hred).
  pose proof (captured_originalCategories c) as Hcap.
  rewrite Hser.
  unfold new_categories, filter_series, visible_of, remetric, metric_title, apply_metric.
  destruct (capture_originalCategories c) as [cid l cts oc leg ti su yt rd]. cbn in *. subst.
  destruct (legend_choice registry) as [v|];
    destruct (selectedMetric_of w (filters fs)) as [[m allData]|];
    destruct (originalCategories c) as [cs|];
    cbn; rewrite ?map_map;
    try destruct (categories_at cs (visibleCategoryIndices cs fs)); reflexivity.
Qed.

(** ** The two paths of a chart *)

Lemma apply_chart_regular (w : window) (registry : Obj.t state) (fs : filterSets) (c : chart) :
  rebuilt_from_crossTab w c = false ->
  apply_chart w registry fs c = filter_chart w registry fs c.
Proof.
  unfold rebuilt_from_crossTab, apply_chart, rebuildFromCrossTab.
  destruct (crossTab_of w c) as [info|]; [|reflexivity].
  destruct (ct_data info); [|reflexivity].
  destruct (ct_config info); [discriminate|reflexivity].
Qed.

Lemma apply_chart_crossTab (w : window) (registry : Obj.t state) (fs : filterSets) (c : chart) :
  rebuilt_from_crossTab w c = true ->
  exists info rebuilt,
    crossTab_of w c = Some info /\
    rebuildFromCrossTab c info (filters fs) = Some rebuilt /\
    apply_chart w registry fs c = rebuilt.
Proof.
  unfold rebuilt_from_crossTab, apply_chart.
  destruct (crossTab_of w c) as [info|]; [|discriminate].
  intros Hinfo. exists info.
  destruct (rebuildFromCrossTab c info (filters fs)) as [rebuilt|] eqn:Hre.
  - now exists rebuilt.
  - exfalso. unfold rebuildFromCrossTab in Hre.
    destruct (ct_data info); [|discriminate].
    destruct (ct_config info); discriminate.
Qed.

Lemma rebuild_redraws (c rebuilt : chart) (info : crossTabInfo) (flt : Obj.t (list string)) :
  rebuildFromCrossTab c info flt = Some rebuilt -> redraws rebuilt = S (redraws c).
Proof.
  unfold rebuildFromCrossTab. destruct (ct_data info); [|discriminate].
  destruct (ct_config info); [|discriminate]. now intros [= <-].
Qed.

Lemma apply_chart_redraws (w : window) (registry : Obj.t state) (fs : filterSets) (c : chart) :
  redraws (apply_chart w registry fs c) = S (redraws c).
Proof.
  destruct (rebuilt_from_crossTab w c) eqn:Hpath.
  - destruct (apply_chart_crossTab w registry fs c Hpath) as (info & rebuilt & _ & Hre & ->).
    now apply rebuild_redraws in Hre.
  - rewrite (apply_chart_regular _ _ _ _ Hpath), filter_chart_fields. reflexivity.
Qed.

Lemma applyAllFilters_chart (e : engine) (i : nat) (c : chart) :
  nth_error (charts e) i = Some c ->
  nth_error (charts (applyAllFilters e)) i
  = Some (apply_chart (globals e) (inputState e) (collect (inputState e)) c).
Proof.
  intros Hc. unfold applyAllFilters.
  destruct (charts e) as [|c0 l] eqn:Hcharts; [now destruct i|].
  cbn [charts]. now apply map_nth_error.
Qed.

(** C4, as amended. A filter application issues exactly one redraw for
    each chart. For a chart with categories that is not rebuilt from
    cross-tab data, the category labels become the surviving subset when
    that subset is not empty; when no category survives the labels stay
    as they were. *)
Theorem labels_and_one_redraw (e : engine) (i : nat) (c : chart) :
  nth_error (charts e) i = Some c ->
  exists c',
    nth_error (charts (applyAllFilters e)) i = Some c' /\
    redraws c' = S (redraws c) /\
    (rebuilt_from_crossTab (globals e) c = false ->
     forall cats, originalCategories c = Some cats ->
       (surviving cats (inputState e) <> [] ->
        categories c' = Some (surviving cats (inputState e))) /\
       (surviving cats (inputState e) = [] -> categories c' = categories c)).
Proof.
  intros Hc. eexists. split; [exact (applyAllFilters_chart e i c Hc)|].
  split; [apply apply_chart_redraws|].
  intros Hpath cats Hcats. rewrite (apply_chart_regular _ _ _ _ Hpath), filter_chart_fields.
  cbn [categories]. unfold new_categories, surviving. rewrite Hcats.
  destruct (categories_at cats (visibleCategoryIndices cats (collect (inputState e)))).
  - split; [congruence|reflexivity].
  - split; [reflexivity|discriminate].
Qed.

Lemma labels_and_one_redraw_witness :
  exists c',
    nth_error (charts (applyAllFilters
                         (Sample.page (Sample.period_radio "2015-2019")
                                      [Sample.years_chart] Sample.no_globals))) 0
    = Some c' /\
    redraws c' = 1%nat /\
    categories c' = Some [JNum 2019].
Proof.
  destruct (labels_and_one_redraw
              (Sample.page (Sample.period_radio "2015-2019") [Sample.years_chart]
                           Sample.no_globals)
              0 Sample.years_chart eq_refl) as (c' & Hc' & Hredraw & Hlabels).
  exists c'. split; [exact Hc'|]. split; [exact Hredraw|].
  apply (Hlabels eq_refl (map JNum [2014; 2019; 2021]%Z) eq_refl). discriminate.
Defined.

(** C4 as stated fails when no category survives: with the categories
    2014 and 2021 and the preset "2015-2019" the surviving subset is
    empty, and the chart keeps the labels 2014 and 2021. *)
Lemma labels_counterexample :
  let c := mkChart None [Sample.plain_series "DE" [PNum 1; PNum 2]]
                   (Some (map JNum [2014; 2021]%Z)) None None None None None 0 in
  let e := Sample.page (Sample.period_radio "2015-2019") [c] Sample.no_globals in
  surviving (map JNum [2014; 2021]%Z) (inputState e) = [] /\
  map categories (charts (applyAllFilters e)) = [Some (map JNum [2014; 2021]%Z)] /\
  Some (map JNum [2014; 2021]%Z) <> Some (surviving (map JNum [2014; 2021]%Z) (inputState e)).
Proof. repeat split. discriminate. Qed.

(** ** Series names and the switches *)

Lemma name_retype (t : option string) (s : series) : name (retype t s) = name s.
Proof. now destruct t. Qed.

Lemma name_metric_series (allData : metricRow * list metricRow) (timeVar : option string)
    (timeValues : list (option jsval)) (m : string) (s : series) :
  name (metric_series allData timeVar timeValues m s) = name s.
Proof. unfold metric_series. now destruct (countryData_of allData (name s) m). Qed.

Lemma name_remetric (w : window) (flt : Obj.t (list string)) (cats : option (list jsval))
    (s : series) :
  name (remetric w flt cats s) = name s.
Proof.
  unfold remetric. destruct (selectedMetric_of w flt) as [[m allData]|]; [|reflexivity].
  apply name_metric_series.
Qed.

Lemma name_filter_series_data (fs : filterSets) (cats : option (list jsval))
    (visible : list nat) (numeric : bool) (s : series) :
  name (filter_series_data fs cats visible numeric s) = name s.
Proof.
  unfold filter_series_data. destruct (snapshot s), cats, numeric; reflexivity.
Qed.

Lemma name_apply_series (registry : Obj.t state) (fs : filterSets) (seriesNames : list string)
    (cats : option (list jsval)) (visible : list nat) (numeric : bool) (s : series) :
  name (apply_series registry fs seriesNames cats visible numeric s) = name s.
Proof.
  unfold apply_series.
  destruct (mem (name s) (switchHiddenSeries registry)); [reflexivity|].
  destruct (mem (name s) (switchShownSeries registry));
    [now rewrite name_filter_series_data|].
  destruct (showSeries fs seriesNames (name s));
    [now rewrite name_filter_series_data|reflexivity].
Qed.

Lemma name_filter_series (w : window) (registry : Obj.t state) (fs : filterSets)
    (c : chart) (s : series) :
  name (filter_series w registry fs c s) = name s.
Proof.
  unfold filter_series. now rewrite name_apply_series, name_remetric, name_retype.
Qed.

Lemma switch_off_hides (registry : Obj.t state) (i : string) (st : state)
    (ts : string) (ov : bool) :
  In (i, st) registry -> kind st = switch false (Some ts) ov -> ts <> "" ->
  mem ts (switchHiddenSeries registry) = true.
Proof.
  intros Hin Hkind Hts. apply mem_In. unfold switchHiddenSeries. apply in_flat_map.
  exists (i, st). split; [assumption|]. cbn [snd]. rewrite Hkind.
  apply String.eqb_neq in Hts. unfold nonempty_string. rewrite Hts. now left.
Qed.

(** C7, as amended. On a chart that is not rebuilt from cross-tab data,
    a switch that is off and toggles a series name hides every series of
    that name and takes it out of the legend, whatever the other controls
    are. *)
Theorem switch_off_hides_series (e : engine) (i : nat) (c : chart)
    (inputId : string) (st : state) (toggled : string) (ov : bool) :
  nth_error (charts e) i = Some c ->
  rebuilt_from_crossTab (globals e) c = false ->
  In (inputId, st) (inputState e) ->
  kind st = switch false (Some toggled) ov ->
  toggled <> "" ->
  exists c',
    nth_error (charts (applyAllFilters e)) i = Some c' /\
    map name (chart_series c') = map name (chart_series c) /\
    forall s, In s (chart_series c') -> name s = toggled ->
              visible s = false /\ showInLegend s = false.
Proof.
  intros Hc Hpath Hin Hkind Hts. eexists. split; [exact (applyAllFilters_chart e i c Hc)|].
  rewrite (apply_chart_regular _ _ _ _ Hpath), filter_chart_fields. cbn [chart_series].
  split.
  - rewrite map_map. apply map_ext. intros s. apply name_filter_series.
  - intros s' Hs' Hname. apply in_map_iff in Hs'. destruct Hs' as (s & <- & _).
    rewrite name_filter_series in Hname.
    unfold filter_series, apply_series. rewrite name_remetric, name_retype, Hname.
    now rewrite (switch_off_hides _ _ _ _ _ Hin Hkind Hts).
Qed.

Lemma switch_off_hides_series_witness :
  exists c',
    nth_error (charts (applyAllFilters
                         (Sample.page (Sample.switch_off "NL") [Sample.years_chart]
                                      Sample.no_globals))) 0
    = Some c' /\
    map name (chart_series c') = ["DE"; "NL"] /\
    forall s, In s (chart_series c') -> name s = "NL" ->
              visible s = false /\ showInLegend s = false.
Proof.
  apply (switch_off_hides_series
           (Sample.page (Sample.switch_off "NL") [Sample.years_chart] Sample.no_globals)
           0 Sample.years_chart "toggle"
           (mkState "show" (switch false (Some "NL") false) ["false"]) "NL" false).
  - reflexivity.
  - reflexivity.
  - now left.
  - reflexivity.
  - discriminate.
Defined.

(** C7 as stated fails on a chart that is rebuilt from cross-tab data:
    the rebuild does not look at the switches, and the series "NL" stays
    visible and in the legend. *)
Lemma switch_off_counterexample :
  let e := Sample.page (Sample.switch_off "NL") [Sample.stacked_chart]
                       Sample.crossTab_globals in
  map (fun c => map (fun s => (name s, visible s, showInLegend s)) (chart_series c))
      (charts (applyAllFilters e))
  = [[("DE", true, true); ("NL", true, true)]].
Proof. reflexivity. Qed.

(** ** The snapshot *)

Lemma Forall2_map_right {A B : Type} (R : A -> B -> Prop) (f : A -> B) (l : list A) :
  (forall a, R a (f a)) -> Forall2 R l (map f l).
Proof. intros H. induction l; cbn; constructor; auto. Qed.

Lemma Forall2_same {A : Type} (R : A -> A -> Prop) (l : list A) :
  (forall a, R a a) -> Forall2 R l l.
Proof. intros H. induction l; constructor; auto. Qed.

Lemma Forall2_chain {A : Type} (R : A -> A -> Prop) (l1 l2 l3 : list A) :
  (forall a b c, R a b -> R b c -> R a c) ->
  Forall2 R l1 l2 -> Forall2 R l2 l3 -> Forall2 R l1 l3.
Proof.
  intros Htrans H12. revert l3. induction H12; intros l3 H23; inversion H23; subst;
    constructor; eauto.
Qed.

Lemma Forall2_update_at {A : Type} (R : A -> A -> Prop) (f : A -> A) (i : nat) (l : list A) :
  (forall a, R a a) -> (forall a, R a (f a)) -> Forall2 R l (update_at i f l).
Proof.
  intros Hrefl Hf. revert i. induction l as [|a l IH]; intros i; [destruct i; constructor|].
  destruct i; cbn; constructor; auto. now apply Forall2_same.
Qed.











Lemma snapshot_filter_series_data (fs : filterSets) (cats : option (list jsval))
    (visible : list nat) (numeric : bool) (s : series) :
  snapshot (filter_series_data fs cats visible numeric s) = snapshot s.
Proof.
  unfold filter_series_data. destruct (snapshot s) eqn:E, cats, numeric; cbn; now rewrite ?E.
Qed.

Lemma snapshot_apply_series (registry : Obj.t state) (fs : filterSets)
    (seriesNames : list string) (cats : option (list jsval)) (visible : list nat)
    (numeric : bool) (s : series) :
  snapshot (apply_series registry fs seriesNames cats visible numeric s) = snapshot s.
Proof.
  unfold apply_series.
  destruct (mem (name s) (switchHiddenSeries registry)); [reflexivity|].
  destruct (mem (name s) (switchShownSeries registry));
    [now rewrite snapshot_filter_series_data|].
  destruct (showSeries fs seriesNames (name s));
    [now rewrite snapshot_filter_series_data|reflexivity].
Qed.

Lemma snapshot_retype (t : option string) (s : series) : snapshot (retype t s) = snapshot s.
Proof. now destruct t. Qed.

(** After the regular path a series has the snapshot it had, or the one
    metric switching has stored. *)
Lemma snapshot_filter_series (w : window) (registry : Obj.t state) (fs : filterSets)
    (c : chart) (s : series) :
  snapshot (filter_series w registry fs c s)
  = snapshot (remetric w (filters fs) (originalCategories c) s).
Proof.
  unfold filter_series. rewrite snapshot_apply_series.
  unfold remetric. destruct (selectedMetric_of w (filters fs)) as [[m allData]|].
  - unfold metric_series. rewrite name_retype.
    destruct (countryData_of allData (name s) m); [apply snapshot_retype|reflexivity].
  - apply snapshot_retype.
Qed.




(** When metric switching rebuilds a series it stores the rebuilt data
    as the series' snapshot; a series without rows for the metric keeps
    its snapshot. *)
Lemma metric_rebuild_replaces_snapshot (w : window) (registry : Obj.t state)
    (fs : filterSets) (c : chart) (s : series) :
  snapshot (filter_series w registry fs c s) = snapshot s \/
  exists m allData,
    selectedMetric_of w (filters fs) = Some (m, allData) /\
    snapshot (filter_series w registry fs c s)
    = Some (mkOriginal
              (newData_of (countryData_of allData (name s) m) (timeVar_of w allData)
                          (timeValues_of (originalCategories c) (timeVar_of w allData) allData))
              (name s)).
Proof.
  rewrite snapshot_filter_series. unfold remetric.
  destruct (selectedMetric_of w (filters fs)) as [[m allData]|]; [|now left].
  unfold metric_series. destruct (countryData_of allData (name s) m) eqn:E; [now left|].
  right. exists m, allData. split; [reflexivity|]. now rewrite E.
Qed.





(** Resetting the controls touches neither the charts nor the globals. *)
Lemma reset_target_charts (e e1 : engine) (inputId : string) :
  reset_target e inputId = Some e1 ->
  charts e1 = charts e /\ globals e1 = globals e /\
  defaultValues e1 = defaultValues e /\ choicesInstances e1 = choicesInstances e.
Proof.
  unfold reset_target.
  destruct (Obj.get inputId (defaultValues e)) as [d|]; [|now intros [= <-]].
  destruct (Obj.get inputId (inputState e)) as [st|]; [|now intros [= <-]].
  destruct (Obj.get inputId (document e)) as [el|]; [|now intros [= <-]].
  destruct (reset_control _ _ _ _ _ _) as [[st' doc']|]; [|discriminate].
  now intros [= <-].
Qed.

Lemma reset_targets_charts (targets : list string) (e e1 : engine) :
  reset_targets targets e = Some e1 ->
  charts e1 = charts e /\ globals e1 = globals e /\
  defaultValues e1 = defaultValues e /\ choicesInstances e1 = choicesInstances e.
Proof.
  revert e. induction targets as [|inputId targets IH]; intros e; cbn.
  - now intros [= <-].
  - destruct (reset_target e inputId) as [e'|] eqn:Hone; [|discriminate].
    intros Hrest. apply IH in Hrest. apply reset_target_charts in Hone.
    intuition congruence.
Qed.











(** ** Reset *)

Lemma reset_control_pieces (inputId : string) (hasChoices : bool) (d : default)
    (st : state) (el : element) (doc : Obj.t element) :
  reset_control inputId hasChoices d st el doc
  = match state_reset st d with
    | Some st' =>
        Some (st', write_display inputId (display_reset st d)
                     (Obj.replace inputId (element_reset hasChoices st d el) doc))
    | None => None
    end.
Proof.
  unfold reset_control, state_reset, element_reset, display_reset, write_display,
    updateSliderDisplay.
  destruct (kind st), d; reflexivity.
Qed.

Lemma state_reset_settles (st st' : state) (d : default) :
  state_reset st d = Some st' ->
  state_reset st' d = Some st' /\
  display_reset st' d = display_reset st d /\
  forall hasChoices el, element_reset hasChoices st' d el = element_reset hasChoices st d el.
Proof.
  unfold state_reset, display_reset, element_reset.
  destruct (kind st), d; try discriminate; intros [= <-]; cbn; repeat split.
Qed.

(** Resetting an element twice is resetting it once. *)
Lemma element_reset_twice (hasChoices : bool) (st : state) (d : default) (el : element) :
  element_reset hasChoices st d (element_reset hasChoices st d el)
  = element_reset hasChoices st d el.
Proof.
  unfold element_reset.
  destruct (kind st), d; try reflexivity;
    try (destruct el; unfold with_options, mark; cbn; now rewrite map_map).
  unfold reset_select_element. destruct hasChoices.
  - destruct selected0; now destruct el.
  - destruct el as [tag opts chk v mn mx pct txt]. cbn [tagName].
    destruct (String.eqb tag "SELECT") eqn:E; cbn [tagName]; rewrite ?E; [|reflexivity].
    unfold with_select_options, with_value, with_options.
    cbn [tagName options checked el_value el_min el_max slider_percent textContent].
    rewrite E.
    assert (Hmark : mark selected0 (mark selected0 opts) = mark selected0 opts)
      by (unfold mark; now rewrite map_map).
    cbn [tagName options checked el_value el_min el_max slider_percent textContent].
    now rewrite Hmark.
Qed.

(** A reset leaves the text content of the element alone. *)
Lemma element_reset_textContent (hasChoices : bool) (st : state) (d : default)
    (t : string) (el : element) :
  element_reset hasChoices st d (with_textContent t el)
  = with_textContent t (element_reset hasChoices st d el) /\
  textContent (element_reset hasChoices st d el) = textContent el.
Proof.
  unfold element_reset.
  destruct (kind st), d; try (destruct el; split; reflexivity).
  unfold reset_select_element. destruct el as [tag opts chk v mn mx pct txt].
  destruct hasChoices; [destruct selected0; split; reflexivity|].
  cbn [tagName with_textContent]. destruct (String.eqb tag "SELECT"); split; reflexivity.
Qed.

Lemma length_append (a b : string) :
  String.length (a ++ b) = (String.length a + String.length b)%nat.
Proof. induction a; cbn; congruence. Qed.

Lemma display_id_fresh (a : string) : (a ++ "_value")%string <> a.
Proof.
  intros H. apply (f_equal String.length) in H. rewrite length_append in H. cbn in H. lia.
Qed.

Lemma display_id_inj (a b : string) : (a ++ "_value")%string = (b ++ "_value")%string -> a = b.
Proof.
  revert b. induction a as [|c a IH]; intros [|c' b] H.
  - reflexivity.
  - apply (f_equal String.length) in H. cbn in H. rewrite length_append in H. cbn in H. lia.
  - apply (f_equal String.length) in H. cbn in H. rewrite length_append in H. cbn in H. lia.
  - cbn in H. injection H as -> H. f_equal. now apply IH.
Qed.

Lemma replace_same {V : Type} (k : string) (v : V) (o : Obj.t V) :
  Obj.get k o = Some v -> Obj.replace k v o = o.
Proof.
  induction o as [|[k' v'] o IH]; cbn; [reflexivity|].
  destruct (String.eqb k' k).
  - now intros [= ->].
  - intros H. now rewrite IH.
Qed.

Lemma get_replace_same_key {V : Type} (k : string) (v : V) (o : Obj.t V) :
  Obj.get k (Obj.replace k v o) = option_map (fun _ => v) (Obj.get k o).
Proof.
  destruct (Obj.get k o) eqn:E.
  - cbn. apply get_replace_eq. unfold Obj.has. now rewrite E.
  - cbn. induction o as [|[k' v'] o IH]; cbn in *; [reflexivity|].
    destruct (String.eqb k' k) eqn:Hk; [discriminate|]. cbn. rewrite Hk. now apply IH.
Qed.

Lemma get_write_display_neq (b k : string) (t : option string) (doc : Obj.t element) :
  k <> (b ++ "_value")%string ->
  Obj.get k (write_display b t doc) = Obj.get k doc.
Proof.
  intros Hne. unfold write_display. destruct t as [t|]; [|reflexivity].
  destruct (Obj.get (b ++ "_value") doc); [|reflexivity]. now apply get_replace_neq.
Qed.

Lemma get_write_display_eq (b : string) (t : string) (doc : Obj.t element) :
  Obj.get (b ++ "_value")%string (write_display b (Some t) doc)
  = option_map (with_textContent t) (Obj.get (b ++ "_value")%string doc).
Proof.
  unfold write_display. destruct (Obj.get (b ++ "_value") doc) as [vd|] eqn:E.
  - rewrite get_replace_same_key, E. reflexivity.
  - now rewrite E.
Qed.

Lemma with_textContent_same (el : element) : with_textContent (textContent el) el = el.
Proof. now destruct el. Qed.

(** What one round of the reset loop does. *)
Lemma reset_target_cases (e e' : engine) (b : string) :
  reset_target e b = Some e' ->
  e' = e \/
  exists d st el st',
    Obj.get b (defaultValues e) = Some d /\
    Obj.get b (inputState e) = Some st /\
    Obj.get b (document e) = Some el /\
    state_reset st d = Some st' /\
    e' = mkEngine (Obj.replace b st' (inputState e)) (defaultValues e) (choicesInstances e)
           (write_display b (display_reset st d)
              (Obj.replace b (element_reset (mem b (choicesInstances e)) st d el)
                           (document e)))
           (charts e) (globals e).
Proof.
  unfold reset_target.
  destruct (Obj.get b (defaultValues e)) as [d|] eqn:Hd; [|intros [= <-]; now left].
  destruct (Obj.get b (inputState e)) as [st|] eqn:Hst; [|intros [= <-]; now left].
  destruct (Obj.get b (document e)) as [el|] eqn:Hel; [|intros [= <-]; now left].
  rewrite reset_control_pieces.
  destruct (state_reset st d) as [st'|] eqn:Hreset; [|discriminate].
  intros [= <-]. right. exists d, st, el, st'. repeat split; assumption.
Qed.

(** A control at its default is not changed by its reset. *)
Lemma at_default_fixed (e : engine) (a : string) :
  at_default e a -> reset_target e a = Some e.
Proof.
  intros H. unfold reset_target.
  destruct (Obj.get a (defaultValues e)) as [d|] eqn:Hd; [|reflexivity].
  destruct (Obj.get a (inputState e)) as [st|] eqn:Hst; [|reflexivity].
  destruct (Obj.get a (document e)) as [el|] eqn:Hel; [|reflexivity].
  destruct (H d st el Hd Hst Hel) as (Hreset & Helement & Hdisplay).
  rewrite reset_control_pieces, Hreset, Helement.
  rewrite (replace_same _ _ _ Hst), (replace_same _ _ _ Hel).
  assert (Hdoc : write_display a (display_reset st d) (document e) = document e).
  { unfold write_display. destruct (display_reset st d) as [t|]; [|reflexivity].
    destruct (Obj.get (a ++ "_value") (document e)) as [vd|] eqn:Hvd; [|reflexivity].
    rewrite <- (Hdisplay t vd eq_refl eq_refl), with_textContent_same.
    now apply replace_same. }
  rewrite Hdoc. now destruct e.
Qed.

(** After its reset a control is at its default. *)
Lemma reset_target_at_default (e e' : engine) (a : string) :
  reset_target e a = Some e' -> at_default e' a.
Proof.
  intros Hreset. destruct (reset_target_cases e e' a Hreset)
    as [->|(d & st & el & st' & Hd & Hst & Hel & Hstate & ->)].
  - intros d st el Hd Hst Hel. unfold reset_target in Hreset.
    rewrite Hd, Hst, Hel, reset_control_pieces in Hreset.
    destruct (state_reset st d) as [st'|] eqn:Hstate; [|discriminate].
    injection Hreset as Heq.
    assert (His : Obj.replace a st' (inputState e) = inputState e) by (rewrite <- Heq at 2; reflexivity).
    assert (Hdoc : write_display a (display_reset st d)
                     (Obj.replace a (element_reset (mem a (choicesInstances e)) st d el)
                                  (document e)) = document e)
      by (rewrite <- Heq at 3; reflexivity).
    assert (Hst' : st' = st).
    { apply (f_equal (Obj.get a)) in His. rewrite get_replace_same_key, Hst in His.
      now injection His. }
    subst st'.
    assert (Hel' : element_reset (mem a (choicesInstances e)) st d el = el).
    { apply (f_equal (Obj.get a)) in Hdoc.
      rewrite get_write_display_neq in Hdoc by (apply not_eq_sym, display_id_fresh).
      rewrite get_replace_same_key, Hel in Hdoc. now injection Hdoc. }
    repeat split; trivial.
    intros t vd Ht Hvd. rewrite Hel', Ht, (replace_same _ _ _ Hel) in Hdoc.
    apply (f_equal (Obj.get (a ++ "_value")%string)) in Hdoc.
    rewrite get_write_display_eq, Hvd in Hdoc. cbn in Hdoc. injection Hdoc as Hvd'.
    rewrite <- Hvd'. now destruct vd.
  - destruct (state_reset_settles st st' d Hstate) as (Hagain & Hdisp & Helem).
    intros d0 st0 el0. cbn [defaultValues inputState document choicesInstances].
    rewrite Hd, get_replace_same_key, Hst.
    rewrite get_write_display_neq by (apply not_eq_sym, display_id_fresh).
    rewrite get_replace_same_key, Hel. cbn [option_map].
    intros [= <-] [= <-] [= <-]. split; [exact Hagain|]. split.
    + rewrite Helem. apply element_reset_twice.
    + intros t vd Ht. rewrite Hdisp in Ht. rewrite Ht, get_write_display_eq.
      destruct (Obj.get (a ++ "_value") _) as [vd0|]; [|discriminate].
      cbn. now intros [= <-].
Qed.

(** A control at its default stays there when another control is
    reset. *)
Lemma at_default_kept (e e' : engine) (a b : string) :
  at_default e a -> reset_target e b = Some e' -> at_default e' a.
Proof.
  intros Ha Hreset. destruct (string_dec a b) as [->|Hab].
  - rewrite (at_default_fixed e b Ha) in Hreset. now injection Hreset as <-.
  - destruct (reset_target_cases e e' b Hreset)
      as [->|(d & st & el & st' & Hd & Hst & Hel & Hstate & ->)]; [exact Ha|].
    intros da sta ela. cbn [defaultValues inputState document choicesInstances].
    rewrite (get_replace_neq b a) by exact Hab.
    intros Hda Hsta Hela.
    set (fb := element_reset (mem b (choicesInstances e)) st d el) in *.
    set (doc1 := Obj.replace b fb (document e)) in *.
    (* the element of [a] before the reset of [b] *)
    assert (Hela0 : exists ela0,
               Obj.get a (document e) = Some ela0 /\
               (ela = ela0 \/ exists t, ela = with_textContent t ela0)).
    { destruct (string_dec a (b ++ "_value")%string) as [Heq|Hne].
      - destruct (display_reset st d) as [t|].
        + rewrite Heq, get_write_display_eq in Hela. unfold doc1 in Hela.
          rewrite get_replace_neq in Hela by (rewrite <- Heq; exact Hab).
          rewrite <- Heq in Hela.
          destruct (Obj.get a (document e)) as [ela0|]; [|discriminate].
          injection Hela as <-. exists ela0. split; [reflexivity|]. right. now exists t.
        + cbn [write_display] in Hela. unfold doc1 in Hela.
          rewrite get_replace_neq in Hela by exact Hab. exists ela. auto.
      - rewrite get_write_display_neq in Hela by exact Hne. unfold doc1 in Hela.
        rewrite get_replace_neq in Hela by exact Hab. exists ela. auto. }
    destruct Hela0 as (ela0 & Hela0 & Hshape).
    destruct (Ha da sta ela0 Hda Hsta Hela0) as (Hs & Hf & Hdisp).
    split; [exact Hs|]. split.
    + destruct Hshape as [->|[t ->]]; [exact Hf|].
      rewrite (proj1 (element_reset_textContent _ _ _ _ _)). now rewrite Hf.
    + intros t vd Ht Hvd.
      assert (Hne : (a ++ "_value")%string <> (b ++ "_value")%string)
        by (intros Heq; apply Hab; now apply display_id_inj).
      rewrite get_write_display_neq in Hvd by exact Hne. unfold doc1 in Hvd.
      destruct (string_dec (a ++ "_value")%string b) as [Heq|Hneq].
      * rewrite Heq, get_replace_same_key, Hel in Hvd. cbn in Hvd. injection Hvd as <-.
        unfold fb. rewrite (proj2 (element_reset_textContent _ _ _ "" _)).
        apply (Hdisp t el Ht). now rewrite Heq.
      * rewrite get_replace_neq in Hvd by exact Hneq. now apply (Hdisp t vd).
Qed.

Lemma at_default_kept_all (targets : list string) (e e' : engine) (a : string) :
  at_default e a -> reset_targets targets e = Some e' -> at_default e' a.
Proof.
  revert e. induction targets as [|b targets IH]; intros e Ha; cbn.
  - now intros [= <-].
  - destruct (reset_target e b) as [e1|] eqn:Hb; [|discriminate].
    apply IH. now apply (at_default_kept e e1 a b).
Qed.

(** After a reset every target is at its default. *)
Lemma reset_targets_at_default (targets : list string) (e e' : engine) :
  reset_targets targets e = Some e' -> forall a, In a targets -> at_default e' a.
Proof.
  revert e. induction targets as [|b targets IH]; intros e; cbn; [tauto|].
  destruct (reset_target e b) as [e1|] eqn:Hb; [|discriminate].
  intros Hrest a [<-|Ha].
  - apply (at_default_kept_all targets e1 e' b); [|exact Hrest].
    now apply (reset_target_at_default e e1 b).
  - now apply (IH e1).
Qed.

Lemma reset_targets_fixed (targets : list string) (e : engine) :
  (forall a, In a targets -> at_default e a) -> reset_targets targets e = Some e.
Proof.
  induction targets as [|b targets IH]; intros H; cbn; [reflexivity|].
  rewrite (at_default_fixed e b) by (apply H; now left).
  apply IH. intros a Ha. apply H. now right.
Qed.

(** Being at the default is a matter of the controls only. *)
Lemma at_default_applyAllFilters (e : engine) (a : string) :
  at_default e a -> at_default (applyAllFilters e) a.
Proof.
  unfold applyAllFilters. now destruct (charts e).
Qed.

Lemma applyAllFilters_controls (e : engine) :
  inputState (applyAllFilters e) = inputState e /\
  document (applyAllFilters e) = document e /\
  defaultValues (applyAllFilters e) = defaultValues e.
Proof. unfold applyAllFilters. destruct (charts e); repeat split. Qed.

(** C10. When a reset goes through, a second reset of the same targets
    goes through as well and leaves the control state (the registry
    entries with their selected values and value fields) and the DOM
    controls exactly as the first reset left them. *)
Theorem reset_is_idempotent (targetsAttr : string) (e e1 : engine) :
  resetFilters targetsAttr e = Some e1 ->
  exists e2,
    resetFilters targetsAttr e1 = Some e2 /\
    inputState e2 = inputState e1 /\
    document e2 = document e1.
Proof.
  unfold resetFilters.
  destruct (reset_targets (targets_of targetsAttr (defaultValues e)) e) as [e0|] eqn:Hfirst;
    [|discriminate].
  cbn [option_map]. intros [= <-].
  assert (Hdefaults : defaultValues (applyAllFilters e0) = defaultValues e).
  { rewrite (proj2 (proj2 (applyAllFilters_controls e0))).
    apply (reset_targets_charts _ _ _ Hfirst). }
  rewrite Hdefaults.
  rewrite (reset_targets_fixed _ (applyAllFilters e0)).
  - cbn [option_map]. eexists. split; [reflexivity|].
    split; apply applyAllFilters_controls.
  - intros a Ha. apply at_default_applyAllFilters.
    now apply (reset_targets_at_default _ e e0 Hfirst).
Qed.

Lemma reset_is_idempotent_witness :
  exists e1 e2,
    resetFilters "all" Sample.controls_page = Some e1 /\
    resetFilters "all" e1 = Some e2 /\
    inputState e2 = inputState e1 /\
    document e2 = document e1.
Proof.
  eexists.
  destruct (reset_is_idempotent "all" Sample.controls_page _ eq_refl) as (e2 & H2 & Hs & Hd).
  exists e2. repeat split; eassumption.
Defined.

Example reset_restores_defaults :
  option_map (fun e => (inputState e, document e)) (resetFilters "all" Sample.controls_page)
  = Some ([("year_slider",
            mkState "year" (slider (Fin 0) (Fin 0) (Fin 2) (Fin 1)
                                   (Some [JStr "2014"; JStr "2019"; JStr "2021"])) ["0"]);
           ("country", mkState "country" select ["DE"])],
          [("year_slider", mkElement "INPUT" [] false "0" "0" "2" (Some (Fin (0 # 2))) "");
           ("year_slider_value", mkElement "SPAN" [] false "" "" "" None "2014");
           ("country", mkElement "SELECT" [("DE", true); ("NL", false)] false "DE" "" "" None "")]).
Proof. vm_compute. reflexivity. Qed.

(** A reset goes through whenever the default entries match the
    controls, as they do after initialisation. *)
Lemma reset_target_total (e : engine) (b : string) :
  defaults_match e ->
  exists e', reset_target e b = Some e' /\ defaults_match e'.
Proof.
  intros Hwf. unfold reset_target.
  destruct (Obj.get b (defaultValues e)) as [d|] eqn:Hd; [|now exists e].
  destruct (Obj.get b (inputState e)) as [st|] eqn:Hst; [|now exists e].
  destruct (Obj.get b (document e)) as [el|] eqn:Hel; [|now exists e].
  rewrite reset_control_pieces.
  destruct (state_reset st d) as [st'|] eqn:Hreset; [|now destruct (Hwf b d st Hd Hst)].
  eexists. split; [reflexivity|].
  intros a da sta. cbn [defaultValues inputState]. intros Hda Hsta.
  destruct (string_dec a b) as [->|Hab].
  - rewrite get_replace_same_key, Hst in Hsta. cbn in Hsta. injection Hsta as <-.
    rewrite Hd in Hda. injection Hda as <-.
    rewrite (proj1 (state_reset_settles _ _ _ Hreset)). discriminate.
  - rewrite get_replace_neq in Hsta by exact Hab. now apply (Hwf a).
Qed.

Lemma resetFilters_total (targetsAttr : string) (e : engine) :
  defaults_match e -> exists e', resetFilters targetsAttr e = Some e'.
Proof.
  intros Hwf. unfold resetFilters.
  generalize (targets_of targetsAttr (defaultValues e)). intros targets.
  assert (H : exists e0, reset_targets targets e = Some e0).
  { revert e Hwf. induction targets as [|b targets IH]; intros e Hwf; cbn; [eauto|].
    destruct (reset_target_total e b Hwf) as (e1 & -> & Hwf1). now apply IH. }
  destruct H as (e0 & ->). cbn. eauto.
Qed.

(** ** Running the filters twice *)

Lemma filter_series_after (w : window) (registry : Obj.t state) (fs : filterSets)
    (c : chart) (s : series) :
  filter_series w registry fs c s
  = series_after w registry fs (map name (chart_series c)) (originalCategories c)
                 (hasNumericXAxis c) s.
Proof.
  unfold filter_series, series_after, apply_series, remetric, rebuilt_data, series_shown,
    metric_series, retype, filter_series_data, hide, show.
  destruct s as [nm d v lg ty sn].
  destruct (type_choice (filters fs)) as [t|];
    destruct (selectedMetric_of w (filters fs)) as [[m allData]|];
    cbn [name data visible showInLegend type snapshot update_type];
    try destruct (countryData_of allData nm m);
    cbn [name data visible showInLegend type snapshot update_type setData set_snapshot
         setVisible update_showInLegend deep_clone or_else];
    destruct (mem nm (switchHiddenSeries registry));
    destruct (mem nm (switchShownSeries registry));
    destruct (showSeries fs (map name (chart_series c)) nm);
    cbn [negb andb orb];
    try destruct sn;
    destruct (originalCategories c);
    destruct (hasNumericXAxis c);
    reflexivity.
Qed.

(** On a chart with categories the data shown for a visible series is
    read off the snapshot at the visible category indices: it does not
    depend on the data the chart held before the run. *)
Lemma shown_data_reads_snapshot (w : window) (registry : Obj.t state) (fs : filterSets)
    (c : chart) (s : series) (cs : list jsval) (o : original) :
  originalCategories c = Some cs ->
  visible (filter_series w registry fs c s) = true ->
  snapshot (filter_series w registry fs c s) = Some o ->
  data (filter_series w registry fs c s)
  = filteredData_categories o (visibleCategoryIndices cs fs).
Proof.
  rewrite filter_series_after. unfold series_after. cbn [visible snapshot data].
  intros -> -> ->. reflexivity.
Qed.

(** A second run on a series changes nothing when the chart has
    categories, when both runs take the axis the same way, or when the
    first run took it for numeric and no metric rebuilds the series or
    no slider filters its points. *)
Lemma series_after_twice (w : window) (registry : Obj.t state) (fs : filterSets)
    (seriesNames : list string) (cats : option (list jsval)) (numeric numeric' : bool)
    (s : series) :
  cats <> None \/ numeric' = numeric \/
  (numeric = true /\
   (rebuilt_data w (filters fs) cats (name s) = None \/ sliderFilters fs = [])) ->
  series_after w registry fs seriesNames cats numeric'
    (series_after w registry fs seriesNames cats numeric s)
  = series_after w registry fs seriesNames cats numeric s.
Proof.
  intros Hcond. unfold series_after. cbn [name data type snapshot].
  assert (Htype : or_else (type_choice (filters fs))
                          (or_else (type_choice (filters fs)) (type s))
                  = or_else (type_choice (filters fs)) (type s))
    by now destruct (type_choice (filters fs)).
  rewrite Htype. clear Htype.
  destruct (rebuilt_data w (filters fs) cats (name s)) as [newData|] eqn:Hrebuilt.
  - f_equal.
    destruct (series_shown registry fs seriesNames (name s)); [|reflexivity].
    destruct cats as [cs|]; [reflexivity|].
    destruct numeric, numeric'; try reflexivity.
    + destruct Hcond as [Hc|[Hn|[_ [Hm|Hs]]]]; try congruence.
      now rewrite Hs.
    + destruct Hcond as [Hc|[Hn|[Hn _]]]; congruence.
  - f_equal.
    destruct (series_shown registry fs seriesNames (name s)); [|reflexivity].
    destruct (snapshot s) as [o|]; [|reflexivity].
    destruct cats as [cs|]; [reflexivity|].
    destruct numeric, numeric'; try reflexivity.
    destruct Hcond as [Hc|[Hn|[Hn _]]]; congruence.
Qed.

Lemma originalCategories_filter_chart (w : window) (registry : Obj.t state)
    (fs : filterSets) (c : chart) :
  originalCategories (filter_chart w registry fs c) = originalCategories c.
Proof.
  rewrite filter_chart_fields. unfold originalCategories at 1. cbn [_originalCategories categories].
  destruct (originalCategories c) as [cs|] eqn:Hoc; [reflexivity|].
  unfold new_categories. rewrite Hoc. unfold originalCategories in Hoc.
  now destruct (_originalCategories c).
Qed.

Lemma new_categories_filter_chart (w : window) (registry : Obj.t state)
    (fs : filterSets) (c : chart) :
  new_categories fs (filter_chart w registry fs c) = new_categories fs c.
Proof.
  unfold new_categories at 1. rewrite originalCategories_filter_chart.
  rewrite filter_chart_fields. cbn [categories]. unfold new_categories.
  destruct (originalCategories c) as [cs|]; [|reflexivity].
  now destruct (categories_at cs (visibleCategoryIndices cs fs)).
Qed.

(** An axis that is not taken for numeric in one run is not in the
    next, unless a metric rebuilds the first series. *)
Lemma hasNumericXAxis_filter_chart (w : window) (registry : Obj.t state)
    (fs : filterSets) (c : chart) :
  (forall s0 l, chart_series c = s0 :: l ->
                rebuilt_data w (filters fs) None (name s0) = None) ->
  hasNumericXAxis c = false -> hasNumericXAxis (filter_chart w registry fs c) = false.
Proof.
  intros Hfirst Hnum. unfold hasNumericXAxis at 1. rewrite originalCategories_filter_chart.
  destruct (originalCategories c) as [cs|] eqn:Hoc; [reflexivity|].
  rewrite filter_chart_fields. cbn [chart_series].
  destruct (chart_series c) as [|s0 l] eqn:Hseries; [reflexivity|]. cbn [map].
  rewrite filter_series_after, Hoc, Hnum. unfold series_after. cbn [data].
  rewrite (Hfirst s0 l eq_refl).
  unfold hasNumericXAxis in Hnum. rewrite Hoc, Hseries in Hnum.
  destruct (series_shown registry fs _ (name s0)); [|exact Hnum].
  destruct (snapshot s0); exact Hnum.
Qed.

Lemma or_else_twice {A : Type} (a b : option A) : or_else a (or_else a b) = or_else a b.
Proof. now destruct a. Qed.

(** On the regular path a second run only counts one more redraw. *)
Lemma filter_chart_twice (w : window) (registry : Obj.t state) (fs : filterSets) (c : chart) :
  stable_axis w fs c ->
  filter_chart w registry fs (filter_chart w registry fs c)
  = redraw (filter_chart w registry fs c).
Proof.
  intros Hstable.
  rewrite (filter_chart_fields w registry fs (filter_chart w registry fs c)).
  rewrite originalCategories_filter_chart, new_categories_filter_chart.
  assert (Hseries :
            map (filter_series w registry fs (filter_chart w registry fs c))
                (chart_series (filter_chart w registry fs c))
            = chart_series (filter_chart w registry fs c)).
  { assert (Hnames : map name (chart_series (filter_chart w registry fs c))
                     = map name (chart_series c)).
    { rewrite filter_chart_fields. cbn [chart_series]. rewrite map_map.
      apply map_ext. intros s. apply name_filter_series. }
    rewrite <- (map_id (chart_series (filter_chart w registry fs c))) at 2.
    rewrite filter_chart_fields at 2 3. cbn [chart_series]. rewrite !map_map.
    apply map_ext_in. intros s Hs.
    rewrite (filter_series_after w registry fs (filter_chart w registry fs c)).
    rewrite Hnames, originalCategories_filter_chart.
    rewrite (filter_series_after w registry fs c).
    apply series_after_twice.
    destruct (originalCategories c) as [cs|] eqn:Hoc; [left; discriminate|]. right.
    destruct Hstable as [H|[Hnone|[Hsliders Hpoint]]]; [congruence| |].
    - destruct (hasNumericXAxis c) eqn:Hnum.
      + right. split; [reflexivity|]. left. now apply Hnone.
      + left. apply hasNumericXAxis_filter_chart; [|exact Hnum].
        intros s0 l Hseries. apply Hnone. rewrite Hseries. now left.
    - right. rewrite Hpoint. split; [reflexivity|]. now right. }
  rewrite Hseries.
  rewrite filter_chart_fields. cbn. now rewrite !or_else_twice.
Qed.

(** ** Rebuilding from the cross-tab twice *)

Lemma findIndex_map {A B : Type} (f : A -> B) (p : B -> bool) (l : list A) :
  findIndex p (map f l) = findIndex (fun a => p (f a)) l.
Proof.
  induction l as [|a l IH]; cbn; [reflexivity|]. rewrite IH. reflexivity.
Qed.

Lemma find_series_names (l : list series) (s : jsval) (idx : nat) :
  find_series l s idx = find_series_by (map name l) s idx.
Proof.
  unfold find_series, find_series_by. rewrite length_map.
  destruct s as [z|nm]; [reflexivity|]. now rewrite findIndex_map.
Qed.

Lemma name_update_at (i : nat) (d : list point) (l : list series) :
  map name (update_at i (setData d) l) = map name l.
Proof.
  revert i. induction l as [|a l IH]; intros i; [now destruct i|].
  destruct i; cbn; [reflexivity|]. now rewrite IH.
Qed.

Lemma name_write_all (writes : list (nat * list point)) (l : list series) :
  map name (write_all writes l) = map name l.
Proof.
  unfold write_all. revert l. induction writes as [|wr writes IH]; intros l; [reflexivity|].
  cbn [fold_left]. now rewrite IH, name_update_at.
Qed.

(** The loop over the stack values is a list of writes fixed by the
    names of the series. *)
Lemma emit_series_writes (isPercent : bool) (byX : Obj.t (Obj.t Q)) (xTotals : Obj.t Q)
    (orderedX : list jsval) (entries : list (nat * jsval)) (l : list series) :
  fold_left (emit_series isPercent byX xTotals orderedX) entries l
  = write_all (resolve isPercent byX xTotals orderedX (map name l) entries) l.
Proof.
  revert l. induction entries as [|[idx s] entries IH]; intros l; [reflexivity|].
  cbn [fold_left]. rewrite IH. unfold emit_series, resolve. cbn [flat_map fst snd].
  rewrite find_series_names.
  destruct (find_series_by (map name l) s idx) as [i|]; [|reflexivity].
  now rewrite name_update_at.
Qed.

Lemma update_at_twice {A : Type} (i : nat) (f g : A -> A) (l : list A) :
  update_at i f (update_at i g l) = update_at i (fun a => f (g a)) l.
Proof.
  revert i. induction l as [|a l IH]; intros i; [now destruct i|].
  destruct i; cbn; [reflexivity|]. now rewrite IH.
Qed.

Lemma update_at_swap {A : Type} (i j : nat) (f g : A -> A) (l : list A) :
  i <> j -> update_at i f (update_at j g l) = update_at j g (update_at i f l).
Proof.
  revert i j. induction l as [|a l IH]; intros i j Hij; [now destruct i, j|].
  destruct i, j; cbn; try reflexivity; [congruence|]. rewrite IH; [reflexivity|congruence].
Qed.

(** A write absorbs an earlier write to the same series. *)
Lemma write_absorbs (i : nat) (d : list point) (writes : list (nat * list point))
    (l : list series) :
  update_at i (setData d) (write_all writes (update_at i (setData d) l))
  = update_at i (setData d) (write_all writes l).
Proof.
  unfold write_all. revert l. induction writes as [|[j d'] writes IH]; intros l; cbn [fold_left fst snd].
  - now rewrite update_at_twice.
  - destruct (Nat.eq_dec j i) as [->|Hne].
    + now rewrite update_at_twice.
    + rewrite update_at_swap by exact Hne. apply IH.
Qed.

Lemma write_all_app (ws1 ws2 : list (nat * list point)) (l : list series) :
  write_all (ws1 ++ ws2) l = write_all ws2 (write_all ws1 l).
Proof. unfold write_all. apply fold_left_app. Qed.

Lemma write_all_absorbs (writes others : list (nat * list point)) (l : list series) :
  write_all writes (write_all others (write_all writes l))
  = write_all writes (write_all others l).
Proof.
  revert others l. induction writes as [|[i d] writes IH]; intros others l; [reflexivity|].
  assert (Hcons : forall x, write_all ((i, d) :: writes) x
                            = write_all writes (update_at i (setData d) x))
    by reflexivity.
  assert (Hsnoc : forall x, update_at i (setData d) (write_all others x)
                            = write_all (others ++ [(i, d)]) x)
    by (intros x; now rewrite write_all_app).
  rewrite !Hcons, (Hsnoc (write_all writes _)), IH, <- Hsnoc.
  now rewrite write_absorbs.
Qed.

Lemma write_all_twice (writes : list (nat * list point)) (l : list series) :
  write_all writes (write_all writes l) = write_all writes l.
Proof. exact (write_all_absorbs writes [] l). Qed.

(** Rebuilding a rebuilt chart only counts one more redraw. *)
Lemma rebuild_twice (c rebuilt : chart) (info : crossTabInfo) (flt : Obj.t (list string)) :
  rebuildFromCrossTab c info flt = Some rebuilt ->
  rebuildFromCrossTab rebuilt info flt = Some (redraw rebuilt).
Proof.
  unfold rebuildFromCrossTab. destruct (ct_data info) as [rows|]; [|discriminate].
  destruct (ct_config info) as [cfg|]; [|discriminate]. intros [= <-]. f_equal.
  cbn [chart_series setCategories redraw with_series].
  rewrite !emit_series_writes, name_write_all, write_all_twice. reflexivity.
Qed.

Lemma chart_id_apply_chart (w : window) (registry : Obj.t state) (fs : filterSets) (c : chart) :
  chart_id (apply_chart w registry fs c) = chart_id c.
Proof.
  destruct (rebuilt_from_crossTab w c) eqn:Hpath.
  - destruct (apply_chart_crossTab w registry fs c Hpath) as (info & rebuilt & _ & Hre & ->).
    unfold rebuildFromCrossTab in Hre. destruct (ct_data info); [|discriminate].
    destruct (ct_config info); [|discriminate]. now injection Hre as <-.
  - rewrite (apply_chart_regular _ _ _ _ Hpath), filter_chart_fields. reflexivity.
Qed.

Lemma crossTab_of_apply_chart (w : window) (registry : Obj.t state) (fs : filterSets)
    (c : chart) :
  crossTab_of w (apply_chart w registry fs c) = crossTab_of w c.
Proof. unfold crossTab_of. now rewrite chart_id_apply_chart. Qed.

Lemma apply_chart_twice (w : window) (registry : Obj.t state) (fs : filterSets) (c : chart) :
  rebuilt_from_crossTab w c = true \/ stable_axis w fs c ->
  apply_chart w registry fs (apply_chart w registry fs c)
  = redraw (apply_chart w registry fs c).
Proof.
  intros Hcond. destruct (rebuilt_from_crossTab w c) eqn:Hpath.
  - destruct (apply_chart_crossTab w registry fs c Hpath) as (info & rebuilt & Hinfo & Hre & Heq).
    pose proof (crossTab_of_apply_chart w registry fs c) as Hsame.
    rewrite Heq in *. unfold apply_chart at 1. rewrite Hsame, Hinfo.
    now rewrite (rebuild_twice _ _ _ _ Hre).
  - destruct Hcond as [Hc|Hstable]; [discriminate|].
    assert (Hpath' : rebuilt_from_crossTab w (apply_chart w registry fs c) = false).
    { unfold rebuilt_from_crossTab in *. now rewrite crossTab_of_apply_chart. }
    rewrite (apply_chart_regular _ _ _ _ Hpath'), (apply_chart_regular _ _ _ _ Hpath).
    now apply filter_chart_twice.
Qed.

Lemma charts_applyAllFilters (e : engine) :
  charts (applyAllFilters e)
  = map (apply_chart (globals e) (inputState e) (collect (inputState e))) (charts e) /\
  inputState (applyAllFilters e) = inputState e /\
  globals (applyAllFilters e) = globals e.
Proof.
  unfold applyAllFilters. destruct (charts e) eqn:Hcs; [|repeat split].
  now rewrite Hcs.
Qed.

(** Where a second run changes nothing. With the control states fixed,
    a second filter application right after the first leaves every chart
    as the first left it, the count of redraws apart: the same category
    labels, the same series data and visibility, the same snapshot, also
    when a metric filter is active. This holds for every chart that is
    rebuilt from cross-tab data or has a category axis, and for a chart
    without categories as long as no metric is rebuilding a series of
    the chart, or no slider is registered and the first series holds a
    point. *)
Lemma filter_application_twice (e : engine) :
  (forall c, In c (charts e) ->
             rebuilt_from_crossTab (globals e) c = true \/
             stable_axis (globals e) (collect (inputState e)) c) ->
  charts (applyAllFilters (applyAllFilters e)) = map redraw (charts (applyAllFilters e)) /\
  displayed (applyAllFilters (applyAllFilters e)) = displayed (applyAllFilters e).
Proof.
  intros Hcond.
  assert (Hcharts : charts (applyAllFilters (applyAllFilters e))
                    = map redraw (charts (applyAllFilters e))).
  { destruct (charts_applyAllFilters (applyAllFilters e)) as (-> & _ & _).
    destruct (charts_applyAllFilters e) as (-> & -> & ->).
    rewrite !map_map. apply map_ext_in. intros c Hc. now apply apply_chart_twice, Hcond. }
  split; [exact Hcharts|].
  unfold displayed. rewrite Hcharts, map_map. reflexivity.
Qed.

Lemma filter_application_twice_witness :
  let e := storeOriginalData
             (Sample.page (Sample.period_radio "2015-2019") [Sample.years_chart]
                          Sample.no_globals) in
  charts (applyAllFilters (applyAllFilters e)) = map redraw (charts (applyAllFilters e)) /\
  displayed (applyAllFilters (applyAllFilters e)) = displayed (applyAllFilters e).
Proof.
  intros e. apply (filter_application_twice e).
  intros c [<-|[]]. right. left. discriminate.
Defined.

(** C1. On a chart without categories the engine decides whether the
    x axis is numeric from the first point of the live first series,
    which its own [setData] empties, while the data it filters is the
    stored snapshot: the result depends on what earlier runs left on the
    chart.

    Twice in a row: the page has a metric selected and a slider, was
    filtered once with the slider at 0, and the slider now stands at
    100. The first run takes the axis for numeric, empties "NL" (its
    point lies below 100) and drops the [null] point of the rebuilt
    "DE"; the second run finds the first series empty, no longer takes
    the axis for numeric, and leaves the rebuilt data of "DE" with its
    [null] point. The snapshot is the same before both runs.

    Same snapshot and same controls, another history: with a slider
    only, the page filtered at 0 shows every point; after the slider has
    been at 100 and is back at 0, the snapshot and the controls are the
    same and the chart shows no point. *)
Theorem axis_is_read_off_the_live_chart :
  (let e := Sample.scatter_page in
   Sample.stored (applyAllFilters e) = Sample.stored e /\
   displayed (applyAllFilters e)
   = [(None, [("NL", true, []); ("DE", true, [PNum 10])])] /\
   displayed (applyAllFilters (applyAllFilters e))
   = [(None, [("NL", true, []); ("DE", true, [PNum 10; PNull])])]) /\
  (let fresh := Fixtures.scatter_loaded in
   let back := Fixtures.slide 0 (applyAllFilters (Fixtures.slide 100 fresh)) in
   inputState back = inputState fresh /\
   Sample.stored back = Sample.stored fresh /\
   Sample.stored fresh = [[Some [PObj (Some 1) (Some 5)]; Some [PObj (Some 1) (Some 6)]]] /\
   displayed (applyAllFilters fresh)
   = [(None, [("NL", true, [PObj (Some 1) (Some 5)]);
              ("DE", true, [PObj (Some 1) (Some 6)])])] /\
   displayed (applyAllFilters back)
   = [(None, [("NL", true, []); ("DE", true, [])])]).
Proof. repeat split. Qed.

(** ** Empty selections *)

Lemma similar_set (k : string) (v : list string) (flt flt' : Obj.t (list string)) :
  similar flt flt' -> similar (Obj.set k v flt) (Obj.set k v flt').
Proof.
  intros (Hnd & Hnd' & Hget). repeat split; try now apply NoDup_keys_set.
  intros k'. destruct (string_dec k' k) as [->|Hne].
  - now rewrite !get_set_eq.
  - rewrite !get_set_neq by exact Hne. apply Hget.
Qed.

Lemma similar_set_empty (fv : string) (flt : Obj.t (list string)) :
  NoDup (Obj.keys flt) -> active (Obj.get fv flt) = None ->
  similar flt (Obj.set fv [] flt).
Proof.
  intros Hnd Hnone. repeat split; [exact Hnd|now apply NoDup_keys_set|].
  intros k. destruct (string_dec k fv) as [->|Hne].
  - now rewrite get_set_eq, Hnone.
  - now rewrite get_set_neq.
Qed.

Lemma similar_In (flt flt' : Obj.t (list string)) (k v : string) (rest : list string) :
  similar flt flt' -> In (k, v :: rest) flt -> In (k, v :: rest) flt'.
Proof.
  intros (Hnd & Hnd' & Hget) Hin. apply get_In.
  apply (In_get _ _ _ Hnd) in Hin. specialize (Hget k). rewrite Hin in Hget. cbn in Hget.
  destruct (Obj.get k flt') as [[|v' rest']|]; cbn in Hget; congruence.
Qed.

Lemma similar_sym (flt flt' : Obj.t (list string)) : similar flt flt' -> similar flt' flt.
Proof. intros (Hnd & Hnd' & Hget). repeat split; trivial. intros k. now rewrite Hget. Qed.

(** A test that every empty selection passes gives the same verdict on
    both objects. *)
Lemma forallb_similar (q : string * list string -> bool) (flt flt' : Obj.t (list string)) :
  similar flt flt' -> (forall k, q (k, []) = true) ->
  forallb q flt' = forallb q flt.
Proof.
  intros Hsim Hempty.
  assert (Hdir : forall a b, similar a b -> forallb q a = true -> forallb q b = true).
  { intros a b Hab Ha. rewrite forallb_forall in *. intros [k [|v rest]] Hin; [apply Hempty|].
    apply Ha. apply (similar_In b a); [now apply similar_sym|exact Hin]. }
  destruct (forallb q flt) eqn:E.
  - now apply (Hdir flt flt').
  - destruct (forallb q flt') eqn:E'; [|reflexivity].
    apply (Hdir flt' flt) in E'; [congruence|now apply similar_sym].
Qed.

Lemma fold_left_filter {A B : Type} (p : B -> A -> bool) (l : list B) (vis : list A) :
  fold_left (fun vis e => filter (p e) vis) l vis
  = filter (fun idx => forallb (fun e => p e idx) l) vis.
Proof.
  revert vis. induction l as [|e l IH]; intros vis; cbn [fold_left forallb].
  - symmetry. apply filter_true.
  - rewrite IH. clear IH. induction vis as [|a vis IHv]; cbn; [reflexivity|].
    destruct (p e a); cbn; [|exact IHv]. destruct (forallb _ l); now rewrite IHv.
Qed.

Lemma apply_categoryFilter_passes (cats : list jsval) (sel : list string) (vis : list nat) :
  apply_categoryFilter cats sel vis = filter (category_passes cats sel) vis.
Proof.
  unfold apply_categoryFilter, category_passes. destruct sel as [|v rest].
  - symmetry. apply filter_true.
  - destruct (overlaps _ _); [reflexivity|]. symmetry. apply filter_true.
Qed.

Lemma apply_period_passes (cats : list jsval) (sel : list string) (vis : list nat) :
  apply_period cats sel vis = filter (period_passes cats sel) vis.
Proof.
  unfold apply_period, period_passes. destruct sel as [|pv rest].
  - symmetry. apply filter_true.
  - destruct (_ && _); [reflexivity|]. symmetry. apply filter_true.
Qed.

Lemma apply_categoryFilters_forallb (cats : list jsval) (flt : Obj.t (list string))
    (vis : list nat) :
  apply_categoryFilters cats flt vis
  = filter (fun idx => forallb (fun e => category_passes cats (snd e) idx) flt) vis.
Proof.
  unfold apply_categoryFilters.
  rewrite (fold_left_ext_in _ (fun vis e => filter (category_passes cats (snd e)) vis))
    by (intros; apply apply_categoryFilter_passes).
  apply (fold_left_filter (fun e => category_passes cats (snd e))).
Qed.

Lemma apply_periodFilters_forallb (cats : list jsval) (pf : Obj.t (list string))
    (vis : list nat) :
  apply_periodFilters cats pf vis
  = filter (fun idx => forallb (fun e => period_passes cats (snd e) idx) pf) vis.
Proof.
  unfold apply_periodFilters.
  rewrite (fold_left_ext_in _ (fun vis e => filter (period_passes cats (snd e)) vis))
    by (intros; apply apply_period_passes).
  apply (fold_left_filter (fun e => period_passes cats (snd e))).
Qed.

Lemma apply_categoryFilters_similar (cats : list jsval) (flt flt' : Obj.t (list string))
    (vis : list nat) :
  similar flt flt' ->
  apply_categoryFilters cats flt' vis = apply_categoryFilters cats flt vis.
Proof.
  intros Hsim. rewrite !apply_categoryFilters_forallb.
  apply filter_ext. intros idx.
  apply (forallb_similar (fun e => category_passes cats (snd e) idx)); [exact Hsim|reflexivity].
Qed.

Lemma apply_periodFilters_similar (cats : list jsval) (pf pf' : Obj.t (list string))
    (vis : list nat) :
  similar pf pf' ->
  apply_periodFilters cats pf' vis = apply_periodFilters cats pf vis.
Proof.
  intros Hsim. rewrite !apply_periodFilters_forallb.
  apply filter_ext. intros idx.
  apply (forallb_similar (fun e => period_passes cats (snd e) idx)); [exact Hsim|reflexivity].
Qed.

Lemma visibleCategoryIndices_similar (cats : list jsval) (fs fs' : filterSets) :
  similar_sets fs fs' ->
  visibleCategoryIndices cats fs' = visibleCategoryIndices cats fs.
Proof.
  intros (Hf & Hp & Hs & _). unfold visibleCategoryIndices.
  now rewrite Hs, (apply_periodFilters_similar _ _ _ _ Hp),
    (apply_categoryFilters_similar _ _ _ _ Hf).
Qed.

Lemma fold_left_hide {A : Type} (h : A -> bool) (l : list A) (init : bool) :
  fold_left (fun show e => if h e then false else show) l init
  = init && forallb (fun e => negb (h e)) l.
Proof.
  revert init. induction l as [|e l IH]; intros init; cbn [fold_left forallb].
  - now rewrite andb_true_r.
  - rewrite IH. destruct (h e), init; reflexivity.
Qed.

Lemma showSeries_similar (fs fs' : filterSets) (seriesNames : list string) (nm : string) :
  similar_sets fs fs' -> showSeries fs' seriesNames nm = showSeries fs seriesNames nm.
Proof.
  intros (Hf & _ & _ & Ht). unfold showSeries. rewrite Ht.
  rewrite !(fold_left_hide (fun e => filter_hides seriesNames nm (snd e))). f_equal.
  apply (forallb_similar (fun e => negb (filter_hides seriesNames nm (snd e))));
    [exact Hf|reflexivity].
Qed.

Lemma type_choice_get (flt : Obj.t (list string)) :
  NoDup (Obj.keys flt) ->
  type_choice flt
  = match active (Obj.get "chart_type" flt) with
    | Some (chartType :: _) =>
        if nonempty_string chartType then Some (typeMap chartType) else None
    | _ => None
    end.
Proof.
  unfold type_choice. generalize (@None string) as acc.
  induction flt as [|[k sel] flt IH]; intros acc Hnd; [reflexivity|].
  unfold Obj.keys in Hnd. cbn [map fst] in Hnd. inversion Hnd as [|? ? Hnotin Hnd']; subst.
  cbn [fold_left fst snd Obj.get]. rewrite (IH _ Hnd').
  destruct (String.eqb_spec k "chart_type") as [->|Hne]; [|reflexivity].
  assert (Hnone : Obj.get "chart_type" flt = None) by now apply get_None_keys.
  rewrite Hnone. cbn [active]. destruct sel as [|chartType rest]; [reflexivity|].
  now destruct (nonempty_string chartType).
Qed.

Lemma type_choice_similar (flt flt' : Obj.t (list string)) :
  similar flt flt' -> type_choice flt' = type_choice flt.
Proof.
  intros (Hnd & Hnd' & Hget). now rewrite !type_choice_get, Hget.
Qed.

Lemma selectedMetric_similar (w : window) (flt flt' : Obj.t (list string)) :
  similar flt flt' -> selectedMetric_of w flt' = selectedMetric_of w flt.
Proof.
  intros (_ & _ & Hget). specialize (Hget "metric"). unfold selectedMetric_of.
  destruct (Obj.get "metric" flt') as [[|m' r']|], (Obj.get "metric" flt) as [[|m r]|];
    cbn in Hget; try discriminate; try reflexivity.
  now injection Hget as -> ->.
Qed.

Lemma filter_on_similar (flt flt' : Obj.t (list string)) (rows : list row) (fv : string) :
  similar flt flt' -> filter_on flt' rows fv = filter_on flt rows fv.
Proof.
  intros (_ & _ & Hget). specialize (Hget fv). unfold filter_on.
  destruct (Obj.get fv flt') as [[|v' r']|], (Obj.get fv flt) as [[|v r]|];
    cbn in Hget; try discriminate; try reflexivity.
  now injection Hget as -> ->.
Qed.

Lemma rebuild_similar (c : chart) (info : crossTabInfo) (flt flt' : Obj.t (list string)) :
  similar flt flt' ->
  rebuildFromCrossTab c info flt' = rebuildFromCrossTab c info flt.
Proof.
  intros Hsim. unfold rebuildFromCrossTab.
  destruct (ct_data info) as [rows|]; [|reflexivity].
  destruct (ct_config info) as [cfg|]; [|reflexivity].
  assert (Hrows : filter_rows (filterVars cfg) flt' rows = filter_rows (filterVars cfg) flt rows).
  { unfold filter_rows. apply fold_left_ext_in. intros a b _. now apply filter_on_similar. }
  now rewrite Hrows.
Qed.

(** The chart a run gives depends on the filters only through their
    non-empty selections. *)
Lemma filter_chart_similar (w : window) (registry registry' : Obj.t state)
    (fs fs' : filterSets) (c : chart) :
  similar_sets fs fs' ->
  switchHiddenSeries registry' = switchHiddenSeries registry ->
  switchShownSeries registry' = switchShownSeries registry ->
  legend_choice registry' = legend_choice registry ->
  filter_chart w registry' fs' c = filter_chart w registry fs c.
Proof.
  intros Hsim Hhidden Hshown Hlegend. rewrite !filter_chart_fields.
  pose proof Hsim as (Hf & Hp & Hs & Ht).
  assert (Hmetric := selectedMetric_similar w _ _ Hf).
  assert (Hcats : new_categories fs' c = new_categories fs c).
  { unfold new_categories. destruct (originalCategories c) as [cs|]; [|reflexivity].
    now rewrite (visibleCategoryIndices_similar cs fs fs' Hsim). }
  assert (Hseries : map (filter_series w registry' fs' c) (chart_series c)
                    = map (filter_series w registry fs c) (chart_series c)).
  { apply map_ext. intros s. rewrite !filter_series_after. unfold series_after.
    unfold rebuilt_data, series_shown, visible_of.
    rewrite Hmetric, Hhidden, Hshown, Hs, (type_choice_similar _ _ Hf).
    rewrite (showSeries_similar fs fs' _ _ Hsim).
    destruct (originalCategories c) as [cs|]; [|reflexivity].
    now rewrite (visibleCategoryIndices_similar cs fs fs' Hsim). }
  unfold metric_title. now rewrite Hcats, Hseries, Hlegend, Hmetric.
Qed.

Lemma apply_chart_similar (w : window) (registry registry' : Obj.t state)
    (fs fs' : filterSets) (c : chart) :
  similar_sets fs fs' ->
  switchHiddenSeries registry' = switchHiddenSeries registry ->
  switchShownSeries registry' = switchShownSeries registry ->
  legend_choice registry' = legend_choice registry ->
  apply_chart w registry' fs' c = apply_chart w registry fs c.
Proof.
  intros Hsim Hhidden Hshown Hlegend. unfold apply_chart.
  rewrite (filter_chart_similar w registry registry' fs fs' c Hsim Hhidden Hshown Hlegend).
  destruct (crossTab_of w c) as [info|]; [|reflexivity].
  now rewrite (rebuild_similar c info _ _ (proj1 Hsim)).
Qed.

(** ** The registry with and without a control *)

Lemma collect_one_similar (fs fs' : filterSets) (entry : string * state) :
  similar_sets fs fs' -> similar_sets (collect_one fs entry) (collect_one fs' entry).
Proof.
  intros (Hf & Hp & Hs & Ht). destruct entry as [j [fv k sel]].
  unfold collect_one, similar_sets. cbn [snd kind filterVar selected].
  destruct k;
    try (destruct (String.eqb fv "period");
         cbn [filters periodFilters sliderFilters textFilters];
         (split; [|split; [|split]]); trivial; now apply similar_set);
    try (destruct (nonempty_string value && nonempty_string (trim value)));
    cbn [filters periodFilters sliderFilters textFilters];
    rewrite ?Hs, ?Ht; (split; [|split; [|split]]); trivial.
Qed.

Lemma collect_similar (registry : Obj.t state) (fs fs' : filterSets) :
  similar_sets fs fs' ->
  similar_sets (fold_left collect_one registry fs) (fold_left collect_one registry fs').
Proof.
  revert fs fs'. induction registry as [|entry registry IH]; intros fs fs' Hsim; [exact Hsim|].
  cbn [fold_left]. apply IH. now apply collect_one_similar.
Qed.

Lemma collect_keys (registry : Obj.t state) :
  similar_sets (collect registry) (collect registry).
Proof.
  unfold collect. apply collect_similar.
  repeat split; constructor.
Qed.

(** The controls that do not select values for [fv] leave its entry
    alone. *)
Lemma collect_other_variable (fv : string) (registry : Obj.t state) (fs : filterSets) :
  (forall j st, In (j, st) registry -> discrete (kind st) = true -> filterVar st <> fv) ->
  Obj.get fv (filters (fold_left collect_one registry fs)) = Obj.get fv (filters fs) /\
  Obj.get fv (periodFilters (fold_left collect_one registry fs)) = Obj.get fv (periodFilters fs).
Proof.
  revert fs. induction registry as [|[j st] registry IH]; intros fs Hother; [split; reflexivity|].
  cbn [fold_left]. destruct (IH (collect_one fs (j, st))) as [Hf Hp].
  { intros j' st' Hin. apply (Hother j' st'). now right. }
  rewrite Hf, Hp. clear IH Hf Hp.
  specialize (Hother j st (or_introl eq_refl)). unfold collect_one. cbn [snd].
  destruct (kind st); cbn [discrete] in Hother;
    try (destruct (String.eqb (filterVar st) "period");
         cbn [filters periodFilters]; split; trivial;
         apply get_set_neq; apply not_eq_sym; now apply Hother);
    try (split; reflexivity).
  destruct (_ && _); split; reflexivity.
Qed.

Lemma collect_without (r1 r2 : Obj.t state) (inputId fv : string) (k : inputType) :
  discrete k = true ->
  (forall j st, In (j, st) r1 -> discrete (kind st) = true -> filterVar st <> fv) ->
  similar_sets (collect (r1 ++ r2)) (collect (r1 ++ (inputId, mkState fv k []) :: r2)).
Proof.
  intros Hk Hother. unfold collect. rewrite !fold_left_app. cbn [fold_left].
  apply collect_similar. fold (collect r1).
  destruct (collect_keys r1) as ((Hndf & _ & _) & (Hndp & _ & _) & _ & _).
  destruct (collect_other_variable fv r1 no_filters Hother) as [Hf Hp].
  fold (collect r1) in Hf, Hp. cbn in Hf, Hp.
  unfold collect_one, similar_sets. cbn [snd kind filterVar selected].
  destruct k; try discriminate;
    destruct (String.eqb fv "period");
    cbn [filters periodFilters sliderFilters textFilters];
    repeat split; trivial;
    try (apply similar_set_empty; [assumption|]; rewrite ?Hf, ?Hp; reflexivity).
Qed.

Lemma switches_without (r1 r2 : Obj.t state) (inputId fv : string) (k : inputType)
    (sel : list string) :
  discrete k = true ->
  switchHiddenSeries (r1 ++ (inputId, mkState fv k sel) :: r2) = switchHiddenSeries (r1 ++ r2) /\
  switchShownSeries (r1 ++ (inputId, mkState fv k sel) :: r2) = switchShownSeries (r1 ++ r2) /\
  legend_choice (r1 ++ (inputId, mkState fv k sel) :: r2) = legend_choice (r1 ++ r2).
Proof.
  intros Hk. unfold switchHiddenSeries, switchShownSeries, legend_choice.
  rewrite !flat_map_app, !fold_left_app. cbn [flat_map fold_left snd kind].
  destruct k; try discriminate; repeat split.
Qed.

(** C9, as amended. A control that selects values and has nothing
    selected is inactive: filter application gives every chart the state
    it gives when the control is taken out of the registry, on both
    paths, provided no control registered before it selects values for
    the same filter variable. *)
Theorem empty_selection_is_inactive (e : engine) (r1 r2 : Obj.t state)
    (inputId fv : string) (k : inputType) :
  discrete k = true ->
  inputState e = r1 ++ (inputId, mkState fv k []) :: r2 ->
  (forall j st, In (j, st) r1 -> discrete (kind st) = true -> filterVar st <> fv) ->
  charts (applyAllFilters e)
  = charts (applyAllFilters
              (mkEngine (r1 ++ r2) (defaultValues e) (choicesInstances e) (document e)
                        (charts e) (globals e))).
Proof.
  intros Hk Hregistry Hother.
  destruct (charts_applyAllFilters e) as (-> & _ & _).
  destruct (charts_applyAllFilters
              (mkEngine (r1 ++ r2) (defaultValues e) (choicesInstances e) (document e)
                        (charts e) (globals e))) as (-> & _ & _).
  cbn [charts inputState globals]. rewrite Hregistry.
  apply map_ext. intros c.
  destruct (switches_without r1 r2 inputId fv k [] Hk) as (Hhidden & Hshown & Hlegend).
  apply apply_chart_similar; trivial.
  now apply collect_without.
Qed.

Lemma empty_selection_is_inactive_witness :
  let registry := [("period", mkState "period" radio ["2015-2019"]);
                   ("country_boxes", mkState "country" checkbox [])] in
  charts (applyAllFilters (Sample.page registry [Sample.years_chart] Sample.no_globals))
  = charts (applyAllFilters
              (Sample.page (Sample.period_radio "2015-2019") [Sample.years_chart]
                           Sample.no_globals)).
Proof.
  intros registry.
  apply (empty_selection_is_inactive
           (Sample.page registry [Sample.years_chart] Sample.no_globals)
           [("period", mkState "period" radio ["2015-2019"])] []
           "country_boxes" "country" checkbox).
  - reflexivity.
  - reflexivity.
  - intros j st [[= <- <-]|[]] _. discriminate.
Defined.

(** C9 as stated fails when an earlier control is bound to the same
    filter variable: the registry keeps one selection per variable, so
    the empty check-box group replaces the select's "DE", and both series
    stay visible; without the check-box group "NL" is hidden. *)
Lemma empty_selection_counterexample :
  let with_boxes := [("country_select", mkState "country" select ["DE"]);
                     ("country_boxes", mkState "country" checkbox [])] in
  let without := [("country_select", mkState "country" select ["DE"])] in
  let shown registry :=
    map (fun c => map (fun s => (name s, visible s)) (chart_series c))
        (charts (applyAllFilters
                   (Sample.page registry [Sample.years_chart] Sample.no_globals))) in
  shown with_boxes = [[("DE", true); ("NL", true)]] /\
  shown without = [[("DE", true); ("NL", false)]].
Proof. split; reflexivity. Qed.

(* ================================================================== *)
(** * Further properties of the engine *)
(* ================================================================== *)

(** ** Every filter is a test on the category *)

Lemma apply_slider_passes (cats : list jsval) (info : sliderInfo) (vis : list nat) :
  apply_slider cats info vis = filter (slider_passes cats info) vis.
Proof.
  unfold apply_slider, slider_passes. destruct (has_labels info); [|reflexivity].
  destruct (startLabel info) as [label|]; [|symmetry; apply filter_true].
  destruct (truthy label); [|symmetry; apply filter_true].
  destruct (findIndex _ cats); [reflexivity|symmetry; apply filter_true].
Qed.

Lemma apply_sliderFilters_forallb (cats : list jsval) (sf : Obj.t sliderInfo) (vis : list nat) :
  apply_sliderFilters cats sf vis
  = filter (fun idx => forallb (fun e => slider_passes cats (snd e) idx) sf) vis.
Proof.
  unfold apply_sliderFilters.
  rewrite (fold_left_ext_in _ (fun vis e => filter (slider_passes cats (snd e)) vis))
    by (intros; apply apply_slider_passes).
  apply (fold_left_filter (fun e => slider_passes cats (snd e))).
Qed.

Lemma filter_filter {A : Type} (p q : A -> bool) (l : list A) :
  filter p (filter q l) = filter (fun a => q a && p a) l.
Proof.
  induction l as [|a l IH]; cbn; [reflexivity|].
  destruct (q a); cbn; [destruct (p a)|]; now rewrite IH.
Qed.

(** The visible indices, as one filter over all positions. *)
Lemma visibleCategoryIndices_filter (cats : list jsval) (fs : filterSets) :
  visibleCategoryIndices cats fs
  = filter (fun idx =>
              forallb (fun e => period_passes cats (snd e) idx) (periodFilters fs) &&
              forallb (fun e => category_passes cats (snd e) idx) (filters fs) &&
              forallb (fun e => slider_passes cats (snd e) idx) (sliderFilters fs))
           (seq 0 (List.length cats)).
Proof.
  unfold visibleCategoryIndices.
  rewrite apply_sliderFilters_forallb, apply_categoryFilters_forallb,
    apply_periodFilters_forallb.
  rewrite !filter_filter. apply filter_ext. intros idx.
  now rewrite ?andb_assoc.
Qed.

Lemma visible_index_bound (cats : list jsval) (fs : filterSets) (idx : nat) :
  In idx (visibleCategoryIndices cats fs) -> (idx < List.length cats)%nat.
Proof.
  rewrite visibleCategoryIndices_filter, filter_In, in_seq. lia.
Qed.

(** X1. A category stays visible exactly when it passes every period
    preset, every discrete filter and every slider: the filters combine
    by conjunction, whatever the order of the controls. *)
Theorem visible_iff_every_filter_passes (cats : list jsval) (fs : filterSets) (idx : nat) :
  In idx (visibleCategoryIndices cats fs) <->
  (idx < List.length cats)%nat /\
  (forall fv sel, In (fv, sel) (periodFilters fs) -> period_passes cats sel idx = true) /\
  (forall fv sel, In (fv, sel) (filters fs) -> category_passes cats sel idx = true) /\
  (forall fv info, In (fv, info) (sliderFilters fs) -> slider_passes cats info idx = true).
Proof.
  rewrite visibleCategoryIndices_filter, filter_In, in_seq, !andb_true_iff, !forallb_forall.
  split.
  - intros (Hidx & (Hp & Hc) & Hs). split; [lia|].
    repeat split; intros fv x Hin; [apply (Hp (fv, x))|apply (Hc (fv, x))|apply (Hs (fv, x))];
      exact Hin.
  - intros (Hidx & Hp & Hc & Hs). split; [lia|].
    repeat split; intros [fv x] Hin; cbn [snd]; eauto.
Qed.

Lemma categories_at_subsequence (p : nat -> bool) (pre cats : list jsval) :
  subsequence
    (categories_at (pre ++ cats) (filter p (seq (List.length pre) (List.length cats))))
    cats.
Proof.
  revert pre. induction cats as [|c cats IH]; intros pre; [constructor|].
  cbn [List.length seq filter].
  specialize (IH (pre ++ [c])).
  rewrite <- app_assoc, length_app in IH. cbn [List.length app] in IH.
  rewrite Nat.add_1_r in IH.
  destruct (p (List.length pre)).
  - unfold categories_at in *. cbn [flat_map].
    rewrite nth_error_app2 by lia. rewrite Nat.sub_diag. cbn [nth_error app].
    now constructor.
  - now constructor.
Qed.

(** X2. The surviving categories are the original ones with some left
    out: filtering never reorders, repeats or invents a label. *)
Theorem surviving_is_subsequence (cats : list jsval) (registry : Obj.t state) :
  subsequence (surviving cats registry) cats.
Proof.
  unfold surviving. rewrite visibleCategoryIndices_filter.
  exact (categories_at_subsequence _ [] cats).
Qed.

(** ** One point per label *)

Lemma categories_at_length (cats : list jsval) (vis : list nat) :
  (forall idx, In idx vis -> (idx < List.length cats)%nat) ->
  List.length (categories_at cats vis) = List.length vis.
Proof.
  induction vis as [|idx vis IH]; intros H; [reflexivity|].
  unfold categories_at in *. cbn [flat_map]. rewrite length_app, IH.
  - destruct (nth_error cats idx) eqn:E; [reflexivity|].
    apply nth_error_None in E. specialize (H idx (or_introl eq_refl)). lia.
  - intros idx' Hin. apply H. now right.
Qed.

Lemma surviving_length (cats : list jsval) (registry : Obj.t state) :
  List.length (surviving cats registry)
  = List.length (visibleCategoryIndices cats (collect registry)).
Proof.
  unfold surviving. apply categories_at_length.
  intros idx Hin. now apply visible_index_bound in Hin.
Qed.

Lemma storeOriginal_chart_fields (c : chart) :
  chart_id (storeOriginal_chart c) = chart_id c /\
  originalCategories (storeOriginal_chart c) = originalCategories c /\
  chart_series (storeOriginal_chart c) = map storeOriginal_series (chart_series c).
Proof. repeat split. Qed.

Lemma storeOriginal_series_snapshot (s : series) :
  snapshot (storeOriginal_series s) <> None.
Proof. unfold storeOriginal_series. destruct (snapshot s) eqn:E; cbn; congruence. Qed.

(** X3. After the snapshot capture and a filter application, every
    visible series of a chart with categories (not rebuilt from cross-tab
    data) holds exactly one point per surviving category. *)
Theorem shown_series_have_one_point_per_label (e : engine) (i : nat) (c : chart)
    (cats : list jsval) :
  nth_error (charts e) i = Some c ->
  rebuilt_from_crossTab (globals e) c = false ->
  originalCategories c = Some cats ->
  exists c',
    nth_error (charts (applyAllFilters (storeOriginalData e))) i = Some c' /\
    forall s', In s' (chart_series c') -> visible s' = true ->
      List.length (data s') = List.length (surviving cats (inputState e)).
Proof.
  intros Hc Hpath Hcats.
  assert (Hc1 : nth_error (charts (storeOriginalData e)) i = Some (storeOriginal_chart c))
    by (cbn [storeOriginalData charts]; now apply map_nth_error).
  eexists. split; [exact (applyAllFilters_chart _ i _ Hc1)|].
  cbn [storeOriginalData globals inputState].
  rewrite apply_chart_regular by exact Hpath.
  rewrite filter_chart_fields. cbn [chart_series storeOriginal_chart with_series].
  intros s' Hin Hvis. apply in_map_iff in Hin. destruct Hin as (s1 & <- & Hin).
  apply in_map_iff in Hin. destruct Hin as (s & <- & _).
  rewrite filter_series_after in Hvis |- *.
  change (originalCategories (storeOriginal_chart c)) with (originalCategories c) in *.
  rewrite Hcats in *. unfold series_after in *. cbn [visible data] in *. rewrite Hvis.
  rewrite surviving_length. unfold visible_of.
  pose proof (storeOriginal_series_snapshot s) as Hsnap.
  destruct (rebuilt_data _ _ _ _); [|destruct (snapshot (storeOriginal_series s)); [|congruence]];
    unfold filteredData_categories; now rewrite length_map.
Qed.

(** ** One selection per filter variable *)

Lemma collect_after (fv : string) (sel : list string) (r2 : Obj.t state) (fs : filterSets) :
  (forall j st, In (j, st) r2 -> discrete (kind st) = true -> filterVar st <> fv) ->
  Obj.get fv (filters fs) = Some sel ->
  Obj.get fv (filters (fold_left collect_one r2 fs)) = Some sel.
Proof.
  intros Hother Hget. now rewrite (proj1 (collect_other_variable fv r2 fs Hother)).
Qed.

(** X4. The engine keeps one selection per filter variable: the one of
    the last select, check-box group, radio group or button group bound
    to it. *)
Theorem last_control_of_a_variable_wins (r1 r2 : Obj.t state) (inputId fv : string)
    (k : inputType) (sel : list string) :
  discrete k = true ->
  fv <> "period" ->
  (forall j st, In (j, st) r2 -> discrete (kind st) = true -> filterVar st <> fv) ->
  Obj.get fv (filters (collect (r1 ++ (inputId, mkState fv k sel) :: r2))) = Some sel.
Proof.
  intros Hk Hfv Hother. unfold collect. rewrite fold_left_app. cbn [fold_left].
  apply collect_after; [exact Hother|].
  apply String.eqb_neq in Hfv.
  unfold collect_one. cbn [snd kind filterVar selected].
  destruct k; try discriminate; rewrite Hfv; cbn [filters]; apply get_set_eq.
Qed.

(** ** Which series are shown *)

Lemma showSeries_forallb (fs : filterSets) (seriesNames : list string) (nm : string) :
  showSeries fs seriesNames nm
  = forallb (fun e => negb (text_hides seriesNames nm (snd e))) (textFilters fs) &&
    forallb (fun e => negb (filter_hides seriesNames nm (snd e))) (filters fs).
Proof.
  unfold showSeries.
  rewrite (fold_left_hide (fun e => filter_hides seriesNames nm (snd e))).
  rewrite (fold_left_hide (fun e => text_hides seriesNames nm (snd e))).
  reflexivity.
Qed.

(** The names and the visibility of the series after one run of the
    regular path. *)
Lemma regular_chart_series (e : engine) (i : nat) (c : chart) :
  nth_error (charts e) i = Some c ->
  rebuilt_from_crossTab (globals e) c = false ->
  exists c',
    nth_error (charts (applyAllFilters e)) i = Some c' /\
    chart_series c'
    = map (series_after (globals e) (inputState e) (collect (inputState e))
             (map name (chart_series c)) (originalCategories c) (hasNumericXAxis c))
          (chart_series c).
Proof.
  intros Hc Hpath. eexists. split; [exact (applyAllFilters_chart e i c Hc)|].
  rewrite (apply_chart_regular _ _ _ _ Hpath), filter_chart_fields. cbn [chart_series].
  apply map_ext. intros s. apply filter_series_after.
Qed.

(** X5. On the regular path, when the selection in force for a filter
    variable names at least one series of the chart, a series it does
    not name is hidden, unless a switch with override shows it. *)
Theorem selection_hides_unselected_series (e : engine) (i : nat) (c : chart)
    (fv : string) (sel : list string) :
  nth_error (charts e) i = Some c ->
  rebuilt_from_crossTab (globals e) c = false ->
  Obj.get fv (filters (collect (inputState e))) = Some sel ->
  (exists nm, In nm sel /\ In nm (map name (chart_series c))) ->
  exists c',
    nth_error (charts (applyAllFilters e)) i = Some c' /\
    forall s', In s' (chart_series c') -> visible s' = true ->
      In (name s') sel \/ In (name s') (switchShownSeries (inputState e)).
Proof.
  intros Hc Hpath Hget (nm & Hsel & Hnames).
  destruct (regular_chart_series e i c Hc Hpath) as (c' & Hc' & Hseries).
  exists c'. split; [exact Hc'|]. rewrite Hseries.
  intros s' Hin Hvis. apply in_map_iff in Hin. destruct Hin as (s & <- & _).
  unfold series_after in *. cbn [visible name] in *. unfold series_shown in Hvis.
  apply andb_true_iff in Hvis. destruct Hvis as [_ Hvis].
  apply orb_true_iff in Hvis. destruct Hvis as [Hshown|Hshow].
  - right. now apply mem_In.
  - left. rewrite showSeries_forallb in Hshow. apply andb_true_iff in Hshow.
    destruct Hshow as [_ Hshow]. rewrite forallb_forall in Hshow.
    specialize (Hshow (fv, sel) (get_In _ _ _ Hget)). cbn [snd] in Hshow.
    unfold filter_hides in Hshow. destruct sel as [|v rest]; [destruct Hsel|].
    assert (Hover : overlaps (v :: rest) (map name (chart_series c)) = true).
    { unfold overlaps. apply orb_true_iff. left. apply existsb_exists.
      exists nm. split; [exact Hsel|now apply mem_In]. }
    rewrite Hover in Hshow. cbn [andb] in Hshow.
    apply negb_true_iff, negb_false_iff in Hshow. now apply mem_In.
Qed.

(** X6. A switch that is on, toggles a series name and has override set
    shows every series of that name, whatever the other filters select,
    unless a switch that is off toggles the same name. *)
Theorem override_switch_shows_series (e : engine) (i : nat) (c : chart)
    (inputId : string) (st : state) (toggled : string) :
  nth_error (charts e) i = Some c ->
  rebuilt_from_crossTab (globals e) c = false ->
  In (inputId, st) (inputState e) ->
  kind st = switch true (Some toggled) true ->
  toggled <> "" ->
  ~ In toggled (switchHiddenSeries (inputState e)) ->
  exists c',
    nth_error (charts (applyAllFilters e)) i = Some c' /\
    forall s', In s' (chart_series c') -> name s' = toggled ->
      visible s' = true /\ showInLegend s' = true.
Proof.
  intros Hc Hpath Hin Hkind Hts Hoff.
  destruct (regular_chart_series e i c Hc Hpath) as (c' & Hc' & Hseries).
  exists c'. split; [exact Hc'|]. rewrite Hseries.
  intros s' Hs' Hname. apply in_map_iff in Hs'. destruct Hs' as (s & <- & _).
  unfold series_after in *. cbn [visible showInLegend name] in *. subst toggled.
  assert (Hshown : series_shown (inputState e) (collect (inputState e))
                     (map name (chart_series c)) (name s) = true).
  { unfold series_shown. apply andb_true_iff. split.
    - apply negb_true_iff. destruct (mem _ _) eqn:E; [|reflexivity].
      apply mem_In in E. contradiction.
    - apply orb_true_iff. left. apply mem_In. unfold switchShownSeries.
      apply in_flat_map. exists (inputId, st). split; [exact Hin|]. cbn [snd].
      rewrite Hkind. apply String.eqb_neq in Hts. unfold nonempty_string. rewrite Hts.
      now left. }
  now rewrite Hshown.
Qed.

(** X7. Filters that do not refer to the series of a chart hide none of
    them: with series names and search texts in ASCII, when no selection
    in force names a series, no search text occurs in a series name and
    no switch that is off toggles a series, every series of the chart is
    shown and in the legend. *)
Theorem unrelated_filters_hide_no_series (e : engine) (i : nat) (c : chart) :
  nth_error (charts e) i = Some c ->
  rebuilt_from_crossTab (globals e) c = false ->
  ascii_search (inputState e) c ->
  (forall fv sel nm, In (fv, sel) (filters (collect (inputState e))) ->
                     In nm sel -> ~ In nm (map name (chart_series c))) ->
  (forall fv searchText s, In (fv, searchText) (textFilters (collect (inputState e))) ->
                           In s (chart_series c) -> name_matches searchText (name s) = false) ->
  switchHiddenSeries (inputState e) = [] ->
  exists c',
    nth_error (charts (applyAllFilters e)) i = Some c' /\
    forall s', In s' (chart_series c') -> visible s' = true /\ showInLegend s' = true.
Proof.
  intros Hc Hpath _ Hsel Htext Hoff.
  destruct (regular_chart_series e i c Hc Hpath) as (c' & Hc' & Hseries).
  exists c'. split; [exact Hc'|]. rewrite Hseries.
  intros s' Hs'. apply in_map_iff in Hs'. destruct Hs' as (s & <- & Hs).
  unfold series_after. cbn [visible showInLegend].
  assert (Hshown : series_shown (inputState e) (collect (inputState e))
                     (map name (chart_series c)) (name s) = true).
  { unfold series_shown. rewrite Hoff. cbn [mem existsb negb andb].
    apply orb_true_iff. right. rewrite showSeries_forallb. apply andb_true_iff. split.
    - apply forallb_forall. intros [fv q] Hin. cbn [snd]. apply negb_true_iff.
      unfold text_hides. apply andb_false_iff. left.
      destruct (existsb _ _) eqn:E; [|reflexivity].
      apply existsb_exists in E. destruct E as (nm & Hnm & Hinc).
      apply in_map_iff in Hnm. destruct Hnm as (s0 & <- & Hs0).
      specialize (Htext fv q s0 Hin Hs0). unfold name_matches in Htext. congruence.
    - apply forallb_forall. intros [fv sel] Hin. cbn [snd]. apply negb_true_iff.
      unfold filter_hides. destruct sel as [|v rest]; [reflexivity|].
      apply andb_false_iff. left. unfold overlaps. apply orb_false_iff. split.
      + destruct (existsb _ _) eqn:E; [|reflexivity].
        apply existsb_exists in E. destruct E as (nm & Hnm & Hmem).
        apply mem_In in Hmem. now destruct (Hsel fv _ nm Hin Hnm).
      + destruct (existsb _ (map name (chart_series c))) eqn:E; [|reflexivity].
        apply existsb_exists in E. destruct E as (nm & Hnm & Hmem).
        apply mem_In in Hmem. now destruct (Hsel fv _ nm Hin Hmem). }
  now rewrite Hshown.
Qed.

(** The controls that are not text inputs bound to [fv], and the text
    inputs that are blank, leave the search text of [fv] alone. *)
Lemma collect_other_text (fv : string) (registry : Obj.t state) (fs : filterSets) :
  (forall j st v, In (j, st) registry -> kind st = text v -> blank v = false ->
                  filterVar st <> fv) ->
  Obj.get fv (textFilters (fold_left collect_one registry fs)) = Obj.get fv (textFilters fs).
Proof.
  revert fs. induction registry as [|[j st] registry IH]; intros fs Hother; [reflexivity|].
  cbn [fold_left]. rewrite IH by (intros j' st' v' Hin; apply (Hother j' st' v'); now right).
  specialize (Hother j st). unfold collect_one. cbn [snd].
  destruct (kind st) as [| | | | | |v|] eqn:Hkind; try reflexivity.
  - now destruct (String.eqb (filterVar st) "period").
  - now destruct (String.eqb (filterVar st) "period").
  - now destruct (String.eqb (filterVar st) "period").
  - now destruct (String.eqb (filterVar st) "period").
  - specialize (Hother v (or_introl eq_refl) eq_refl). unfold blank in Hother.
    destruct (nonempty_string v && nonempty_string (trim v)); [|reflexivity].
    cbn [textFilters]. apply get_set_neq. apply not_eq_sym. now apply Hother.
Qed.

(** X8. A text input that is not blank searches the series names with
    its value trimmed and in lower case: on the regular path, with
    series names and search texts in ASCII, when the text occurs in the
    name of at least one series of the chart, a series whose name does
    not hold it is hidden, unless a switch with override shows it. *)
Theorem search_text_hides_unmatched_series (e : engine) (i : nat) (c : chart)
    (r1 r2 : Obj.t state) (inputId fv v : string) (sel : list string) :
  nth_error (charts e) i = Some c ->
  rebuilt_from_crossTab (globals e) c = false ->
  inputState e = r1 ++ (inputId, mkState fv (text v) sel) :: r2 ->
  ascii_search (inputState e) c ->
  blank v = false ->
  (forall j st v', In (j, st) r2 -> kind st = text v' -> blank v' = false ->
                   filterVar st <> fv) ->
  (exists s, In s (chart_series c) /\ name_matches (toLowerCase (trim v)) (name s) = true) ->
  exists c',
    nth_error (charts (applyAllFilters e)) i = Some c' /\
    forall s', In s' (chart_series c') -> visible s' = true ->
      name_matches (toLowerCase (trim v)) (name s') = true \/
      In (name s') (switchShownSeries (inputState e)).
Proof.
  intros Hc Hpath Hregistry _ Hblank Hother (s0 & Hs0 & Hmatch).
  assert (Hget : Obj.get fv (textFilters (collect (inputState e))) = Some (toLowerCase (trim v))).
  { rewrite Hregistry. unfold collect. rewrite fold_left_app. cbn [fold_left].
    rewrite (collect_other_text fv r2 _ Hother).
    unfold collect_one. cbn [snd kind filterVar]. unfold blank in Hblank.
    apply negb_false_iff in Hblank. rewrite Hblank. cbn [textFilters]. apply get_set_eq. }
  destruct (regular_chart_series e i c Hc Hpath) as (c' & Hc' & Hseries).
  exists c'. split; [exact Hc'|]. rewrite Hseries.
  intros s' Hin Hvis. apply in_map_iff in Hin. destruct Hin as (s & <- & _).
  unfold series_after in *. cbn [visible name] in *. unfold series_shown in Hvis.
  apply andb_true_iff in Hvis. destruct Hvis as [_ Hvis].
  apply orb_true_iff in Hvis. destruct Hvis as [Hshown|Hshow].
  - right. now apply mem_In.
  - left. rewrite showSeries_forallb in Hshow. apply andb_true_iff in Hshow.
    destruct Hshow as [Hshow _]. rewrite forallb_forall in Hshow.
    specialize (Hshow _ (get_In _ _ _ Hget)). cbn [snd] in Hshow.
    unfold text_hides in Hshow.
    assert (Hsome : existsb (fun nm => includes (toLowerCase nm) (toLowerCase (trim v)))
                      (map name (chart_series c)) = true).
    { apply existsb_exists. exists (name s0). split; [now apply in_map|exact Hmatch]. }
    rewrite Hsome in Hshow. cbn [andb] in Hshow.
    now apply negb_true_iff, negb_false_iff in Hshow.
Qed.

(** ** Controls the charts do not read *)

Lemma unread_collect_one (fs fs' : filterSets) (a b : string * state) :
  filters fs' = filters fs -> sliderFilters fs' = sliderFilters fs ->
  textFilters fs' = textFilters fs -> periodFilters fs' = periodFilters fs ->
  a = b \/ (unread (snd a) = true /\ unread (snd b) = true) ->
  filters (collect_one fs' b) = filters (collect_one fs a) /\
  sliderFilters (collect_one fs' b) = sliderFilters (collect_one fs a) /\
  textFilters (collect_one fs' b) = textFilters (collect_one fs a) /\
  periodFilters (collect_one fs' b) = periodFilters (collect_one fs a).
Proof.
  intros Hf Hs Ht Hp [<-|[Ha Hb]].
  - unfold collect_one. destruct (kind (snd a));
      try destruct (String.eqb (filterVar (snd a)) "period");
      try destruct (nonempty_string value && nonempty_string (trim value));
      cbn [filters sliderFilters textFilters periodFilters]; rewrite ?Hf, ?Hs, ?Ht, ?Hp;
      repeat split.
  - unfold unread in Ha, Hb. unfold collect_one.
    destruct (kind (snd a)); try discriminate; destruct (kind (snd b)); try discriminate;
      cbn [filters sliderFilters textFilters periodFilters]; repeat split; assumption.
Qed.

Lemma unread_collect (r r' : Obj.t state) (fs fs' : filterSets) :
  same_but_unread r r' ->
  filters fs' = filters fs -> sliderFilters fs' = sliderFilters fs ->
  textFilters fs' = textFilters fs -> periodFilters fs' = periodFilters fs ->
  filters (fold_left collect_one r' fs') = filters (fold_left collect_one r fs) /\
  sliderFilters (fold_left collect_one r' fs') = sliderFilters (fold_left collect_one r fs) /\
  textFilters (fold_left collect_one r' fs') = textFilters (fold_left collect_one r fs) /\
  periodFilters (fold_left collect_one r' fs') = periodFilters (fold_left collect_one r fs).
Proof.
  intros Hsame. revert fs fs'. induction Hsame as [|a b r r' Hab _ IH]; intros fs fs' Hf Hs Ht Hp.
  - repeat split; assumption.
  - cbn [fold_left].
    destruct (unread_collect_one fs fs' a b Hf Hs Ht Hp Hab) as (Hf1 & Hs1 & Ht1 & Hp1).
    now apply IH.
Qed.

Lemma unread_switches (r r' : Obj.t state) :
  same_but_unread r r' ->
  switchHiddenSeries r' = switchHiddenSeries r /\
  switchShownSeries r' = switchShownSeries r /\
  legend_choice r' = legend_choice r.
Proof.
  intros Hsame. unfold switchHiddenSeries, switchShownSeries, legend_choice.
  generalize (@None bool) as acc.
  induction Hsame as [|a b r r' Hab _ IH]; intros acc; [repeat split|].
  cbn [flat_map fold_left].
  assert (Hone :
    match kind (snd b) with
    | switch v (Some ts) _ => if nonempty_string ts && negb v then [ts] else []
    | _ => []
    end
    = match kind (snd a) with
      | switch v (Some ts) _ => if nonempty_string ts && negb v then [ts] else []
      | _ => []
      end /\
    match kind (snd b) with
    | switch v (Some ts) ov => if nonempty_string ts && v && ov then [ts] else []
    | _ => []
    end
    = match kind (snd a) with
      | switch v (Some ts) ov => if nonempty_string ts && v && ov then [ts] else []
      | _ => []
      end /\
    match kind (snd b) with
    | switch v _ _ => if String.eqb (filterVar (snd b)) "show_legend" then Some v else acc
    | _ => acc
    end
    = match kind (snd a) with
      | switch v _ _ => if String.eqb (filterVar (snd a)) "show_legend" then Some v else acc
      | _ => acc
      end).
  { destruct Hab as [<-|[Ha Hb]]; [repeat split|].
    unfold unread in Ha, Hb.
    destruct (kind (snd a)) as [| | | |va tsa ova| | |]; try discriminate;
      destruct (kind (snd b)) as [| | | |vb tsb ovb| | |]; try discriminate;
      try (apply andb_true_iff in Ha; destruct Ha as [Ha1 Ha2];
           apply negb_true_iff in Ha1; rewrite Ha1);
      try (apply andb_true_iff in Hb; destruct Hb as [Hb1 Hb2];
           apply negb_true_iff in Hb1; rewrite Hb1);
      try (destruct tsa as [nma|]; [apply negb_true_iff in Ha2; rewrite Ha2|]);
      try (destruct tsb as [nmb|]; [apply negb_true_iff in Hb2; rewrite Hb2|]);
      repeat split. }
  destruct Hone as (H1 & H2 & H3). rewrite H1, H2, H3.
  destruct (IH (match kind (snd a) with
                | switch v _ _ =>
                    if String.eqb (filterVar (snd a)) "show_legend" then Some v else acc
                | _ => acc
                end)) as (I1 & I2 & I3).
  now rewrite I1, I2, I3.
Qed.

(** X9. Number inputs, and switches that neither toggle a series nor
    are bound to [show_legend], are never read by a filter application:
    two registries that differ in such controls only give the same
    charts. *)
Theorem unread_controls_change_no_chart (e : engine) (registry' : Obj.t state) :
  same_but_unread (inputState e) registry' ->
  charts (applyAllFilters
            (mkEngine registry' (defaultValues e) (choicesInstances e) (document e)
                      (charts e) (globals e)))
  = charts (applyAllFilters e).
Proof.
  intros Hsame.
  destruct (charts_applyAllFilters e) as (-> & _ & _).
  destruct (charts_applyAllFilters
              (mkEngine registry' (defaultValues e) (choicesInstances e) (document e)
                        (charts e) (globals e))) as (-> & _ & _).
  cbn [charts inputState globals]. apply map_ext. intros c.
  destruct (unread_switches _ _ Hsame) as (Hhidden & Hshown & Hlegend).
  apply apply_chart_similar; trivial.
  destruct (unread_collect _ _ no_filters no_filters Hsame eq_refl eq_refl eq_refl eq_refl)
    as (Hf & Hs & Ht & Hp).
  fold (collect registry') in Hf, Hs, Ht, Hp. fold (collect (inputState e)) in Hf, Hs, Ht, Hp.
  destruct (collect_keys (inputState e)) as (Hsf & Hsp & _ & _).
  unfold similar_sets. rewrite Hf, Hp, Hs, Ht. repeat split; trivial; apply Hsf || apply Hsp.
Qed.

(** X10. The selection in force for the filter variable [chart_type],
    when its first value is not empty and names no property inherited
    from [Object.prototype], gives every series of a chart on the
    regular path one type: area for "Area", column for "Column", line
    for any other value. *)
Theorem chart_type_sets_every_series_type (e : engine) (i : nat) (c : chart)
    (chartType : string) (rest : list string) :
  nth_error (charts e) i = Some c ->
  rebuilt_from_crossTab (globals e) c = false ->
  Obj.get "chart_type" (filters (collect (inputState e))) = Some (chartType :: rest) ->
  chartType <> "" ->
  ~ In chartType inherited_properties ->
  exists c',
    nth_error (charts (applyAllFilters e)) i = Some c' /\
    forall s', In s' (chart_series c') ->
      type s' = Some (if String.eqb chartType "Area" then "area"
                      else if String.eqb chartType "Column" then "column"
                      else "line").
Proof.
  intros Hc Hpath Hget Hne _.
  destruct (regular_chart_series e i c Hc Hpath) as (c' & Hc' & Hseries).
  exists c'. split; [exact Hc'|].
  rewrite Hseries. intros s' Hs'. apply in_map_iff in Hs'. destruct Hs' as (s & <- & _).
  unfold series_after. cbn [type].
  destruct (collect_keys (inputState e)) as ((Hnd & _ & _) & _).
  rewrite (type_choice_get _ Hnd), Hget. cbn [active].
  apply String.eqb_neq in Hne. unfold nonempty_string. rewrite Hne. cbn [negb or_else].
  unfold typeMap.
  destruct (String.eqb_spec chartType "Line") as [->|_]; [reflexivity|].
  destruct (String.eqb chartType "Area"); [reflexivity|].
  now destruct (String.eqb chartType "Column").
Qed.

(** ** The cross-tab rebuild: what it reads and what it writes *)

(** X11. The rebuild reads the selections of the filter variables its
    config lists, and no other: two filter objects that agree on them
    give the same chart. *)
Theorem crossTab_reads_listed_variables_only (c : chart) (info : crossTabInfo)
    (cfg : config) (flt flt' : Obj.t (list string)) :
  ct_config info = Some cfg ->
  (forall fv, In fv (filterVars cfg) -> Obj.get fv flt' = Obj.get fv flt) ->
  rebuildFromCrossTab c info flt' = rebuildFromCrossTab c info flt.
Proof.
  intros Hcfg Hagree. unfold rebuildFromCrossTab. rewrite Hcfg.
  destruct (ct_data info) as [rows|]; [|reflexivity].
  assert (Hrows : filter_rows (filterVars cfg) flt' rows = filter_rows (filterVars cfg) flt rows).
  { unfold filter_rows. apply fold_left_ext_in. intros a fv Hin.
    unfold filter_on. now rewrite (Hagree fv Hin). }
  now rewrite Hrows.
Qed.

Lemma data_rewritten_refl (s : series) : data_rewritten s s.
Proof. exists (data s). now destruct s. Qed.

Lemma data_rewritten_setData (d : list point) (s s' : series) :
  data_rewritten s s' -> data_rewritten s (setData d s').
Proof. intros (d' & ->). exists d. reflexivity. Qed.

Lemma Forall2_update_right {A : Type} (R : A -> A -> Prop) (f : A -> A) (i : nat)
    (l l' : list A) :
  (forall a b, R a b -> R a (f b)) -> Forall2 R l l' -> Forall2 R l (update_at i f l').
Proof.
  intros Hf H. revert i. induction H as [|a b l l' Hab Hrest IH]; intros i.
  - destruct i; constructor.
  - destruct i as [|i]; cbn [update_at]; constructor; auto.
Qed.

Lemma emit_all_rewrites (isPercent : bool) (byX : Obj.t (Obj.t Q)) (xTotals : Obj.t Q)
    (orderedX : list jsval) (entries : list (nat * jsval)) (l0 l : list series) :
  Forall2 data_rewritten l0 l ->
  Forall2 data_rewritten l0 (fold_left (emit_series isPercent byX xTotals orderedX) entries l).
Proof.
  revert l. induction entries as [|[idx s] entries IH]; intros l H; [exact H|].
  cbn [fold_left]. apply IH. unfold emit_series.
  destruct (find_series l s idx); [|exact H].
  apply Forall2_update_right; [|exact H]. intros a b. apply data_rewritten_setData.
Qed.

(** X12. A rebuild from cross-tab data sets the category labels, gives
    some series new data and redraws once: the names, the visibility,
    the legend flags, the types and the snapshots of the series, their
    number, and the rest of the chart stay as they were. *)
Theorem rebuild_writes_labels_and_data_only (c rebuilt : chart) (info : crossTabInfo)
    (flt : Obj.t (list string)) :
  rebuildFromCrossTab c info flt = Some rebuilt ->
  exists labels l,
    rebuilt = redraw (with_series l (setCategories labels c)) /\
    Forall2 data_rewritten (chart_series c) l.
Proof.
  unfold rebuildFromCrossTab.
  destruct (ct_data info) as [rows|]; [|discriminate].
  destruct (ct_config info) as [cfg|]; [|discriminate].
  intros [= <-]. eexists. eexists. split; [reflexivity|].
  apply emit_all_rewrites. cbn [chart_series setCategories].
  apply Forall2_same. apply data_rewritten_refl.
Qed.

(** With no row left, every bucket is empty. *)
Lemma seriesData_no_rows (isPercent : bool) (orderedX : list jsval) (s : jsval) :
  seriesData_of isPercent Obj.empty Obj.empty orderedX s = map (fun _ => 0%Q) orderedX.
Proof.
  unfold seriesData_of. apply map_ext. intros x. unfold series_value.
  cbn. now destruct isPercent.
Qed.

Lemma emit_zeros (isPercent : bool) (orderedX : list jsval) (entries : list (nat * jsval))
    (l0 l : list series) :
  Forall2 (fun s s' => s' = s \/ s' = setData (map (fun _ => PNum 0) orderedX) s) l0 l ->
  Forall2 (fun s s' => s' = s \/ s' = setData (map (fun _ => PNum 0) orderedX) s) l0
          (fold_left (emit_series isPercent Obj.empty Obj.empty orderedX) entries l).
Proof.
  revert l. induction entries as [|[idx s] entries IH]; intros l H; [exact H|].
  cbn [fold_left]. apply IH. unfold emit_series.
  destruct (find_series l s idx); [|exact H].
  apply Forall2_update_right; [|exact H]. intros a b Hab. right.
  assert (Hdata : map PNum (seriesData_of isPercent Obj.empty Obj.empty orderedX s)
                  = map (fun _ => PNum 0) orderedX).
  { rewrite (seriesData_no_rows isPercent orderedX s), map_map. reflexivity. }
  rewrite Hdata. destruct Hab as [->| ->]; reflexivity.
Qed.

(** X13. When the selections leave no row, the rebuild sets the labels
    to the configured [xOrder] (to no label when none is configured) and
    writes zeros: every series either keeps its data or gets one zero
    per label. With no [stackOrder] configured no series is written at
    all, so every series keeps the data it had. *)
Theorem crossTab_without_rows (c : chart) (info : crossTabInfo) (rows : list row)
    (cfg : config) (flt : Obj.t (list string)) :
  ct_data info = Some rows ->
  ct_config info = Some cfg ->
  filter_rows (filterVars cfg) flt rows = [] ->
  exists rebuilt,
    rebuildFromCrossTab c info flt = Some rebuilt /\
    categories rebuilt = Some (xOrder cfg) /\
    Forall2 (fun s s' => s' = s \/ s' = setData (map (fun _ => PNum 0) (xOrder cfg)) s)
            (chart_series c) (chart_series rebuilt) /\
    (stackOrder cfg = [] -> chart_series rebuilt = chart_series c).
Proof.
  intros Hrows Hcfg Hempty. unfold rebuildFromCrossTab. rewrite Hrows, Hcfg, Hempty.
  eexists. split; [reflexivity|].
  assert (HX : orderedX_of cfg (organize (sum_rows (xVar cfg) (stackVar cfg) [])) = xOrder cfg).
  { unfold orderedX_of. now destruct (xOrder cfg). }
  rewrite HX. cbn [categories redraw with_series setCategories chart_series].
  split; [reflexivity|]. split.
  - apply (emit_zeros _ (xOrder cfg)). apply Forall2_same. now left.
  - intros Hstack. unfold orderedStack_of. rewrite Hstack. reflexivity.
Qed.

(** ** The cross-tab rebuild, cell by cell *)

Lemma cell_organize_item (byX : Obj.t (Obj.t Q)) (item : summedItem) (x s : string) :
  cell (organize_item byX item) x s
  = if item_in_cell x s item then Some (sum_n item) else cell byX x s.
Proof.
  unfold cell, organize_item, item_in_cell.
  destruct (String.eqb_spec (xVal item) x) as [<-|Hx]; cbn [andb].
  - rewrite get_set_eq.
    destruct (String.eqb_spec (stackVal item) s) as [<-|Hs].
    + apply get_set_eq.
    + rewrite get_set_neq by congruence.
      now destruct (Obj.get (xVal item) byX).
  - now rewrite get_set_neq by congruence.
Qed.

Lemma item_in_cell_key (x s : string) (a b : summedItem) :
  item_in_cell x s a = true -> item_in_cell x s b = true -> item_key a = item_key b.
Proof.
  unfold item_in_cell, item_key. rewrite !andb_true_iff, !String.eqb_eq.
  intros [-> ->] [-> ->]. reflexivity.
Qed.

Lemma cell_organize_fold (items : list summedItem) (acc : Obj.t (Obj.t Q)) (x s : string) :
  NoDup (map item_key items) ->
  cell (fold_left organize_item items acc) x s
  = match find (item_in_cell x s) items with
    | Some item => Some (sum_n item)
    | None => cell acc x s
    end.
Proof.
  revert acc. induction items as [|item items IH]; intros acc Hnd; [reflexivity|].
  cbn [map] in Hnd. inversion Hnd as [|? ? Hnotin Hnd']; subst.
  cbn [fold_left find]. rewrite (IH _ Hnd'), cell_organize_item.
  destruct (item_in_cell x s item) eqn:Hitem; [|reflexivity].
  destruct (find (item_in_cell x s) items) as [item'|] eqn:Hfind; [|reflexivity].
  exfalso. apply Hnotin. apply find_some in Hfind. destruct Hfind as [Hin Hcell].
  rewrite (item_in_cell_key x s item item' Hitem Hcell). now apply in_map.
Qed.

Lemma cell_sum_snoc (xv sv : string) (rows : list row) (r0 : row) (x s : string) :
  cell_sum xv sv (rows ++ [r0]) x s
  == cell_sum xv sv rows x s + (if in_cell xv sv x s r0 then row_n r0 else 0).
Proof.
  unfold cell_sum. rewrite filter_app, map_app. cbn [filter].
  induction (map row_n (filter (in_cell xv sv x s) rows)) as [|q l IH].
  - destruct (in_cell xv sv x s r0); unfold Qsum; cbn [map app fold_right]; ring.
  - cbn [app]. rewrite !Qsum_cons, IH. ring.
Qed.

Lemma cell_sum_none (xv sv : string) (rows : list row) (x s : string) :
  (forall r, In r rows -> in_cell xv sv x s r = false) ->
  cell_sum xv sv rows x s == 0.
Proof.
  intros H. unfold cell_sum.
  assert (Hnil : filter (in_cell xv sv x s) rows = []).
  { induction rows as [|r rows IH]; [reflexivity|]. cbn [filter].
    rewrite (H r) by now left. apply IH. intros r' Hr'. apply H. now right. }
  rewrite Hnil. reflexivity.
Qed.

Lemma in_cell_key (xv sv : string) (r r' : row) :
  in_cell xv sv (String_cell r xv) (String_cell r sv) r' = true ->
  key_of xv sv r' = key_of xv sv r.
Proof.
  unfold in_cell, key_of. rewrite andb_true_iff, !String.eqb_eq. now intros [-> ->].
Qed.

Lemma in_cell_self (xv sv : string) (r : row) :
  in_cell xv sv (String_cell r xv) (String_cell r sv) r = true.
Proof. unfold in_cell. now rewrite !String.eqb_refl. Qed.

(** One round of the summing loop. *)
Lemma sum_row_step (xv sv : string) (processed : list row) (r0 : row)
    (summed : Obj.t summedItem) :
  keys_distinguish xv sv (processed ++ [r0]) ->
  sums_rows xv sv processed summed ->
  sums_rows xv sv (processed ++ [r0]) (sum_row xv sv summed r0).
Proof.
  intros Hinj (Hnd & Hrows & Hkeys).
  assert (Hr0 : In r0 (processed ++ [r0])) by (apply in_or_app; right; now left).
  assert (Hin : forall r, In r processed -> In r (processed ++ [r0]))
    by (intros r Hr; apply in_or_app; now left).
  set (x0 := String_cell r0 xv). set (s0 := String_cell r0 sv).
  set (item0 := match Obj.get (key_of xv sv r0) summed with
                | Some it => it
                | None => mkSummed x0 s0 0
                end).
  assert (Hitem0 : xVal item0 = x0 /\ stackVal item0 = s0 /\
                   sum_n item0 == cell_sum xv sv processed x0 s0).
  { unfold item0. destruct (Obj.get (key_of xv sv r0) summed) as [it|] eqn:Hget.
    - destruct (Hkeys _ _ (get_In _ _ _ Hget)) as (r & Hr & Hk).
      destruct (Hrows r Hr) as (item & Hget' & Hx & Hs & Hsum).
      rewrite <- Hk, Hget in Hget'. injection Hget' as <-.
      destruct (Hinj r0 r Hr0 (Hin r Hr) Hk) as [Ex Es].
      unfold x0, s0. rewrite Ex, Es. auto.
    - cbn [xVal stackVal sum_n]. repeat split.
      symmetry. apply cell_sum_none. intros r Hr.
      destruct (in_cell xv sv x0 s0 r) eqn:E; [|reflexivity].
      apply in_cell_key in E. destruct (Hrows r Hr) as (item & Hget' & _).
      rewrite E in Hget'. congruence. }
  destruct Hitem0 as (Hx0 & Hs0 & Hsum0).
  change (sum_row xv sv summed r0)
    with (Obj.set (key_of xv sv r0)
                  (mkSummed (xVal item0) (stackVal item0) (sum_n item0 + row_n r0)) summed).
  split; [now apply NoDup_keys_set|]. split.
  - intros r Hr.
    destruct (string_dec (key_of xv sv r) (key_of xv sv r0)) as [Hk|Hk].
    + destruct (Hinj r r0 Hr Hr0 Hk) as [Ex Es].
      rewrite Hk, get_set_eq. eexists. split; [reflexivity|]. cbn [xVal stackVal sum_n].
      rewrite Ex, Es. fold x0 s0. repeat split; trivial.
      rewrite cell_sum_snoc, Hsum0. unfold x0, s0. rewrite in_cell_self. reflexivity.
    + apply in_app_or in Hr. destruct Hr as [Hr|[<-|[]]]; [|congruence].
      destruct (Hrows r Hr) as (item & Hget & Hx & Hs & Hsum).
      exists item. rewrite get_set_neq by exact Hk. repeat split; trivial.
      rewrite cell_sum_snoc, Hsum.
      destruct (in_cell xv sv (String_cell r xv) (String_cell r sv) r0) eqn:E.
      * apply in_cell_key in E. congruence.
      * ring.
  - intros k item Hitem. apply In_set in Hitem. destruct Hitem as [[= -> _]|Hitem].
    + now exists r0.
    + destruct (Hkeys k item Hitem) as (r & Hr & Hk). exists r. auto.
Qed.

Lemma sum_rows_fold (xv sv : string) (rest processed : list row) (summed : Obj.t summedItem) :
  keys_distinguish xv sv (processed ++ rest) ->
  sums_rows xv sv processed summed ->
  sums_rows xv sv (processed ++ rest) (fold_left (sum_row xv sv) rest summed).
Proof.
  revert processed summed. induction rest as [|r0 rest IH]; intros processed summed Hinj H.
  - now rewrite app_nil_r.
  - cbn [fold_left].
    replace (processed ++ r0 :: rest) with ((processed ++ [r0]) ++ rest) in *
      by (now rewrite <- app_assoc).
    apply IH; [exact Hinj|]. apply sum_row_step; [|exact H].
    intros r r' Hr Hr'. apply Hinj; apply in_or_app; now left.
Qed.

Lemma sum_rows_sums (xv sv : string) (rows : list row) :
  keys_distinguish xv sv rows -> sums_rows xv sv rows (sum_rows xv sv rows).
Proof.
  intros Hinj. apply (sum_rows_fold xv sv rows [] Obj.empty Hinj).
  split; [constructor|]. split; [intros r []|intros k item []].
Qed.

(** Every item sits under the key its own values give. *)
Lemma sums_rows_item_keys (xv sv : string) (rows : list row) (summed : Obj.t summedItem) :
  sums_rows xv sv rows summed ->
  map item_key (Obj.values summed) = Obj.keys summed.
Proof.
  intros (Hnd & Hrows & Hkeys). unfold Obj.values, Obj.keys. rewrite map_map.
  apply map_ext_in. intros [k item] Hin. cbn [fst snd].
  destruct (Hkeys k item Hin) as (r & Hr & ->).
  destruct (Hrows r Hr) as (item' & Hget & Hx & Hs & _).
  rewrite (In_get _ _ _ Hnd Hin) in Hget. injection Hget as <-.
  unfold item_key, key_of. now rewrite Hx, Hs.
Qed.

(** The count held for an x value and a stack value. *)
Lemma count_is_cell_sum (xv sv : string) (rows : list row) (x s : jsval) :
  keys_distinguish xv sv rows ->
  count_at (organize (sum_rows xv sv rows)) x s == cell_sum xv sv rows (String x) (String s).
Proof.
  intros Hinj. set (byX := organize (sum_rows xv sv rows)).
  pose proof (sum_rows_sums _ _ _ Hinj) as Hsums.
  pose proof (sums_rows_item_keys _ _ _ _ Hsums) as Hitemkeys.
  destruct Hsums as (Hnd & Hrows & Hkeys).
  assert (Hcell : count_at byX x s
                  == match cell byX (String x) (String s) with
                     | Some q => q
                     | None => 0
                     end).
  { unfold count_at, cell. destruct (Obj.get (String x) byX) as [inner|]; [|reflexivity].
    destruct (Obj.get (String s) inner); [apply Qzero_eq|reflexivity]. }
  rewrite Hcell. unfold byX, organize.
  rewrite cell_organize_fold by (rewrite Hitemkeys; exact Hnd). cbn [cell Obj.get Obj.empty].
  destruct (find _ _) as [item|] eqn:Hfind.
  - apply find_some in Hfind. destruct Hfind as [Hin Hcell'].
    unfold Obj.values in Hin. apply in_map_iff in Hin. destruct Hin as ([k it] & Heq & Hin).
    cbn [snd] in Heq. subst it.
    destruct (Hkeys k item Hin) as (r & Hr & ->).
    destruct (Hrows r Hr) as (item' & Hget & Hx & Hs & Hsum).
    rewrite (In_get _ _ _ Hnd Hin) in Hget. injection Hget as <-.
    unfold item_in_cell in Hcell'. rewrite andb_true_iff, !String.eqb_eq in Hcell'.
    destruct Hcell' as [Ex Es]. rewrite Hsum, <- Hx, <- Hs, Ex, Es. reflexivity.
  - symmetry. apply cell_sum_none. intros r Hr.
    destruct (in_cell _ _ _ _ r) eqn:E; [|reflexivity]. exfalso.
    destruct (Hrows r Hr) as (item & Hget & Hx & Hs & _).
    assert (Hno : item_in_cell (String x) (String s) item = false)
      by (apply (find_none _ _ Hfind item); now apply get_In_values in Hget).
    unfold in_cell in E. unfold item_in_cell in Hno. rewrite Hx, Hs in Hno. congruence.
Qed.

(** X14. The count the rebuild holds for an x value and a stack value
    is the total count of the filtered rows that carry both, provided
    the separator "|||" glues no two different pairs of values to the
    same key. In count mode this is the value emitted. *)
Theorem crossTab_cell_is_sum_of_rows (cfg : config) (flt : Obj.t (list string))
    (rows : list row) (x s : jsval) :
  let filteredData := filter_rows (filterVars cfg) flt rows in
  let byX := organize (sum_rows (xVar cfg) (stackVar cfg) filteredData) in
  keys_distinguish (xVar cfg) (stackVar cfg) filteredData ->
  count_at byX x s == cell_sum (xVar cfg) (stackVar cfg) filteredData (String x) (String s) /\
  series_value false byX (totals byX) s x
  == cell_sum (xVar cfg) (stackVar cfg) filteredData (String x) (String s).
Proof.
  intros filteredData byX Hinj.
  assert (Hcount := count_is_cell_sum _ _ _ x s Hinj). fold filteredData byX in Hcount.
  split; [exact Hcount|]. unfold series_value. exact Hcount.
Qed.

(** ** The totals of the buckets *)

Lemma Qsum_app (l1 l2 : list Q) : Qsum (l1 ++ l2) == Qsum l1 + Qsum l2.
Proof.
  induction l1 as [|q l1 IH]; cbn [app].
  - unfold Qsum at 2. cbn [fold_right]. ring.
  - rewrite !Qsum_cons, IH. ring.
Qed.

Lemma Qsum_values_set_fresh (k : string) (v : Q) (o : Obj.t Q) :
  Obj.has k o = false -> Qsum (Obj.values (Obj.set k v o)) == Qsum (Obj.values o) + v.
Proof.
  intros Hhas. destruct (set_split k v o Hhas) as (o1 & o2 & -> & ->).
  unfold Obj.values. rewrite !map_app. cbn [map snd]. rewrite !Qsum_app, Qsum_cons. ring.
Qed.

Lemma items_sum_snoc (x : string) (items : list summedItem) (item : summedItem) :
  items_sum x (items ++ [item])
  == items_sum x items + (if String.eqb (xVal item) x then sum_n item else 0).
Proof.
  unfold items_sum. rewrite filter_app, map_app, Qsum_app. cbn [filter].
  destruct (String.eqb (xVal item) x); unfold Qsum; cbn [map fold_right]; ring.
Qed.

(** The total of a bucket of [byX] is the total of the items of its x
    value. *)
Lemma organize_bucket_total (items : list summedItem) (x : string) :
  NoDup (map item_key items) ->
  bucket_total (fold_left organize_item items Obj.empty) x == items_sum x items.
Proof.
  induction items as [|item items IH] using rev_ind; intros Hnd; [reflexivity|].
  rewrite map_app in Hnd. cbn [map] in Hnd.
  assert (Hnd' : NoDup (map item_key items)) by (apply NoDup_app_remove_r in Hnd; exact Hnd).
  assert (Hfresh : ~ In (item_key item) (map item_key items)).
  { intros Hin. apply NoDup_remove_2 in Hnd. apply Hnd. rewrite app_nil_r. exact Hin. }
  rewrite fold_left_app. cbn [fold_left]. rewrite items_sum_snoc, <- (IH Hnd').
  set (byX := fold_left organize_item items Obj.empty).
  unfold bucket_total, organize_item.
  destruct (String.eqb_spec (xVal item) x) as [<-|Hx].
  - rewrite get_set_eq.
    assert (Hcell : cell byX (xVal item) (stackVal item) = None).
    { unfold byX. rewrite (cell_organize_fold items Obj.empty _ _ Hnd').
      destruct (find _ items) as [item'|] eqn:Hfind; [|reflexivity].
      exfalso. apply Hfresh. apply find_some in Hfind. destruct Hfind as [Hin Hcell].
      assert (Hself : item_in_cell (xVal item) (stackVal item) item = true)
        by (unfold item_in_cell; now rewrite !String.eqb_refl).
      rewrite (item_in_cell_key _ _ item item' Hself Hcell). now apply in_map. }
    unfold cell in Hcell.
    destruct (Obj.get (xVal item) byX) as [inner|].
    + apply Qsum_values_set_fresh. unfold Obj.has. now rewrite Hcell.
    + rewrite Obj_set_empty. unfold Obj.values, Qsum. cbn [map snd fold_right]. ring.
  - rewrite get_set_neq by congruence. ring.
Qed.

Lemma replace_split {V : Type} (k : string) (v old : V) (o : Obj.t V) :
  Obj.get k o = Some old ->
  exists o1 o2, o = o1 ++ (k, old) :: o2 /\ Obj.replace k v o = o1 ++ (k, v) :: o2.
Proof.
  induction o as [|[k' v'] o IH]; cbn; [discriminate|].
  destruct (String.eqb_spec k' k) as [->|Hne].
  - intros [= ->]. now exists [], o.
  - intros Hget. destruct (IH Hget) as (o1 & o2 & -> & ->).
    now exists ((k', v') :: o1), o2.
Qed.

Lemma items_sum_app (x : string) (l1 l2 : list summedItem) :
  items_sum x (l1 ++ l2) == items_sum x l1 + items_sum x l2.
Proof. unfold items_sum. now rewrite filter_app, map_app, Qsum_app. Qed.

Lemma items_sum_cons (x : string) (item : summedItem) (l : list summedItem) :
  items_sum x (item :: l)
  == (if String.eqb (xVal item) x then sum_n item else 0) + items_sum x l.
Proof.
  unfold items_sum. cbn [filter]. destruct (String.eqb (xVal item) x).
  - cbn [map]. now rewrite Qsum_cons.
  - ring.
Qed.

Lemma bucket_sum_snoc (xv : string) (rows : list row) (r0 : row) (x : string) :
  bucket_sum xv (rows ++ [r0]) x
  == bucket_sum xv rows x + (if String.eqb (String_cell r0 xv) x then row_n r0 else 0).
Proof.
  unfold bucket_sum. rewrite filter_app, map_app, Qsum_app. cbn [filter].
  destruct (String.eqb (String_cell r0 xv) x); unfold Qsum; cbn [map fold_right]; ring.
Qed.

(** One round of the summing loop adds the count of the row to the
    items of its x value. *)
Lemma sum_row_items_sum (xv sv : string) (processed : list row) (r0 : row)
    (summed : Obj.t summedItem) (x : string) :
  keys_distinguish xv sv (processed ++ [r0]) ->
  sums_rows xv sv processed summed ->
  items_sum x (Obj.values (sum_row xv sv summed r0))
  == items_sum x (Obj.values summed)
     + (if String.eqb (String_cell r0 xv) x then row_n r0 else 0).
Proof.
  intros Hinj (Hnd & Hrows & Hkeys). unfold sum_row.
  assert (Hr0 : In r0 (processed ++ [r0])) by (apply in_or_app; right; now left).
  fold (key_of xv sv r0).
  destruct (Obj.get (key_of xv sv r0) summed) as [it|] eqn:Hget.
  - assert (Hx : xVal it = String_cell r0 xv).
    { destruct (Hkeys _ _ (get_In _ _ _ Hget)) as (r & Hr & Hk).
      destruct (Hrows r Hr) as (item & Hget' & Hx & _).
      rewrite <- Hk, Hget in Hget'. injection Hget' as <-.
      rewrite Hx. symmetry.
      apply (Hinj r0 r Hr0); [apply in_or_app; now left|exact Hk]. }
    unfold Obj.set, Obj.has. rewrite Hget.
    destruct (replace_split _ (mkSummed (xVal it) (stackVal it) (sum_n it + row_n r0)) _ _ Hget)
      as (o1 & o2 & -> & ->).
    unfold Obj.values. rewrite !map_app. cbn [map snd].
    rewrite !items_sum_app, !items_sum_cons. cbn [xVal sum_n]. rewrite Hx.
    destruct (String.eqb (String_cell r0 xv) x); ring.
  - assert (Hhas : Obj.has (key_of xv sv r0) summed = false)
      by (unfold Obj.has; now rewrite Hget).
    destruct (set_split (key_of xv sv r0)
                (mkSummed (String_cell r0 xv) (String_cell r0 sv) (0 + row_n r0)) summed Hhas)
      as (o1 & o2 & Hsplit & Hset).
    cbn [xVal stackVal sum_n]. rewrite Hset, Hsplit.
    unfold Obj.values. rewrite !map_app. cbn [map snd].
    rewrite !items_sum_app, !items_sum_cons. cbn [xVal sum_n].
    destruct (String.eqb (String_cell r0 xv) x); ring.
Qed.

Lemma sum_rows_items_sum (xv sv : string) (rest processed : list row)
    (summed : Obj.t summedItem) (x : string) :
  keys_distinguish xv sv (processed ++ rest) ->
  sums_rows xv sv processed summed ->
  items_sum x (Obj.values summed) == bucket_sum xv processed x ->
  items_sum x (Obj.values (fold_left (sum_row xv sv) rest summed))
  == bucket_sum xv (processed ++ rest) x.
Proof.
  revert processed summed. induction rest as [|r0 rest IH]; intros processed summed Hinj H Hsum.
  - now rewrite app_nil_r.
  - cbn [fold_left].
    replace (processed ++ r0 :: rest) with ((processed ++ [r0]) ++ rest) in *
      by (now rewrite <- app_assoc).
    assert (Hinj0 : keys_distinguish xv sv (processed ++ [r0]))
      by (intros r r' Hr Hr'; apply Hinj; apply in_or_app; now left).
    apply IH; [exact Hinj|now apply sum_row_step|].
    rewrite (sum_row_items_sum xv sv processed r0 summed x Hinj0 H), Hsum.
    now rewrite bucket_sum_snoc.
Qed.

(** The total the rebuild holds for an x value is the total count of
    its rows. *)
Lemma totals_are_bucket_sums (xv sv : string) (rows : list row) (x : string) (t : Q) :
  keys_distinguish xv sv rows ->
  Obj.get x (totals (organize (sum_rows xv sv rows))) = Some t ->
  t == bucket_sum xv rows x.
Proof.
  intros Hinj Hget.
  pose proof (sum_rows_sums _ _ _ Hinj) as Hsums.
  pose proof (sums_rows_item_keys _ _ _ _ Hsums) as Hitemkeys.
  destruct (organize_organized (sum_rows xv sv rows)) as [HndX _].
  rewrite (get_totals _ _ HndX) in Hget.
  assert (Hbucket := organize_bucket_total (Obj.values (sum_rows xv sv rows)) x).
  rewrite Hitemkeys in Hbucket. specialize (Hbucket (proj1 Hsums)).
  fold (organize (sum_rows xv sv rows)) in Hbucket. unfold bucket_total in Hbucket.
  destruct (Obj.get x (organize (sum_rows xv sv rows))) as [inner|]; [|discriminate].
  injection Hget as <-. rewrite total_of_Qsum, Hbucket.
  apply (sum_rows_items_sum xv sv rows [] Obj.empty x Hinj).
  - split; [constructor|]. split; [intros r []|intros k item []].
  - reflexivity.
Qed.

(** X15. In percent mode the value emitted for an x value whose total
    is above 0 and a stack value is the share of the rows that carry
    both among the rows of that x value, times 100, provided the
    separator "|||" glues no two different pairs of values to the same
    key. *)
Theorem crossTab_percent_is_share_of_bucket (cfg : config) (flt : Obj.t (list string))
    (rows : list row) (x s : jsval) (t : Q) :
  let filteredData := filter_rows (filterVars cfg) flt rows in
  let byX := organize (sum_rows (xVar cfg) (stackVar cfg) filteredData) in
  keys_distinguish (xVar cfg) (stackVar cfg) filteredData ->
  positive_total (totals byX) x = Some t ->
  t == bucket_sum (xVar cfg) filteredData (String x) /\
  series_value true byX (totals byX) s x
  == cell_sum (xVar cfg) (stackVar cfg) filteredData (String x) (String s)
     / bucket_sum (xVar cfg) filteredData (String x) * 100.
Proof.
  intros filteredData byX Hinj Ht.
  destruct (positive_total_spec _ _ _ Ht) as [Hget Hnz].
  assert (Htotal := totals_are_bucket_sums _ _ _ _ _ Hinj Hget).
  split; [exact Htotal|].
  unfold series_value. rewrite Ht.
  assert (Hcount := count_is_cell_sum _ _ _ x s Hinj). fold filteredData byX in Hcount.
  now rewrite Hcount, Htotal.
Qed.

(** ** What a reset writes and what it leaves *)

Lemma get_replace_present {V : Type} (a k : string) (v : V) (o : Obj.t V) :
  Obj.get a o <> None -> Obj.get a (Obj.replace k v o) <> None.
Proof.
  intros H. destruct (string_dec a k) as [->|Hne].
  - rewrite get_replace_same_key. now destruct (Obj.get k o).
  - now rewrite get_replace_neq.
Qed.

Lemma get_write_display_present (a b : string) (t : option string) (doc : Obj.t element) :
  Obj.get a doc <> None -> Obj.get a (write_display b t doc) <> None.
Proof.
  intros H. unfold write_display. destruct t as [t|]; [|exact H].
  destruct (Obj.get (b ++ "_value") doc); [|exact H]. now apply get_replace_present.
Qed.

(** One round of the reset loop, seen from a control [a]. *)
Lemma reset_target_frame (e e' : engine) (b : string) :
  reset_target e b = Some e' ->
  (forall a, a <> b -> Obj.get a (inputState e') = Obj.get a (inputState e)) /\
  (forall a, a <> b -> a <> (b ++ "_value")%string ->
             Obj.get a (document e') = Obj.get a (document e)) /\
  (forall a, Obj.get a (document e) <> None -> Obj.get a (document e') <> None).
Proof.
  intros Hreset.
  destruct (reset_target_cases e e' b Hreset)
    as [->|(d & st & el & st' & Hd & Hst & Hel & Hstate & ->)]; [repeat split; auto|].
  cbn [inputState document]. repeat split.
  - intros a Hab. now apply get_replace_neq.
  - intros a Hab Hdisp. rewrite get_write_display_neq by exact Hdisp.
    now apply get_replace_neq.
  - intros a Ha. now apply get_write_display_present, get_replace_present.
Qed.

Lemma reset_target_own_entry (e e' : engine) (a : string) (d : default) (st : state) :
  reset_target e a = Some e' ->
  Obj.get a (defaultValues e) = Some d ->
  Obj.get a (inputState e) = Some st ->
  Obj.get a (document e) <> None ->
  exists st', state_reset st d = Some st' /\ Obj.get a (inputState e') = Some st'.
Proof.
  unfold reset_target. intros Hreset Hd Hst Hel. rewrite Hd, Hst in Hreset.
  destruct (Obj.get a (document e)) as [el|]; [|congruence].
  rewrite reset_control_pieces in Hreset.
  destruct (state_reset st d) as [st'|]; [|discriminate].
  injection Hreset as <-. exists st'. split; [reflexivity|]. cbn [inputState].
  now rewrite get_replace_same_key, Hst.
Qed.

Lemma reset_targets_entry (targets : list string) (e e' : engine) (a : string)
    (d : default) (st : state) :
  reset_targets targets e = Some e' ->
  Obj.get a (defaultValues e) = Some d ->
  Obj.get a (inputState e) = Some st ->
  Obj.get a (document e) <> None ->
  (~ In a targets /\ Obj.get a (inputState e') = Some st) \/
  (In a targets /\ exists st', state_reset st d = Some st' /\
                               Obj.get a (inputState e') = Some st').
Proof.
  revert e st. induction targets as [|b targets IH]; intros e st; cbn [reset_targets].
  - intros [= <-] _ Hst _. left. split; [intros []|exact Hst].
  - destruct (reset_target e b) as [e1|] eqn:Hb; [|discriminate].
    intros Hrest Hd Hst Hel.
    destruct (reset_target_charts e e1 b Hb) as (_ & _ & Hdef & _).
    destruct (reset_target_frame e e1 b Hb) as (Hstate & _ & Hdoc).
    destruct (string_dec a b) as [->|Hab].
    + destruct (reset_target_own_entry e e1 b d st Hb Hd Hst Hel) as (st1 & Hreset & Hst1).
      right. split; [now left|]. exists st1. split; [exact Hreset|].
      rewrite <- Hdef in Hd.
      destruct (IH e1 st1 Hrest Hd Hst1 (Hdoc b Hel)) as [[_ Hfinal]|(_ & st2 & Hagain & Hfinal)].
      * exact Hfinal.
      * rewrite (proj1 (state_reset_settles _ _ _ Hreset)) in Hagain.
        injection Hagain as <-. exact Hfinal.
    + rewrite <- Hdef in Hd. rewrite <- (Hstate a Hab) in Hst.
      destruct (IH e1 st Hrest Hd Hst (Hdoc a Hel)) as [[Hnot Hfinal]|(Hin & Hfinal)].
      * left. split; [|exact Hfinal]. intros [Heq|Hin]; [congruence|contradiction].
      * right. split; [now right|exact Hfinal].
Qed.

Lemma with_textContent_twice (t t' : string) (el : element) :
  with_textContent t (with_textContent t' el) = with_textContent t el.
Proof. now destruct el. Qed.

(** The reset of another control writes at most the text of an
    element. *)
Lemma reset_target_element (e e' : engine) (a b : string) (el : element) :
  reset_target e b = Some e' -> a <> b ->
  Obj.get a (document e) = Some el ->
  exists t, Obj.get a (document e') = Some (with_textContent t el).
Proof.
  intros Hreset Hab Hel.
  destruct (reset_target_cases e e' b Hreset)
    as [->|(d & st & elb & st' & _ & _ & _ & _ & ->)].
  - exists (textContent el). now rewrite with_textContent_same.
  - cbn [document].
    destruct (string_dec a (b ++ "_value")) as [->|Hdisp].
    + destruct (display_reset st d) as [t|].
      * exists t. rewrite get_write_display_eq, get_replace_neq by exact Hab. now rewrite Hel.
      * exists (textContent el). cbn [write_display].
        rewrite get_replace_neq by exact Hab. now rewrite with_textContent_same.
    + exists (textContent el). rewrite get_write_display_neq by exact Hdisp.
      rewrite get_replace_neq by exact Hab. now rewrite with_textContent_same.
Qed.

Lemma reset_target_own_element (e e' : engine) (a : string) (d : default) (st : state)
    (el : element) :
  reset_target e a = Some e' ->
  Obj.get a (defaultValues e) = Some d ->
  Obj.get a (inputState e) = Some st ->
  Obj.get a (document e) = Some el ->
  Obj.get a (document e')
  = Some (element_reset (mem a (choicesInstances e)) st d el).
Proof.
  unfold reset_target. intros Hreset Hd Hst Hel. rewrite Hd, Hst, Hel in Hreset.
  rewrite reset_control_pieces in Hreset.
  destruct (state_reset st d) as [st'|]; [|discriminate].
  injection Hreset as <-. cbn [document].
  rewrite get_write_display_neq by (apply not_eq_sym, display_id_fresh).
  now rewrite get_replace_same_key, Hel.
Qed.

(** The element of a control after the resets of a list of targets:
    reset if the control is among them, and in both cases with the text
    another target may have written to it. *)
Lemma reset_targets_element (targets : list string) (e e' : engine) (a : string)
    (d : default) (st : state) (el : element) :
  reset_targets targets e = Some e' ->
  Obj.get a (defaultValues e) = Some d ->
  Obj.get a (inputState e) = Some st ->
  Obj.get a (document e) = Some el ->
  (~ In a targets /\ exists t, Obj.get a (document e') = Some (with_textContent t el)) \/
  (In a targets /\
   exists t, Obj.get a (document e')
             = Some (with_textContent t (element_reset (mem a (choicesInstances e)) st d el))).
Proof.
  revert e st el. induction targets as [|b targets IH]; intros e st el; cbn [reset_targets].
  - intros [= <-] _ _ Hel. left. split; [intros []|].
    exists (textContent el). now rewrite with_textContent_same.
  - destruct (reset_target e b) as [e1|] eqn:Hb; [|discriminate].
    intros Hrest Hd Hst Hel.
    destruct (reset_target_charts e e1 b Hb) as (_ & _ & Hdef & Hchoices).
    destruct (reset_target_frame e e1 b Hb) as (Hstate & _ & _).
    destruct (string_dec a b) as [->|Hab].
    + assert (Hel1 := reset_target_own_element e e1 b d st el Hb Hd Hst Hel).
      assert (Hpresent : Obj.get b (document e) <> None) by congruence.
      destruct (reset_target_own_entry e e1 b d st Hb Hd Hst Hpresent)
        as (st1 & Hreset & Hst1).
      right. split; [now left|]. rewrite <- Hdef in Hd.
      destruct (IH e1 st1 _ Hrest Hd Hst1 Hel1) as [[_ Hfinal]|(_ & t & Hfinal)].
      * exact Hfinal.
      * exists t. rewrite Hfinal, Hchoices.
        rewrite (proj2 (proj2 (state_reset_settles _ _ _ Hreset))).
        now rewrite element_reset_twice.
    + destruct (reset_target_element e e1 a b el Hb Hab Hel) as (t1 & Hel1).
      rewrite <- Hdef in Hd. rewrite <- (Hstate a Hab) in Hst.
      destruct (IH e1 st _ Hrest Hd Hst Hel1) as [[Hnot (t & Hfinal)]|(Hin & t & Hfinal)].
      * left. split; [intros [Heq|Hin]; [congruence|contradiction]|].
        exists t. now rewrite Hfinal, with_textContent_twice.
      * right. split; [now right|]. exists t. rewrite Hfinal, Hchoices.
        rewrite (proj1 (element_reset_textContent _ _ _ _ _)).
        now rewrite with_textContent_twice.
Qed.

Lemma element_reset_shows (hasChoices : bool) (st : state) (d : default) (t : string)
    (el : element) :
  shows_default hasChoices (kind st) d el
                (with_textContent t (element_reset hasChoices st d el)).
Proof.
  unfold shows_default, element_reset.
  destruct (kind st), d; try exact I; try (now destruct el).
  unfold reset_select_element. destruct hasChoices; [destruct selected0; now destruct el|].
  destruct (String.eqb (tagName el) "SELECT"); now destruct el.
Qed.

(** X16. After a reset every targeted control that has a default entry,
    a registry entry and an element holds its default: the registry
    entry is the one the default entry gives, and the element shows the
    default, whatever the reset of the other targets wrote. A select
    under Choices.js holds the default values as its selected options;
    of a native select, a check-box group, a radio group or a button
    group every child is marked exactly when its value is among the
    defaults; a switch is checked as the default says; a slider, a text
    input and a number input hold the default as their value, and the
    track and the display of the slider follow. A select that is neither
    under Choices.js nor a [SELECT] element keeps what it shows. *)
Theorem reset_gives_every_target_its_default (targetsAttr : string) (e e1 : engine)
    (a : string) (d : default) (st : state) (el : element) :
  resetFilters targetsAttr e = Some e1 ->
  In a (targets_of targetsAttr (defaultValues e)) ->
  Obj.get a (defaultValues e) = Some d ->
  Obj.get a (inputState e) = Some st ->
  Obj.get a (document e) = Some el ->
  exists st' el',
    state_reset st d = Some st' /\
    Obj.get a (inputState e1) = Some st' /\
    Obj.get a (document e1) = Some el' /\
    shows_default (mem a (choicesInstances e)) (kind st) d el el' /\
    at_default e1 a.
Proof.
  unfold resetFilters. intros Hreset Hin Hd Hst Hel.
  destruct (reset_targets (targets_of targetsAttr (defaultValues e)) e) as [e0|] eqn:Hfirst;
    [|discriminate].
  injection Hreset as <-.
  assert (Hpresent : Obj.get a (document e) <> None) by congruence.
  destruct (reset_targets_entry _ e e0 a d st Hfirst Hd Hst Hpresent)
    as [[Hnot _]|(_ & st' & Hstate & Hfinal)]; [contradiction|].
  destruct (reset_targets_element _ e e0 a d st el Hfirst Hd Hst Hel)
    as [[Hnot _]|(_ & t & Helement)]; [contradiction|].
  exists st', (with_textContent t (element_reset (mem a (choicesInstances e)) st d el)).
  destruct (applyAllFilters_controls e0) as (Hs & Hdoc & _).
  split; [exact Hstate|]. split; [now rewrite Hs|]. split; [now rewrite Hdoc|]. split.
  - apply element_reset_shows.
  - apply at_default_applyAllFilters. now apply (reset_targets_at_default _ e e0 Hfirst).
Qed.

Lemma reset_targets_frame (targets : list string) (e e' : engine) (a : string) :
  reset_targets targets e = Some e' ->
  ~ In a targets ->
  Obj.get a (inputState e') = Obj.get a (inputState e) /\
  ((forall b, In b targets -> a <> (b ++ "_value")%string) ->
   Obj.get a (document e') = Obj.get a (document e)).
Proof.
  revert e. induction targets as [|b targets IH]; intros e; cbn [reset_targets].
  - intros [= <-] _. split; reflexivity.
  - destruct (reset_target e b) as [e1|] eqn:Hb; [|discriminate].
    intros Hrest Hnot.
    destruct (reset_target_frame e e1 b Hb) as (Hstate & Hdoc & _).
    assert (Hab : a <> b) by (intros ->; apply Hnot; now left).
    destruct (IH e1 Hrest) as [Hs Hd]; [intros Hin; apply Hnot; now right|].
    split; [now rewrite Hs, Hstate|].
    intros Hdisp. rewrite Hd by (intros b' Hb'; apply Hdisp; now right).
    apply Hdoc; [exact Hab|]. apply Hdisp. now left.
Qed.

(** X17. A reset leaves the default entries alone, and leaves every
    control that is not among its targets as it was: its registry entry,
    and its element unless that element is the value display of a
    target. *)
Theorem reset_leaves_other_controls (targetsAttr : string) (e e1 : engine) (a : string) :
  resetFilters targetsAttr e = Some e1 ->
  ~ In a (targets_of targetsAttr (defaultValues e)) ->
  defaultValues e1 = defaultValues e /\
  Obj.get a (inputState e1) = Obj.get a (inputState e) /\
  ((forall b, In b (targets_of targetsAttr (defaultValues e)) -> a <> (b ++ "_value")%string) ->
   Obj.get a (document e1) = Obj.get a (document e)).
Proof.
  unfold resetFilters. intros Hreset Hnot.
  destruct (reset_targets (targets_of targetsAttr (defaultValues e)) e) as [e0|] eqn:Hfirst;
    [|discriminate].
  injection Hreset as <-.
  destruct (applyAllFilters_controls e0) as (Hs & Hd & Hdef).
  rewrite Hs, Hd, Hdef.
  destruct (reset_targets_charts _ _ _ Hfirst) as (_ & _ & Hdefaults & _).
  destruct (reset_targets_frame _ e e0 a Hfirst Hnot) as [Hstate Hdoc].
  repeat split; assumption.
Qed.

(** ** The slider: its display, its label and its track *)

Lemma orElse_truthy (n d : jsnumber) : falsy_number n = false -> orElse n d = n.
Proof. unfold orElse. now intros ->. Qed.

Lemma labelIdx_slider_info (v mn mx stp : jsnumber) (labels : option (list jsval)) :
  falsy_number stp = false ->
  labelIdx (slider_info v mn mx stp labels) = round_index (div (sub v mn) stp).
Proof.
  intros Hstp. unfold labelIdx, slider_info. cbn [s_value s_min s_step].
  now rewrite !(orElse_truthy stp) by (rewrite ?orElse_truthy; exact Hstp).
Qed.

(** X18. The text a slider with labels displays is the label its filter
    starts from. When its position has no label, the display shows the
    number and the slider drops no category. (The step is the one the
    initialisation stores, which is never 0 or NaN.) *)
Theorem slider_displays_its_start_label (i fv : string) (v mn mx stp : jsnumber)
    (labels : list jsval) (sel : list string) :
  falsy_number stp = false ->
  labels <> [] ->
  let info := slider_info v mn mx stp (Some labels) in
  (forall label, startLabel info = Some label ->
                 slider_display (Some labels) v mn stp = String label) /\
  (startLabel info = None ->
   slider_display (Some labels) v mn stp = String_of_number v /\
   forall cats, surviving cats [(i, mkState fv (slider v mn mx stp (Some labels)) sel)] = cats).
Proof.
  intros Hstp Hne info.
  assert (Hidx := labelIdx_slider_info v mn mx stp (Some labels) Hstp). fold info in Hidx.
  unfold startLabel. rewrite Hidx. cbn [s_labels info slider_info].
  unfold slider_display. destruct labels as [|l0 ls]; [contradiction|].
  destruct (round_index (div (sub v mn) stp)) as [idx|].
  - split.
    + intros label Hlabel. now rewrite Hlabel.
    + intros Hnone. rewrite Hnone. split; [reflexivity|].
      intros cats. rewrite surviving_slider. unfold apply_slider.
      cbn [has_labels s_labels slider_info]. unfold startLabel.
      fold info. rewrite Hidx. cbn [s_labels info slider_info]. rewrite Hnone.
      apply categories_at_all.
  - split; [discriminate|]. intros _. split; [reflexivity|].
    intros cats. rewrite surviving_slider. unfold apply_slider.
    cbn [has_labels s_labels slider_info]. unfold startLabel.
    fold info. rewrite Hidx. cbn [s_labels info slider_info].
    apply categories_at_all.
Qed.

Lemma round_inject_Z (z : Z) : round (inject_Z z) = z.
Proof.
  unfold round, inject_Z, Qplus, Qfloor. cbn [Qnum Qden].
  change (Z.pos (1 * 2)) with 2%Z. rewrite Z.mul_1_l.
  rewrite Z.div_add_l by lia. change (1 / 2)%Z with 0%Z. lia.
Qed.

Lemma round_comp (p q : Q) : p == q -> round p = round q.
Proof. intros H. unfold round. apply Qfloor_comp. now rewrite H. Qed.

(** X19. A slider that stands on its [k]-th step (its value is the
    minimum plus [k] steps, the step not 0) starts from its [k]-th label
    and displays it. *)
Theorem slider_on_step_shows_label (v mn stp : Q) (mx : jsnumber) (labels : list jsval)
    (k : nat) (label : jsval) :
  ~ stp == 0 ->
  v == mn + inject_Z (Z.of_nat k) * stp ->
  nth_error labels k = Some label ->
  startLabel (slider_info (Fin v) (Fin mn) mx (Fin stp) (Some labels)) = Some label /\
  slider_display (Some labels) (Fin v) (Fin mn) (Fin stp) = String label.
Proof.
  intros Hstp Hv Hlabel.
  assert (Hfalsy : falsy_number (Fin stp) = false).
  { cbn. unfold Qzero. destruct (Qeq_bool stp 0) eqn:E; [|reflexivity].
    apply Qeq_bool_iff in E. contradiction. }
  assert (Hround : round_index (div (sub (Fin v) (Fin mn)) (Fin stp)) = Some (Z.of_nat k)).
  { cbn [sub div]. cbn in Hfalsy. rewrite Hfalsy. cbn [round_index]. f_equal.
    rewrite <- (round_inject_Z (Z.of_nat k)). apply round_comp.
    rewrite Hv. field. exact Hstp. }
  assert (Hat : at_index labels (Z.of_nat k) = Some label).
  { unfold at_index. destruct (Z.ltb_spec (Z.of_nat k) 0); [lia|].
    now rewrite Nat2Z.id. }
  split.
  - unfold startLabel. rewrite (labelIdx_slider_info _ _ _ _ _ Hfalsy), Hround.
    cbn [s_labels slider_info]. exact Hat.
  - unfold slider_display. destruct labels as [|l0 ls]; [now destruct k|].
    now rewrite Hround, Hat.
Qed.

Lemma Qzero_false (q : Q) : ~ q == 0 -> Qzero q = false.
Proof.
  intros H. unfold Qzero. destruct (Qeq_bool q 0) eqn:E; [|reflexivity].
  apply Qeq_bool_iff in E. contradiction.
Qed.

Lemma Qzero_true (q : Q) : Qzero q = true -> q == 0.
Proof. unfold Qzero. apply Qeq_bool_iff. Qed.

(** X20. The fill of a slider's track is the position of its value
    between its minimum and its maximum, in percent, and lies between 0
    and 100, when the maximum is not 0 (a maximum of 0 is read as 100),
    the minimum is below the maximum and the value lies between the
    two. *)
Theorem slider_track_is_position_in_range (input : element) (mn mx v : Q) :
  parseFloat_string (el_min input) = Fin mn ->
  parseFloat_string (el_max input) = Fin mx ->
  parseFloat_string (el_value input) = Fin v ->
  ~ mx == 0 ->
  mn < mx ->
  mn <= v -> v <= mx ->
  exists p,
    slider_percent (updateSliderTrack input) = Some (Fin p) /\
    p == (v - mn) / (mx - mn) * 100 /\
    0 <= p /\ p <= 100.
Proof.
  intros Hmin Hmax Hval Hmx Hlt Hlo Hhi.
  unfold updateSliderTrack. rewrite Hmin, Hmax, Hval. cbn [slider_percent with_percent].
  assert (Hmx' : orElse (Fin mx) (Fin 100) = Fin mx)
    by (apply orElse_truthy; cbn; now apply Qzero_false).
  rewrite Hmx'.
  assert (Hmn' : exists mn', orElse (Fin mn) (Fin 0) = Fin mn' /\ mn' == mn).
  { unfold orElse. cbn [falsy_number]. destruct (Qzero mn) eqn:E.
    - exists 0. split; [reflexivity|]. symmetry. now apply Qzero_true.
    - exists mn. split; reflexivity. }
  destruct Hmn' as (mn' & -> & Hmn').
  assert (Hpos : 0 < mx - mn') by (rewrite Hmn'; now apply (proj1 (Qlt_minus_iff mn mx))).
  assert (Hnz : ~ mx - mn' == 0) by (intros H; rewrite H in Hpos; now apply Qlt_irrefl in Hpos).
  cbn [sub div mul]. rewrite (Qzero_false _ Hnz).
  eexists. split; [reflexivity|].
  assert (Hnz' : ~ mx - mn == 0) by (now rewrite <- Hmn').
  split; [rewrite Hmn'; reflexivity|].
  assert (Hfrac : 0 <= (v - mn') / (mx - mn') /\ (v - mn') / (mx - mn') <= 1).
  { split.
    - apply Qle_shift_div_l; [exact Hpos|]. rewrite Qmult_0_l, Hmn'.
      now apply (proj1 (Qle_minus_iff mn v)).
    - apply Qle_shift_div_r; [exact Hpos|]. rewrite Qmult_1_l.
      unfold Qminus. apply Qplus_le_compat; [exact Hhi|apply Qle_refl]. }
  destruct Hfrac as [H0 H1]. split.
  - apply Qmult_le_0_compat; [exact H0|discriminate].
  - apply (Qle_trans _ (1 * 100)); [|discriminate].
    apply Qmult_le_compat_r; [exact H1|discriminate].
Qed.

(** ** The snapshot capture *)

Lemma storeOriginal_series_twice (s : series) :
  storeOriginal_series (storeOriginal_series s) = storeOriginal_series s.
Proof. unfold storeOriginal_series. now destruct (snapshot s) eqn:E; cbn; rewrite ?E. Qed.

(** X21. The snapshot capture gives every series of every chart a
    snapshot, and capturing again changes nothing: the capture on every
    tab click is harmless. *)
Theorem storeOriginalData_captures_once (e : engine) :
  storeOriginalData (storeOriginalData e) = storeOriginalData e /\
  forall c s, In c (charts (storeOriginalData e)) -> In s (chart_series c) ->
              snapshot s <> None.
Proof.
  split.
  - unfold storeOriginalData. cbn [inputState defaultValues choicesInstances document charts globals].
    f_equal. rewrite map_map. apply map_ext. intros c.
    unfold storeOriginal_chart, with_series. cbn. f_equal.
    rewrite map_map. apply map_ext. intros s. apply storeOriginal_series_twice.
  - cbn [storeOriginalData charts]. intros c s Hc Hs.
    apply in_map_iff in Hc. destruct Hc as (c0 & <- & _).
    cbn [storeOriginal_chart with_series chart_series] in Hs.
    apply in_map_iff in Hs. destruct Hs as (s0 & <- & _).
    apply storeOriginal_series_snapshot.
Qed.

(** X22. A filter application leaves the data of a series that has no
    snapshot yet as it is, on a chart that is not rebuilt from cross-tab
    data and while no metric is selected: a snapshot captured after
    filter applications still holds the unfiltered data. *)
Theorem late_snapshot_holds_unfiltered_data (e : engine) (i : nat) (c : chart) :
  nth_error (charts e) i = Some c ->
  rebuilt_from_crossTab (globals e) c = false ->
  no_metric_rebuild e ->
  exists c',
    nth_error (charts (storeOriginalData (applyAllFilters e))) i = Some c' /\
    Forall2 (fun s s' => snapshot s = None ->
                         data s' = data s /\
                         snapshot s' = Some (mkOriginal (data s) (name s)))
            (chart_series c) (chart_series c').
Proof.
  intros Hc Hpath Hmetric.
  destruct (regular_chart_series e i c Hc Hpath) as (c1 & Hc1 & Hseries).
  exists (storeOriginal_chart c1). split.
  - cbn [storeOriginalData charts]. now apply map_nth_error.
  - cbn [storeOriginal_chart with_series chart_series]. rewrite Hseries, map_map.
    apply Forall2_map_right. intros s Hnone.
    unfold series_after, rebuilt_data. unfold no_metric_rebuild in Hmetric.
    rewrite Hmetric, Hnone. unfold storeOriginal_series. cbn [snapshot data name].
    destruct (series_shown _ _ _ _); destruct (originalCategories c); split; reflexivity.
Qed.

(** ** Metric switching, label by label *)

Lemma newData_of_categories (w : window) (allData : metricRow * list metricRow)
    (m nm : string) (cats : list jsval) :
  newData_of (countryData_of allData nm m) (timeVar_of w allData) (map Some cats)
  = map (metric_point w allData m nm) cats.
Proof. unfold newData_of. rewrite map_map. reflexivity. Qed.

Lemma filteredData_categories_map (g : jsval -> point) (cats : list jsval) (nm : string)
    (vis : list nat) :
  (forall idx, In idx vis -> (idx < List.length cats)%nat) ->
  filteredData_categories (mkOriginal (map g cats) nm) vis = map g (categories_at cats vis).
Proof.
  unfold filteredData_categories, categories_at. cbn [orig_data].
  induction vis as [|idx vis IH]; intros H; [reflexivity|].
  cbn [map flat_map]. rewrite map_app, <- IH by (intros idx' Hin; apply H; now right).
  destruct (nth_error cats idx) as [cat|] eqn:E.
  - now rewrite (map_nth_error g _ _ E).
  - apply nth_error_None in E. specialize (H idx (or_introl eq_refl)). lia.
Qed.

(** X23. Metric switching and category filtering compose: on a chart
    with categories (not rebuilt from cross-tab data), while a metric is
    selected, every visible series that has rows for the metric shows,
    label by label, the metric value of its country at each surviving
    category, and the chart carries the titles of the metric. *)
Theorem metric_values_follow_surviving_labels (e : engine) (i : nat) (c : chart)
    (cats : list jsval) (m : string) (allData : metricRow * list metricRow) :
  nth_error (charts e) i = Some c ->
  rebuilt_from_crossTab (globals e) c = false ->
  originalCategories c = Some cats ->
  selectedMetric_of (globals e) (filters (collect (inputState e))) = Some (m, allData) ->
  exists c',
    nth_error (charts (applyAllFilters e)) i = Some c' /\
    title c' = Some (m ++ " by Country")%string /\
    subtitle c' = Some "Trends over time" /\
    yAxis_title c' = Some m /\
    forall s', In s' (chart_series c') -> visible s' = true ->
      countryData_of allData (name s') m <> [] ->
      data s' = map (metric_point (globals e) allData m (name s'))
                    (surviving cats (inputState e)).
Proof.
  intros Hc Hpath Hcats Hmetric. eexists. split; [exact (applyAllFilters_chart e i c Hc)|].
  rewrite (apply_chart_regular _ _ _ _ Hpath), filter_chart_fields.
  cbn [title subtitle yAxis_title chart_series]. unfold metric_title. rewrite Hmetric.
  cbn [option_map fst or_else]. repeat split.
  intros s' Hin Hvis Hrows. apply in_map_iff in Hin. destruct Hin as (s & <- & _).
  rewrite filter_series_after in *. unfold series_after in *. cbn [visible data name] in *.
  rewrite Hvis. unfold rebuilt_data. rewrite Hmetric, Hcats.
  destruct (countryData_of allData (name s) m) as [|d0 rest] eqn:Hcountry; [contradiction|].
  rewrite <- Hcountry. unfold timeValues_of, visible_of.
  rewrite newData_of_categories. unfold surviving.
  apply filteredData_categories_map.
  intros idx Hidx. now apply visible_index_bound in Hidx.
Qed.

(** ** The series a rebuild writes *)

Lemma nth_error_update_at_eq {A : Type} (i : nat) (f : A -> A) (l : list A) :
  nth_error (update_at i f l) i = option_map f (nth_error l i).
Proof.
  revert i. induction l as [|a l IH]; intros i; [now destruct i|].
  destruct i; cbn; [reflexivity|apply IH].
Qed.

Lemma nth_error_update_at_neq {A : Type} (i k : nat) (f : A -> A) (l : list A) :
  i <> k -> nth_error (update_at i f l) k = nth_error l k.
Proof.
  revert i k. induction l as [|a l IH]; intros i k Hne; [now destruct i|].
  destruct i, k; cbn; try reflexivity; [congruence|]. apply IH. congruence.
Qed.

Lemma write_all_other (writes : list (nat * list point)) (l : list series) (k : nat) :
  ~ In k (map fst writes) -> nth_error (write_all writes l) k = nth_error l k.
Proof.
  unfold write_all. revert l. induction writes as [|[i d] writes IH]; intros l Hnot; [reflexivity|].
  cbn [fold_left fst snd]. cbn [map fst] in Hnot.
  rewrite IH by (intros Hin; apply Hnot; now right).
  apply nth_error_update_at_neq. intros ->. apply Hnot. now left.
Qed.

Lemma write_all_nth (writes : list (nat * list point)) (l : list series) (k : nat)
    (d : list point) (s : series) :
  NoDup (map fst writes) -> In (k, d) writes -> nth_error l k = Some s ->
  nth_error (write_all writes l) k = Some (setData d s).
Proof.
  revert l. induction writes as [|[i d'] writes IH]; intros l Hnd Hin Hs; [destruct Hin|].
  cbn [map fst] in Hnd. inversion Hnd as [|? ? Hnotin Hnd']; subst.
  change (write_all ((i, d') :: writes) l) with (write_all writes (update_at i (setData d') l)).
  destruct Hin as [[= -> ->]|Hin].
  - rewrite write_all_other by exact Hnotin. now rewrite nth_error_update_at_eq, Hs.
  - assert (Hne : i <> k).
    { intros ->. apply Hnotin. now apply (in_map fst) in Hin. }
    apply IH; trivial. now rewrite nth_error_update_at_neq.
Qed.

Lemma findIndex_Some {A : Type} (p : A -> bool) (l : list A) (k : nat) :
  findIndex p l = Some k -> exists a, nth_error l k = Some a /\ p a = true.
Proof.
  revert k. induction l as [|a l IH]; intros k; cbn; [discriminate|].
  destruct (p a) eqn:E.
  - intros [= <-]. now exists a.
  - destruct (findIndex p l) as [j|]; [|discriminate]. intros [= <-].
    now apply IH.
Qed.

Lemma findIndex_None {A : Type} (p : A -> bool) (l : list A) :
  findIndex p l = None -> forall a, In a l -> p a = false.
Proof.
  induction l as [|a l IH]; cbn; [intros _ a []|].
  destruct (p a) eqn:E; [discriminate|].
  destruct (findIndex p l); [discriminate|]. intros _ b [<-|Hb]; auto.
Qed.

Lemma indexed_from {A : Type} (l : list A) (start : nat) :
  map snd (combine (seq start (List.length l)) l) = l /\
  forall i a, In (i, a) (combine (seq start (List.length l)) l) ->
              (i < start + List.length l)%nat.
Proof.
  revert start. induction l as [|b l IH]; intros start; cbn [List.length seq combine map snd].
  - split; [reflexivity|intros i a []].
  - destruct (IH (S start)) as [Hmap Hbound]. split; [now rewrite Hmap|].
    intros i a [[= <- <-]|Hin]; [lia|]. specialize (Hbound i a Hin). lia.
Qed.

Lemma map_snd_indexed {A : Type} (l : list A) : map snd (indexed l) = l.
Proof. apply indexed_from. Qed.

Lemma indexed_bound {A : Type} (l : list A) (i : nat) (a : A) :
  In (i, a) (indexed l) -> (i < List.length l)%nat.
Proof. intros H. now apply (proj2 (indexed_from l 0)) in H. Qed.

(** The writes of stack values that all name a series. *)
Lemma resolve_named (isPercent : bool) (byX : Obj.t (Obj.t Q)) (xTotals : Obj.t Q)
    (orderedX : list jsval) (names : list string) (entries : list (nat * jsval)) :
  NoDup (map snd entries) ->
  (forall sv, In sv (map snd entries) -> exists nm, sv = JStr nm /\ In nm names) ->
  NoDup (map fst (resolve isPercent byX xTotals orderedX names entries)) /\
  (forall j d, In (j, d) (resolve isPercent byX xTotals orderedX names entries) ->
     exists nm, In (JStr nm) (map snd entries) /\
                findIndex (fun n' => String.eqb n' nm) names = Some j /\
                d = map PNum (seriesData_of isPercent byX xTotals orderedX (JStr nm))) /\
  (forall nm j, In (JStr nm) (map snd entries) ->
     findIndex (fun n' => String.eqb n' nm) names = Some j ->
     In (j, map PNum (seriesData_of isPercent byX xTotals orderedX (JStr nm)))
        (resolve isPercent byX xTotals orderedX names entries)).
Proof.
  induction entries as [|[idx sv] entries IH]; intros Hnd Hnamed.
  - cbn. repeat split; [constructor|intros j d []|intros nm j []].
  - cbn [map snd] in Hnd, Hnamed. inversion Hnd as [|? ? Hnotin Hnd']; subst.
    destruct IH as (IHnd & IHin & IHfound); [exact Hnd'|intros sv' Hsv'; apply Hnamed; now right|].
    destruct (Hnamed sv (or_introl eq_refl)) as (nm & -> & Hnm).
    assert (Hfound : exists j, findIndex (fun n' => String.eqb n' nm) names = Some j).
    { destruct (findIndex (fun n' => String.eqb n' nm) names) as [j|] eqn:E; [now exists j|].
      pose proof (findIndex_None _ _ E nm Hnm) as Hno. cbn in Hno.
      now rewrite String.eqb_refl in Hno. }
    destruct Hfound as (j & Hj).
    assert (Hcons : resolve isPercent byX xTotals orderedX names ((idx, JStr nm) :: entries)
                    = (j, map PNum (seriesData_of isPercent byX xTotals orderedX (JStr nm)))
                      :: resolve isPercent byX xTotals orderedX names entries).
    { unfold resolve. cbn [flat_map fst snd]. unfold find_series_by at 1. now rewrite Hj. }
    rewrite Hcons. cbn [map fst].
    split; [|split].
    + constructor; [|exact IHnd]. intros Hin. apply in_map_iff in Hin.
      destruct Hin as ([j' d'] & Heq & Hin). cbn [fst] in Heq. subst j'.
      destruct (IHin j d' Hin) as (nm' & Hnm' & Hj' & _).
      destruct (findIndex_Some _ _ _ Hj) as (a & Ha & Hpa).
      destruct (findIndex_Some _ _ _ Hj') as (a' & Ha' & Hpa').
      rewrite Ha in Ha'. injection Ha' as <-.
      apply String.eqb_eq in Hpa, Hpa'. subst a. subst nm'. contradiction.
    + intros j' d' [[= <- <-]|Hin].
      * exists nm. repeat split; [now left|exact Hj].
      * destruct (IHin j' d' Hin) as (nm' & Hnm' & Hrest). exists nm'. split; [now right|exact Hrest].
    + intros nm' j' [[= <-]|Hin] Hj'.
      * rewrite Hj in Hj'. injection Hj' as <-. now left.
      * right. now apply IHfound.
Qed.

(** X24. When the stack values in use are pairwise distinct and each
    names a series of the chart, the rebuild gives the first series of
    each such name the values computed for that stack value, one per
    label. *)
Theorem rebuilt_series_show_their_stack_value (c rebuilt : chart) (info : crossTabInfo)
    (rows : list row) (cfg : config) (flt : Obj.t (list string)) (nm : string) (k : nat) :
  ct_data info = Some rows ->
  ct_config info = Some cfg ->
  rebuildFromCrossTab c info flt = Some rebuilt ->
  let summed := sum_rows (xVar cfg) (stackVar cfg) (filter_rows (filterVars cfg) flt rows) in
  let byX := organize summed in
  NoDup (orderedStack_of cfg summed) ->
  (forall sv, In sv (orderedStack_of cfg summed) ->
              exists nm', sv = JStr nm' /\ In nm' (map name (chart_series c))) ->
  In (JStr nm) (orderedStack_of cfg summed) ->
  findIndex (fun s => String.eqb (name s) nm) (chart_series c) = Some k ->
  exists s s',
    nth_error (chart_series c) k = Some s /\
    nth_error (chart_series rebuilt) k = Some s' /\
    s' = setData (map PNum (seriesData_of (String.eqb (stackedType cfg) "percent") byX
                                          (totals byX) (orderedX_of cfg byX) (JStr nm))) s.
Proof.
  intros Hrows Hcfg Hre summed byX Hnd Hnamed Hin Hk.
  unfold rebuildFromCrossTab in Hre. rewrite Hrows, Hcfg in Hre. injection Hre as <-.
  fold summed. fold byX.
  cbn [chart_series redraw with_series setCategories].
  rewrite emit_series_writes.
  destruct (findIndex_Some _ _ _ Hk) as (s & Hs & _).
  exists s. eexists. split; [exact Hs|]. split; [|reflexivity].
  destruct (resolve_named (String.eqb (stackedType cfg) "percent") byX (totals byX)
              (orderedX_of cfg byX) (map name (chart_series c))
              (indexed (orderedStack_of cfg summed)))
    as (Hwnd & _ & Hfound).
  - now rewrite map_snd_indexed.
  - now rewrite map_snd_indexed.
  - apply write_all_nth; [exact Hwnd| |exact Hs].
    apply Hfound; [now rewrite map_snd_indexed|].
    now rewrite findIndex_map.
Qed.

(** X25. A series keeps the data it had when no stack value in use
    carries its name and its position is beyond the number of stack
    values: with no [stackOrder] configured, the series of a stack value
    that the selections leave without rows is not cleared. *)
Theorem series_without_stack_value_keeps_data (c rebuilt : chart) (info : crossTabInfo)
    (rows : list row) (cfg : config) (flt : Obj.t (list string)) (k : nat) (s : series) :
  ct_data info = Some rows ->
  ct_config info = Some cfg ->
  rebuildFromCrossTab c info flt = Some rebuilt ->
  let summed := sum_rows (xVar cfg) (stackVar cfg) (filter_rows (filterVars cfg) flt rows) in
  nth_error (chart_series c) k = Some s ->
  ~ In (JStr (name s)) (orderedStack_of cfg summed) ->
  (List.length (orderedStack_of cfg summed) <= k)%nat ->
  nth_error (chart_series rebuilt) k = Some s.
Proof.
  intros Hrows Hcfg Hre summed Hs Hname Hlen.
  unfold rebuildFromCrossTab in Hre. rewrite Hrows, Hcfg in Hre. injection Hre as <-.
  fold summed. cbn [chart_series redraw with_series setCategories].
  rewrite emit_series_writes, write_all_other; [exact Hs|].
  intros Hin. apply in_map_iff in Hin. destruct Hin as ([j d] & Heq & Hin).
  cbn [fst] in Heq. subst j. unfold resolve in Hin. apply in_flat_map in Hin.
  destruct Hin as ([idx sv] & Hentry & Hin). cbn [fst snd] in Hin.
  destruct (find_series_by (map name (chart_series c)) sv idx) as [j|] eqn:Hfind; [|destruct Hin].
  destruct Hin as [[= -> _]|[]].
  pose proof (indexed_bound _ _ _ Hentry) as Hbound.
  assert (Hsv : In sv (orderedStack_of cfg summed)).
  { rewrite <- (map_snd_indexed (orderedStack_of cfg summed)).
    now apply (in_map snd) in Hentry. }
  unfold find_series_by in Hfind.
  destruct sv as [z|nm].
  - destruct (Nat.ltb idx _); [|discriminate]. injection Hfind as <-. lia.
  - destruct (findIndex (fun n' => String.eqb n' nm) (map name (chart_series c))) as [j|] eqn:Hj.
    + injection Hfind as <-. destruct (findIndex_Some _ _ _ Hj) as (a & Ha & Hpa).
      rewrite nth_error_map, Hs in Ha. cbn in Ha. injection Ha as <-.
      apply String.eqb_eq in Hpa. subst nm. contradiction.
    + destruct (Nat.ltb idx _); [|discriminate]. injection Hfind as <-. lia.
Qed.

(** ** The labels of a rebuilt chart *)

Lemma sum_rows_x_values (xv sv : string) (all rows : list row) (acc : Obj.t summedItem) :
  (forall r, In r rows -> In r all) ->
  (forall item, In item (Obj.values acc) ->
                exists r, In r all /\ xVal item = String_cell r xv) ->
  forall item, In item (Obj.values (fold_left (sum_row xv sv) rows acc)) ->
               exists r, In r all /\ xVal item = String_cell r xv.
Proof.
  revert acc. induction rows as [|r rows IH]; intros acc Hsub Hacc; [exact Hacc|].
  cbn [fold_left]. apply IH; [intros r' Hr'; apply Hsub; now right|].
  intros item Hin. unfold sum_row in Hin. apply In_values_set in Hin.
  destruct Hin as [->|Hin]; [|now apply Hacc]. cbn [xVal].
  destruct (Obj.get _ acc) as [it|] eqn:Hget.
  - apply Hacc. now apply get_In_values in Hget.
  - exists r. split; [apply Hsub; now left|reflexivity].
Qed.

Lemma organize_keys (items : list summedItem) (acc : Obj.t (Obj.t Q)) (x : string) :
  In x (Obj.keys (fold_left organize_item items acc)) ->
  In x (Obj.keys acc) \/ exists item, In item items /\ xVal item = x.
Proof.
  revert acc. induction items as [|item items IH]; intros acc Hin; [now left|].
  cbn [fold_left] in Hin. apply IH in Hin. destruct Hin as [Hin|(it & Hit & Hx)].
  - unfold organize_item in Hin. apply In_keys_set in Hin. destruct Hin as [->|Hin].
    + right. exists item. split; [now left|reflexivity].
    + now left.
  - right. exists it. split; [now right|exact Hx].
Qed.

(** X26. With no [xOrder] configured, the labels a rebuild sets are x
    values of the filtered rows, each listed once; and every x value of
    a filtered row is among them, provided the separator "|||" glues no
    two different pairs of values to the same key. *)
Theorem crossTab_default_labels (c : chart) (info : crossTabInfo) (rows : list row)
    (cfg : config) (flt : Obj.t (list string)) :
  ct_data info = Some rows ->
  ct_config info = Some cfg ->
  xOrder cfg = [] ->
  let filteredData := filter_rows (filterVars cfg) flt rows in
  exists rebuilt labels,
    rebuildFromCrossTab c info flt = Some rebuilt /\
    categories rebuilt = Some (map JStr labels) /\
    NoDup labels /\
    (forall x, In x labels ->
               exists r, In r filteredData /\ String_cell r (xVar cfg) = x) /\
    (keys_distinguish (xVar cfg) (stackVar cfg) filteredData ->
     forall r, In r filteredData -> In (String_cell r (xVar cfg)) labels).
Proof.
  intros Hrows Hcfg Horder filteredData.
  unfold rebuildFromCrossTab. rewrite Hrows, Hcfg. fold filteredData.
  set (summed := sum_rows (xVar cfg) (stackVar cfg) filteredData).
  eexists. exists (Obj.keys (organize summed)). split; [reflexivity|].
  cbn [categories redraw with_series setCategories].
  unfold orderedX_of. rewrite Horder. split; [reflexivity|].
  split; [apply organize_organized|]. split.
  - intros x Hx. unfold organize in Hx. apply organize_keys in Hx.
    destruct Hx as [[]|(item & Hitem & <-)].
    destruct (sum_rows_x_values (xVar cfg) (stackVar cfg) filteredData filteredData Obj.empty)
      with (item := item) as (r & Hr & Hxr); auto.
    + intros it [].
    + exists r. split; [exact Hr|now symmetry].
  - intros Hinj r Hr.
    pose proof (sum_rows_sums _ _ _ Hinj) as Hsums.
    pose proof (sums_rows_item_keys _ _ _ _ Hsums) as Hitemkeys.
    destruct Hsums as (Hnd & Hrowsums & _).
    destruct (Hrowsums r Hr) as (item & Hget & Hx & Hs & _).
    fold summed in Hget, Hnd, Hitemkeys.
    assert (Hcell : cell (organize summed) (xVal item) (stackVal item) <> None).
    { unfold organize. rewrite cell_organize_fold by (rewrite Hitemkeys; exact Hnd).
      destruct (find _ _) as [it|] eqn:Hfind; [discriminate|].
      assert (Hno := find_none _ _ Hfind item (get_In_values _ _ _ Hget)).
      unfold item_in_cell in Hno. now rewrite !String.eqb_refl in Hno. }
    rewrite <- Hx. unfold cell in Hcell.
    destruct (Obj.get (xVal item) (organize summed)) eqn:E; [|contradiction].
    destruct (in_dec string_dec (xVal item) (Obj.keys (organize summed))) as [Hin|Hnot];
      [exact Hin|].
    apply get_None_keys in Hnot. congruence.
Qed.

Lemma keys_distinguish_b_true (xv sv : string) (rows : list row) :
  keys_distinguish_b xv sv rows = true -> keys_distinguish xv sv rows.
Proof.
  unfold keys_distinguish_b, keys_distinguish. rewrite forallb_forall.
  intros H r r' Hr Hr' Hk. specialize (H r Hr). rewrite forallb_forall in H.
  specialize (H r' Hr'). rewrite Hk, String.eqb_refl in H. cbn [negb orb] in H.
  apply andb_true_iff in H. now rewrite !String.eqb_eq in H.
Qed.

(* ------------------------------------------------------------------ *)
(** ** The properties at sample inputs *)

Lemma shown_series_have_one_point_per_label_witness :
  exists c',
    nth_error (charts (applyAllFilters
                         (storeOriginalData
                            (Sample.page (Sample.period_radio "2015-2019")
                                         [Sample.years_chart] Sample.no_globals)))) 0
    = Some c' /\
    forall s', In s' (chart_series c') -> visible s' = true ->
               List.length (data s') = 1%nat.
Proof.
  exact (shown_series_have_one_point_per_label
           (Sample.page (Sample.period_radio "2015-2019") [Sample.years_chart]
                        Sample.no_globals)
           0 Sample.years_chart (map JNum [2014; 2019; 2021]%Z) eq_refl eq_refl eq_refl).
Defined.

Lemma last_control_of_a_variable_wins_witness :
  Obj.get "country"
    (filters (collect [("country_select", mkState "country" select ["DE"]);
                       ("country_boxes", mkState "country" checkbox ["NL"]);
                       ("period", mkState "period" radio ["All"])]))
  = Some ["NL"].
Proof.
  apply (last_control_of_a_variable_wins
           [("country_select", mkState "country" select ["DE"])]
           [("period", mkState "period" radio ["All"])]
           "country_boxes" "country" checkbox ["NL"]).
  - reflexivity.
  - discriminate.
  - intros j st [[= <- <-]|[]] _. discriminate.
Defined.

Lemma selection_hides_unselected_series_witness :
  exists c',
    nth_error (charts (applyAllFilters
                         (Sample.page [("country_select", mkState "country" select ["DE"])]
                                      [Sample.years_chart] Sample.no_globals))) 0
    = Some c' /\
    forall s', In s' (chart_series c') -> visible s' = true ->
               In (name s') ["DE"] \/ In (name s') [].
Proof.
  apply (selection_hides_unselected_series
           (Sample.page [("country_select", mkState "country" select ["DE"])]
                        [Sample.years_chart] Sample.no_globals)
           0 Sample.years_chart "country" ["DE"]).
  - reflexivity.
  - reflexivity.
  - reflexivity.
  - exists "DE". split; now left.
Defined.

Lemma override_switch_shows_series_witness :
  exists c',
    nth_error (charts (applyAllFilters
                         (Sample.page
                            [("force", mkState "show" (switch true (Some "NL") true) ["true"]);
                             ("country_select", mkState "country" select ["DE"])]
                            [Sample.years_chart] Sample.no_globals))) 0
    = Some c' /\
    forall s', In s' (chart_series c') -> name s' = "NL" ->
               visible s' = true /\ showInLegend s' = true.
Proof.
  apply (override_switch_shows_series
           (Sample.page
              [("force", mkState "show" (switch true (Some "NL") true) ["true"]);
               ("country_select", mkState "country" select ["DE"])]
              [Sample.years_chart] Sample.no_globals)
           0 Sample.years_chart "force"
           (mkState "show" (switch true (Some "NL") true) ["true"]) "NL").
  - reflexivity.
  - reflexivity.
  - now left.
  - reflexivity.
  - discriminate.
  - intros [].
Defined.

Lemma unrelated_filters_hide_no_series_witness :
  exists c',
    nth_error (charts (applyAllFilters
                         (Sample.page [("years", mkState "year" select ["2019"]);
                                       ("search", mkState "q" (text " Fr ") [" Fr "])]
                                      [Sample.years_chart] Sample.no_globals))) 0
    = Some c' /\
    forall s', In s' (chart_series c') -> visible s' = true /\ showInLegend s' = true.
Proof.
  apply (unrelated_filters_hide_no_series
           (Sample.page [("years", mkState "year" select ["2019"]);
                         ("search", mkState "q" (text " Fr ") [" Fr "])]
                        [Sample.years_chart] Sample.no_globals)
           0 Sample.years_chart).
  - reflexivity.
  - reflexivity.
  - split.
    + intros s [<-|[<-|[]]]; reflexivity.
    + intros j st v [Heq|[Heq|[]]] Hkind; injection Heq as <- <-; cbn in Hkind;
        [discriminate|]. now injection Hkind as <-.
  - intros fv sel nm Hin Hnm Hnames. destruct Hin as [Heq|[]]. injection Heq as <- <-.
    destruct Hnm as [<-|[]]. destruct Hnames as [Hn|[Hn|[]]]; discriminate Hn.
  - intros fv searchText s [Heq|[]] [<-|[<-|[]]]; injection Heq as <- <-; reflexivity.
  - reflexivity.
Defined.

Lemma search_text_hides_unmatched_series_witness :
  exists c',
    nth_error (charts (applyAllFilters
                         (Sample.page [("search", mkState "q" (text " De ") [" De "])]
                                      [Sample.years_chart] Sample.no_globals))) 0
    = Some c' /\
    forall s', In s' (chart_series c') -> visible s' = true ->
               name_matches "de" (name s') = true \/ In (name s') [].
Proof.
  apply (search_text_hides_unmatched_series
           (Sample.page [("search", mkState "q" (text " De ") [" De "])]
                        [Sample.years_chart] Sample.no_globals)
           0 Sample.years_chart [] [] "search" "q" " De " [" De "]).
  - reflexivity.
  - reflexivity.
  - reflexivity.
  - split.
    + intros s [<-|[<-|[]]]; reflexivity.
    + intros j st v [Heq|[]] Hkind. injection Heq as <- <-. cbn in Hkind.
      now injection Hkind as <-.
  - reflexivity.
  - intros j st v' [].
  - exists (Sample.plain_series "DE" [PNum 1; PNum 2; PNum 3]). split; [now left|reflexivity].
Defined.

Lemma unread_controls_change_no_chart_witness :
  charts (applyAllFilters
            (Sample.page [("limit", mkState "n" (number (Fin 5) NaN NaN) ["5"])]
                         [Sample.years_chart] Sample.no_globals))
  = charts (applyAllFilters
              (Sample.page [("limit", mkState "n" (number (Fin 1) NaN NaN) ["1"])]
                           [Sample.years_chart] Sample.no_globals)).
Proof.
  apply (unread_controls_change_no_chart
           (Sample.page [("limit", mkState "n" (number (Fin 1) NaN NaN) ["1"])]
                        [Sample.years_chart] Sample.no_globals)
           [("limit", mkState "n" (number (Fin 5) NaN NaN) ["5"])]).
  constructor; [|constructor]. right. split; reflexivity.
Defined.

Lemma chart_type_sets_every_series_type_witness :
  exists c',
    nth_error (charts (applyAllFilters
                         (Sample.page [("type", mkState "chart_type" button_group ["Pie"])]
                                      [Sample.years_chart] Sample.no_globals))) 0
    = Some c' /\
    forall s', In s' (chart_series c') -> type s' = Some "line".
Proof.
  apply (chart_type_sets_every_series_type
           (Sample.page [("type", mkState "chart_type" button_group ["Pie"])]
                        [Sample.years_chart] Sample.no_globals)
           0 Sample.years_chart "Pie" []).
  - reflexivity.
  - reflexivity.
  - reflexivity.
  - discriminate.
  - vm_compute. intuition discriminate.
Defined.

Lemma crossTab_reads_listed_variables_only_witness :
  rebuildFromCrossTab Sample.stacked_chart Fixtures.survey_info
    [("gender", ["f"]); ("age", ["18-24"])]
  = rebuildFromCrossTab Sample.stacked_chart Fixtures.survey_info [("gender", ["f"])].
Proof.
  apply (crossTab_reads_listed_variables_only Sample.stacked_chart Fixtures.survey_info
           Sample.percent_config).
  - reflexivity.
  - intros fv [<-|[]]. reflexivity.
Defined.

Lemma rebuild_writes_labels_and_data_only_witness :
  exists rebuilt labels l,
    rebuildFromCrossTab Sample.stacked_chart Fixtures.survey_info [] = Some rebuilt /\
    rebuilt = redraw (with_series l (setCategories labels Sample.stacked_chart)) /\
    Forall2 data_rewritten (chart_series Sample.stacked_chart) l.
Proof.
  eexists.
  destruct (rebuild_writes_labels_and_data_only Sample.stacked_chart _ Fixtures.survey_info []
              eq_refl) as (labels & l & Hshape & Hseries).
  exists labels, l. repeat split; assumption.
Defined.

Lemma crossTab_without_rows_witness :
  exists rebuilt,
    rebuildFromCrossTab Fixtures.three_country_chart Fixtures.survey_info [("gender", ["x"])]
    = Some rebuilt /\
    categories rebuilt = Some [] /\
    Forall2 (fun s s' => s' = s \/ s' = setData [] s)
            (chart_series Fixtures.three_country_chart) (chart_series rebuilt) /\
    (stackOrder Sample.percent_config = [] ->
     chart_series rebuilt = chart_series Fixtures.three_country_chart).
Proof.
  apply (crossTab_without_rows Fixtures.three_country_chart Fixtures.survey_info
           Sample.survey Sample.percent_config [("gender", ["x"])]); reflexivity.
Defined.

Lemma crossTab_cell_is_sum_of_rows_witness :
  let byX := organize (sum_rows "wave" "country" Sample.survey) in
  count_at byX (JNum 1) (JStr "NL") == cell_sum "wave" "country" Sample.survey "1" "NL" /\
  series_value false byX (totals byX) (JStr "NL") (JNum 1)
  == cell_sum "wave" "country" Sample.survey "1" "NL".
Proof.
  apply (crossTab_cell_is_sum_of_rows Sample.percent_config [] Sample.survey
           (JNum 1) (JStr "NL")).
  apply keys_distinguish_b_true. reflexivity.
Defined.

Lemma crossTab_percent_is_share_of_bucket_witness :
  let byX := organize (sum_rows "wave" "country" Sample.survey) in
  8 == bucket_sum "wave" Sample.survey "1" /\
  series_value true byX (totals byX) (JStr "NL") (JNum 1)
  == cell_sum "wave" "country" Sample.survey "1" "NL" / bucket_sum "wave" Sample.survey "1" * 100.
Proof.
  apply (crossTab_percent_is_share_of_bucket Sample.percent_config [] Sample.survey
           (JNum 1) (JStr "NL") 8).
  - apply keys_distinguish_b_true. reflexivity.
  - reflexivity.
Defined.

Lemma reset_gives_every_target_its_default_witness :
  exists e1 st' el',
    resetFilters "all" Sample.controls_page = Some e1 /\
    state_reset (mkState "country" select ["NL"]) (default_selected ["DE"]) = Some st' /\
    Obj.get "country" (inputState e1) = Some st' /\
    Obj.get "country" (document e1) = Some el' /\
    shows_default false select (default_selected ["DE"])
                  (mkElement "SELECT" [("DE", false); ("NL", true)] false "NL" "" "" None "")
                  el' /\
    at_default e1 "country".
Proof.
  eexists.
  destruct (reset_gives_every_target_its_default "all" Sample.controls_page _ "country"
              (default_selected ["DE"]) (mkState "country" select ["NL"])
              (mkElement "SELECT" [("DE", false); ("NL", true)] false "NL" "" "" None "")
              eq_refl)
    as (st' & el' & Hstate & Hentry & Helement & Hshows & Hdefault).
  - right. now left.
  - reflexivity.
  - reflexivity.
  - reflexivity.
  - exists st', el'. split; [reflexivity|]. split; [exact Hstate|]. split; [exact Hentry|].
    split; [exact Helement|]. split; [exact Hshows|exact Hdefault].
Defined.

Lemma reset_leaves_other_controls_witness :
  exists e1,
    resetFilters "year_slider" Sample.controls_page = Some e1 /\
    defaultValues e1 = defaultValues Sample.controls_page /\
    Obj.get "country" (inputState e1) = Some (mkState "country" select ["NL"]) /\
    Obj.get "country" (document e1)
    = Some (mkElement "SELECT" [("DE", false); ("NL", true)] false "NL" "" "" None "").
Proof.
  eexists.
  destruct (reset_leaves_other_controls "year_slider" Sample.controls_page _ "country" eq_refl)
    as (Hdefaults & Hentry & Hdoc).
  - intros [H|[]]. discriminate H.
  - split; [reflexivity|]. split; [exact Hdefaults|]. split; [exact Hentry|].
    apply Hdoc. intros b [<-|[]]. discriminate.
Defined.

Lemma slider_displays_its_start_label_witness :
  (forall label,
     startLabel (slider_info (Fin 2) (Fin 0) (Fin 2) (Fin 1)
                             (Some [JStr "2014"; JStr "2019"; JStr "2021"])) = Some label ->
     slider_display (Some [JStr "2014"; JStr "2019"; JStr "2021"]) (Fin 2) (Fin 0) (Fin 1)
     = String label) /\
  (startLabel (slider_info (Fin 2) (Fin 0) (Fin 2) (Fin 1)
                           (Some [JStr "2014"; JStr "2019"; JStr "2021"])) = None ->
   slider_display (Some [JStr "2014"; JStr "2019"; JStr "2021"]) (Fin 2) (Fin 0) (Fin 1)
   = String_of_number (Fin 2) /\
   forall cats,
     surviving cats
       [("year_slider",
         mkState "year" (slider (Fin 2) (Fin 0) (Fin 2) (Fin 1)
                                (Some [JStr "2014"; JStr "2019"; JStr "2021"])) ["2"])]
     = cats).
Proof.
  apply (slider_displays_its_start_label "year_slider" "year" (Fin 2) (Fin 0) (Fin 2) (Fin 1)
           [JStr "2014"; JStr "2019"; JStr "2021"] ["2"]).
  - reflexivity.
  - discriminate.
Defined.

Lemma slider_on_step_shows_label_witness :
  startLabel (slider_info (Fin 2) (Fin 0) (Fin 2) (Fin 1)
                          (Some [JStr "2014"; JStr "2019"; JStr "2021"]))
  = Some (JStr "2021") /\
  slider_display (Some [JStr "2014"; JStr "2019"; JStr "2021"]) (Fin 2) (Fin 0) (Fin 1)
  = "2021".
Proof.
  apply (slider_on_step_shows_label 2 0 1 (Fin 2) [JStr "2014"; JStr "2019"; JStr "2021"]
           2%nat (JStr "2021")).
  - intros H. discriminate H.
  - reflexivity.
  - reflexivity.
Defined.

Lemma slider_track_is_position_in_range_witness :
  exists p,
    slider_percent (updateSliderTrack (mkElement "INPUT" [] false "5" "0" "20" None ""))
    = Some (Fin p) /\
    p == 25 /\ 0 <= p /\ p <= 100.
Proof.
  destruct (slider_track_is_position_in_range
              (mkElement "INPUT" [] false "5" "0" "20" None "") _ _ _
              eq_refl eq_refl eq_refl) as (p & Hp & Hval & Hlo & Hhi).
  - intros H. discriminate H.
  - reflexivity.
  - discriminate.
  - discriminate.
  - exists p. split; [exact Hp|]. split; [|split; assumption].
    rewrite Hval. reflexivity.
Defined.

Lemma late_snapshot_holds_unfiltered_data_witness :
  exists c',
    nth_error (charts (storeOriginalData
                         (applyAllFilters
                            (Sample.page (Sample.period_radio "2015-2019")
                                         [Sample.years_chart] Sample.no_globals)))) 0
    = Some c' /\
    Forall2 (fun s s' => snapshot s = None ->
                         data s' = data s /\
                         snapshot s' = Some (mkOriginal (data s) (name s)))
            (chart_series Sample.years_chart) (chart_series c').
Proof.
  apply (late_snapshot_holds_unfiltered_data
           (Sample.page (Sample.period_radio "2015-2019") [Sample.years_chart]
                        Sample.no_globals)
           0 Sample.years_chart); reflexivity.
Defined.

Lemma metric_values_follow_surviving_labels_witness :
  exists c',
    nth_error (charts (applyAllFilters
                         (Sample.page (Sample.metric_select "trust") [Sample.trend_chart]
                                      Sample.metric_globals))) 0
    = Some c' /\
    title c' = Some "trust by Country" /\
    subtitle c' = Some "Trends over time" /\
    yAxis_title c' = Some "trust" /\
    forall s', In s' (chart_series c') -> visible s' = true ->
      countryData_of Sample.metric_table (name s') "trust" <> [] ->
      data s' = map (metric_point Sample.metric_globals Sample.metric_table "trust" (name s'))
                    (map JNum [2014; 2019]%Z).
Proof.
  apply (metric_values_follow_surviving_labels
           (Sample.page (Sample.metric_select "trust") [Sample.trend_chart]
                        Sample.metric_globals)
           0 Sample.trend_chart (map JNum [2014; 2019]%Z) "trust" Sample.metric_table);
    reflexivity.
Defined.

Lemma rebuilt_series_show_their_stack_value_witness :
  exists rebuilt s',
    rebuildFromCrossTab Sample.stacked_chart Fixtures.survey_info [] = Some rebuilt /\
    nth_error (chart_series rebuilt) 1 = Some s' /\
    name s' = "NL" /\
    List.length (data s') = 2%nat.
Proof.
  eexists.
  destruct (rebuilt_series_show_their_stack_value Sample.stacked_chart _ Fixtures.survey_info
              Sample.survey Sample.percent_config [] "NL" 1 eq_refl eq_refl eq_refl)
    as (s & s' & Hs & Hs' & Hdata).
  - vm_compute. repeat constructor; cbn; intuition discriminate.
  - intros sv Hsv. vm_compute in Hsv.
    destruct Hsv as [<-|[<-|[]]]; eexists; (split; [reflexivity|]); cbn; auto.
  - vm_compute. right. now left.
  - reflexivity.
  - exists s'. split; [reflexivity|]. split; [exact Hs'|].
    injection Hs as <-. rewrite Hdata. split; reflexivity.
Defined.

Lemma series_without_stack_value_keeps_data_witness :
  exists rebuilt,
    rebuildFromCrossTab Fixtures.three_country_chart Fixtures.survey_info [] = Some rebuilt /\
    nth_error (chart_series rebuilt) 2 = Some (Sample.plain_series "ES" [PNum 9]).
Proof.
  eexists. split; [reflexivity|].
  apply (series_without_stack_value_keeps_data Fixtures.three_country_chart _
           Fixtures.survey_info Sample.survey Sample.percent_config [] 2
           (Sample.plain_series "ES" [PNum 9])).
  - reflexivity.
  - reflexivity.
  - reflexivity.
  - reflexivity.
  - intros H. vm_compute in H. destruct H as [H|[H|[]]]; discriminate H.
  - vm_compute. lia.
Defined.

Lemma crossTab_default_labels_witness :
  exists rebuilt labels,
    rebuildFromCrossTab Sample.stacked_chart Fixtures.survey_info [] = Some rebuilt /\
    categories rebuilt = Some (map JStr labels) /\
    NoDup labels /\
    (forall x, In x labels -> exists r, In r Sample.survey /\ String_cell r "wave" = x) /\
    (forall r, In r Sample.survey -> In (String_cell r "wave") labels).
Proof.
  destruct (crossTab_default_labels Sample.stacked_chart Fixtures.survey_info Sample.survey
              Sample.percent_config [] eq_refl eq_refl eq_refl)
    as (rebuilt & labels & Hre & Hcats & Hnd & Hsound & Hcomplete).
  exists rebuilt, labels. repeat split; trivial.
  apply Hcomplete. apply keys_distinguish_b_true. reflexivity.
Defined.

(** ** The defaults the initialisation writes *)

Lemma get_map_values {V W : Type} (f : V -> W) (k : string) (o : Obj.t V) :
  Obj.get k (map (fun e => (fst e, f (snd e))) o) = option_map f (Obj.get k o).
Proof.
  induction o as [|[k' v] o IH]; cbn; [reflexivity|].
  now destruct (String.eqb k' k).
Qed.

Lemma replace_map_values {V W : Type} (f : V -> W) (k : string) (v : V) (o : Obj.t V) :
  Obj.replace k (f v) (map (fun e => (fst e, f (snd e))) o)
  = map (fun e => (fst e, f (snd e))) (Obj.replace k v o).
Proof.
  induction o as [|[k' v'] o IH]; cbn; [reflexivity|].
  destruct (String.eqb k' k); cbn; [reflexivity|]. now rewrite IH.
Qed.

Lemma add_index_map_values {V W : Type} (f : V -> W) (n : Z) (k : string) (v : V)
    (o : Obj.t V) :
  Obj.add_index n k (f v) (map (fun e => (fst e, f (snd e))) o)
  = map (fun e => (fst e, f (snd e))) (Obj.add_index n k v o).
Proof.
  induction o as [|[k' v'] o IH]; cbn; [reflexivity|].
  destruct (Obj.array_index k') as [m|]; [destruct (m <? n)%Z|]; cbn; [|reflexivity|reflexivity].
  now rewrite IH.
Qed.

Lemma set_map_values {V W : Type} (f : V -> W) (k : string) (v : V) (o : Obj.t V) :
  Obj.set k (f v) (map (fun e => (fst e, f (snd e))) o)
  = map (fun e => (fst e, f (snd e))) (Obj.set k v o).
Proof.
  unfold Obj.set, Obj.has. rewrite get_map_values.
  destruct (Obj.get k o); cbn [option_map].
  - apply replace_map_values.
  - destruct (Obj.array_index k).
    + apply add_index_map_values.
    + now rewrite map_app.
Qed.

Lemma register_defaults (inputId : string) (st : state) (pg : page) :
  page_defaultValues pg = defaults_of (page_inputState pg) ->
  page_defaultValues (register inputId st (default_of st) pg)
  = defaults_of (page_inputState (register inputId st (default_of st) pg)).
Proof.
  intros H. unfold register, defaults_of in *. cbn [page_defaultValues page_inputState].
  rewrite H. apply (set_map_values default_of).
Qed.

(** What holds of the page before a round of an init function holds
    after it, when the part that is the function's own keeps it. *)
Lemma init_each_keeps (P : page -> Prop) (selector : node -> bool)
    (body : nat -> node -> string -> page -> page) :
  (forall ns pg, P pg -> P (with_nodes ns pg)) ->
  (forall i input filterVar pg, P pg -> P (body i input filterVar pg)) ->
  forall pg, P pg -> P (init_each selector body pg).
Proof.
  intros Hnodes Hbody pg. unfold init_each.
  generalize (querySelectorAll selector (nodes pg)) as positions.
  intros positions. revert pg. induction positions as [|i positions IH]; intros pg Hpg; [exact Hpg|].
  cbn [fold_left]. apply IH. unfold init_element.
  destruct (nth_error (nodes pg) i) as [input|]; [|exact Hpg].
  destruct (init_guard input) as [filterVar|]; [|exact Hpg].
  now apply Hbody, Hnodes.
Qed.

Lemma initDashboardrInputs_defaults (hasChoices : bool) (constructs : node -> bool) (pg : page) :
  page_defaultValues pg = defaults_of (page_inputState pg) ->
  page_defaultValues (initDashboardrInputs hasChoices constructs pg)
  = defaults_of (page_inputState (initDashboardrInputs hasChoices constructs pg)).
Proof.
  intros H. unfold initDashboardrInputs, initButtonGroupInputs, initNumberInputs, initTextInputs,
    initSliderInputs, initSwitchInputs, initRadioInputs, initCheckboxInputs, initSelectInputs.
  repeat (apply (init_each_keeps
                   (fun pg => page_defaultValues pg = defaults_of (page_inputState pg)));
          [intros ns pg0 H0; exact H0
          |intros i input filterVar pg0 H0
          |]); try exact H.
  - unfold button_group_body.
    exact (register_defaults _ (mkState filterVar button_group _) pg0 H0).
  - unfold number_body.
    exact (register_defaults _ (mkState filterVar (number _ _ _) _) pg0 H0).
  - unfold text_body.
    exact (register_defaults _ (mkState filterVar (text _) _) pg0 H0).
  - unfold slider_body. cbn [with_nodes page_defaultValues page_inputState].
    exact (register_defaults _ (mkState filterVar (slider _ _ _ _ _) _) pg0 H0).
  - unfold switch_body.
    exact (register_defaults _ (mkState filterVar (switch _ _ _) _) pg0 H0).
  - unfold radio_body.
    exact (register_defaults _ (mkState filterVar radio _) pg0 H0).
  - unfold checkbox_body.
    exact (register_defaults _ (mkState filterVar checkbox _) pg0 H0).
  - unfold select_body.
    destruct (hasChoices && is_tag "SELECT" input && constructs input);
      exact (register_defaults _ (mkState filterVar select _) _ H0).
Qed.

Lemma state_reset_default_of (st : state) : state_reset st (default_of st) <> None.
Proof. unfold state_reset, default_of. destruct (kind st); discriminate. Qed.

Lemma defaults_of_match (e : engine) :
  defaultValues e = defaults_of (inputState e) -> defaults_match e.
Proof.
  intros H inputId d st Hd Hst. rewrite H in Hd. unfold defaults_of in Hd.
  rewrite (get_map_values default_of), Hst in Hd. injection Hd as <-.
  apply state_reset_default_of.
Qed.

(** X27. The initialisation writes, next to every registry entry, the
    default entry of the control's own type holding its initial
    selection or value; so a reset of any targets goes through on the
    page it leaves. *)
Theorem initialisation_writes_matching_defaults (hasChoices : bool)
    (constructs : node -> bool) (pg : page) :
  page_defaultValues pg = defaults_of (page_inputState pg) ->
  let pg' := initDashboardrInputs hasChoices constructs pg in
  page_defaultValues pg' = defaults_of (page_inputState pg') /\
  forall cs w targetsAttr, exists e', resetFilters targetsAttr (engine_of pg' cs w) = Some e'.
Proof.
  intros H pg'.
  assert (H' := initDashboardrInputs_defaults hasChoices constructs pg H). fold pg' in H'.
  split; [exact H'|]. intros cs w targetsAttr. apply resetFilters_total.
  apply defaults_of_match. exact H'.
Qed.

(** ** Running the initialisation again *)

Lemma ages_refl (n : node) : ages n n.
Proof. repeat split; auto. Qed.

Lemma ages_trans (a b c : node) : ages a b -> ages b c -> ages a c.
Proof.
  intros (H1 & H2 & H3 & H4) (I1 & I2 & I3 & I4). repeat split; try congruence. auto.
Qed.

Lemma ages_set_initialized (n : node) : ages n (set_initialized n).
Proof. repeat split. Qed.

Lemma init_guard_set_initialized (n : node) : init_guard (set_initialized n) = None.
Proof. reflexivity. Qed.

Lemma ages_with_dom (f : element -> element) (n : node) :
  tagName (f (dom n)) = tagName (dom n) -> ages n (with_dom f n).
Proof. intros H. repeat split; auto. Qed.

Lemma Forall2_nth_error {A : Type} (R : A -> A -> Prop) (l l' : list A) (i : nat) :
  Forall2 R l l' ->
  match nth_error l i, nth_error l' i with
  | Some a, Some b => R a b
  | None, None => True
  | _, _ => False
  end.
Proof.
  intros H. revert i. induction H as [|a b l l' Hab _ IH]; intros i; [now destruct i|].
  destruct i; cbn; [exact Hab|apply IH].
Qed.

Lemma init_element_ages (body : nat -> node -> string -> page -> page) (pg : page) (i : nat) :
  body_ages body ->
  Forall2 ages (nodes pg) (nodes (init_element body pg i)) /\
  forall n', nth_error (nodes (init_element body pg i)) i = Some n' -> init_guard n' = None.
Proof.
  intros Hbody. unfold init_element.
  destruct (nth_error (nodes pg) i) as [input|] eqn:Hinput.
  - destruct (init_guard input) as [filterVar|] eqn:Hguard.
    + set (pg1 := with_nodes (update_at i set_initialized (nodes pg)) pg).
      assert (H1 : Forall2 ages (nodes pg) (nodes pg1)).
      { apply Forall2_update_at; [apply ages_refl|apply ages_set_initialized]. }
      assert (H2 := Hbody i input filterVar pg1).
      split; [exact (Forall2_chain _ _ _ _ ages_trans H1 H2)|].
      intros n' Hn'. pose proof (Forall2_nth_error _ _ _ i H2) as Hnth.
      rewrite Hn' in Hnth. unfold pg1 in Hnth. cbn [nodes with_nodes] in Hnth.
      rewrite nth_error_update_at_eq, Hinput in Hnth. cbn [option_map] in Hnth.
      now apply Hnth.
    + split; [apply Forall2_same, ages_refl|]. intros n' Hn'. congruence.
  - split; [apply Forall2_same, ages_refl|]. intros n' Hn'. congruence.
Qed.

Lemma init_fold_ages (body : nat -> node -> string -> page -> page) (positions : list nat)
    (pg : page) :
  body_ages body ->
  Forall2 ages (nodes pg) (nodes (fold_left (init_element body) positions pg)) /\
  forall i n', In i positions ->
    nth_error (nodes (fold_left (init_element body) positions pg)) i = Some n' ->
    init_guard n' = None.
Proof.
  intros Hbody. revert pg. induction positions as [|i positions IH]; intros pg.
  - split; [apply Forall2_same, ages_refl|intros i n' []].
  - cbn [fold_left]. destruct (init_element_ages body pg i Hbody) as [H1 Hstop].
    destruct (IH (init_element body pg i)) as [H2 Hrest].
    split; [exact (Forall2_chain _ _ _ _ ages_trans H1 H2)|].
    intros j n' [<-|Hj] Hn'; [|now apply (Hrest j)].
    pose proof (Forall2_nth_error _ _ _ i H2) as Hnth. rewrite Hn' in Hnth.
    destruct (nth_error (nodes (init_element body pg i)) i) as [n1|] eqn:Hn1; [|contradiction].
    apply Hnth. now apply Hstop.
Qed.

Lemma all_stopped_ages (selector : node -> bool) (pg pg' : page) :
  static selector -> Forall2 ages (nodes pg) (nodes pg') ->
  all_stopped selector pg -> all_stopped selector pg'.
Proof.
  intros Hstatic Hages Hstopped n' Hin Hsel.
  apply In_nth_error in Hin. destruct Hin as [i Hi].
  pose proof (Forall2_nth_error _ _ _ i Hages) as Hnth. rewrite Hi in Hnth.
  destruct (nth_error (nodes pg) i) as [n|] eqn:Hn; [|contradiction].
  pose proof (Hstatic n n' Hnth) as Hs.
  destruct Hnth as (_ & _ & _ & Hguard). apply Hguard. apply Hstopped.
  - now apply nth_error_In in Hn.
  - congruence.
Qed.

Lemma init_each_fixed (selector : node -> bool) (body : nat -> node -> string -> page -> page)
    (pg : page) :
  all_stopped selector pg -> init_each selector body pg = pg.
Proof.
  intros Hstopped. unfold init_each.
  assert (Hpos : forall i, In i (querySelectorAll selector (nodes pg)) ->
                           init_element body pg i = pg).
  { intros i Hi. unfold querySelectorAll in Hi. apply filter_In in Hi. destruct Hi as [_ Hsel].
    unfold init_element. destruct (nth_error (nodes pg) i) as [n|] eqn:Hn; [|reflexivity].
    now rewrite (Hstopped n (nth_error_In _ _ Hn) Hsel). }
  induction (querySelectorAll selector (nodes pg)) as [|i positions IH]; [reflexivity|].
  cbn [fold_left]. rewrite Hpos by now left. apply IH. intros j Hj. apply Hpos. now right.
Qed.

(** One init function: the elements its selector matches are stopped
    afterwards, and so are those that were stopped for another
    selector. *)
Lemma init_each_stops (selector : node -> bool) (body : nat -> node -> string -> page -> page)
    (pg : page) :
  body_ages body -> static selector ->
  all_stopped selector (init_each selector body pg) /\
  forall selector', static selector' -> all_stopped selector' pg ->
                    all_stopped selector' (init_each selector body pg).
Proof.
  intros Hbody Hstatic. unfold init_each.
  destruct (init_fold_ages body (querySelectorAll selector (nodes pg)) pg Hbody)
    as [Hages Hstop].
  split.
  - intros n' Hin Hsel. apply In_nth_error in Hin. destruct Hin as [i Hi].
    apply (Hstop i n'); [|exact Hi].
    pose proof (Forall2_nth_error _ _ _ i Hages) as Hnth. rewrite Hi in Hnth.
    destruct (nth_error (nodes pg) i) as [n|] eqn:Hn; [|contradiction].
    unfold querySelectorAll. apply filter_In. split.
    + apply in_seq. split; [lia|]. cbn. apply nth_error_Some. congruence.
    + rewrite Hn. rewrite <- Hsel. symmetry. now apply Hstatic.
  - intros selector' Hstatic' Hstopped. now apply (all_stopped_ages selector' pg).
Qed.

Lemma static_has_class (cls : string) : static (has_class cls).
Proof. intros n n' (Hc & _). unfold has_class. now rewrite Hc. Qed.

Lemma static_typed_input (tag t : string) :
  static (fun n => is_tag tag n && input_type_is t n).
Proof.
  intros n n' (_ & Ht & Htag & _). unfold is_tag, input_type_is. now rewrite Ht, Htag.
Qed.

Lemma static_select_selector : static select_selector.
Proof.
  intros n n' (Hc & Ht & Htag & _). unfold select_selector, has_class, is_tag, input_type_is.
  now rewrite Hc, Ht, Htag.
Qed.

Lemma body_ages_register (body : nat -> node -> string -> page -> page) :
  (forall i input filterVar pg, nodes (body i input filterVar pg) = nodes pg) ->
  body_ages body.
Proof. intros H i input filterVar pg. rewrite H. apply Forall2_same, ages_refl. Qed.

Lemma body_ages_slider : body_ages slider_body.
Proof.
  intros i input filterVar pg. unfold slider_body. cbn [nodes with_nodes register].
  apply (Forall2_chain _ _ (updateSliderDisplay_page (node_id input) (data_labels input)
                              (parseFloat_string (el_value (dom input)))
                              (parseFloat_string (el_min (dom input)))
                              (orElse (parseFloat_string (el_step input)) (Fin 1)) (nodes pg)));
    [exact ages_trans| |].
  - unfold updateSliderDisplay_page. destruct (getElementById _ _); [|apply Forall2_same, ages_refl].
    apply Forall2_update_at; [apply ages_refl|]. intros nd. now apply ages_with_dom.
  - apply Forall2_update_at; [apply ages_refl|]. intros nd. now apply ages_with_dom.
Qed.

(** After the initialisation every element one of the eight selectors
    matches is stopped by the guard. *)
Lemma initDashboardrInputs_stops (hasChoices : bool) (constructs : node -> bool) (pg : page) :
  let pg' := initDashboardrInputs hasChoices constructs pg in
  all_stopped select_selector pg' /\ all_stopped checkbox_selector pg' /\
  all_stopped radio_selector pg' /\ all_stopped switch_selector pg' /\
  all_stopped slider_selector pg' /\ all_stopped text_selector pg' /\
  all_stopped number_selector pg' /\ all_stopped button_group_selector pg'.
Proof.
  unfold initDashboardrInputs.
  set (pg1 := initSelectInputs hasChoices constructs pg).
  set (pg2 := initCheckboxInputs pg1). set (pg3 := initRadioInputs pg2).
  set (pg4 := initSwitchInputs pg3). set (pg5 := initSliderInputs pg4).
  set (pg6 := initTextInputs pg5). set (pg7 := initNumberInputs pg6).
  destruct (init_each_stops select_selector (select_body hasChoices constructs) pg)
    as [S1 _]; [apply body_ages_register; intros; unfold select_body;
                now destruct (_ && _)|apply static_select_selector|].
  destruct (init_each_stops checkbox_selector checkbox_body pg1)
    as [S2 K2]; [now apply body_ages_register|apply static_has_class|].
  destruct (init_each_stops radio_selector radio_body pg2)
    as [S3 K3]; [now apply body_ages_register|apply static_has_class|].
  destruct (init_each_stops switch_selector switch_body pg3)
    as [S4 K4]; [now apply body_ages_register|apply static_typed_input|].
  destruct (init_each_stops slider_selector slider_body pg4)
    as [S5 K5]; [apply body_ages_slider|apply static_typed_input|].
  destruct (init_each_stops text_selector text_body pg5)
    as [S6 K6]; [now apply body_ages_register|apply static_typed_input|].
  destruct (init_each_stops number_selector number_body pg6)
    as [S7 K7]; [now apply body_ages_register|apply static_typed_input|].
  destruct (init_each_stops button_group_selector button_group_body pg7)
    as [S8 K8]; [now apply body_ages_register|apply static_has_class|].
  fold (initSelectInputs hasChoices constructs pg) in S1. fold pg1 in S1.
  fold (initCheckboxInputs pg1) in S2, K2. fold pg2 in S2, K2.
  fold (initRadioInputs pg2) in S3, K3. fold pg3 in S3, K3.
  fold (initSwitchInputs pg3) in S4, K4. fold pg4 in S4, K4.
  fold (initSliderInputs pg4) in S5, K5. fold pg5 in S5, K5.
  fold (initTextInputs pg5) in S6, K6. fold pg6 in S6, K6.
  fold (initNumberInputs pg6) in S7, K7. fold pg7 in S7, K7.
  fold (initButtonGroupInputs pg7) in S8, K8.
  pose proof static_select_selector as T1.
  pose proof (static_has_class "dashboardr-checkbox-group") as T2.
  pose proof (static_has_class "dashboardr-radio-group") as T3.
  pose proof (static_typed_input "INPUT" "switch") as T4.
  pose proof (static_typed_input "INPUT" "slider") as T5.
  pose proof (static_typed_input "INPUT" "text") as T6.
  pose proof (static_typed_input "INPUT" "number") as T7.
  repeat split.
  - apply (K8 _ T1), (K7 _ T1), (K6 _ T1), (K5 _ T1), (K4 _ T1), (K3 _ T1), (K2 _ T1), S1.
  - apply (K8 _ T2), (K7 _ T2), (K6 _ T2), (K5 _ T2), (K4 _ T2), (K3 _ T2), S2.
  - apply (K8 _ T3), (K7 _ T3), (K6 _ T3), (K5 _ T3), (K4 _ T3), S3.
  - apply (K8 _ T4), (K7 _ T4), (K6 _ T4), (K5 _ T4), S4.
  - apply (K8 _ T5), (K7 _ T5), (K6 _ T5), S5.
  - apply (K8 _ T6), (K7 _ T6), S6.
  - apply (K8 _ T7), S7.
  - exact S8.
Qed.

Lemma initDashboardrInputs_fixed (hasChoices : bool) (constructs : node -> bool) (pg : page) :
  all_stopped select_selector pg -> all_stopped checkbox_selector pg ->
  all_stopped radio_selector pg -> all_stopped switch_selector pg ->
  all_stopped slider_selector pg -> all_stopped text_selector pg ->
  all_stopped number_selector pg -> all_stopped button_group_selector pg ->
  initDashboardrInputs hasChoices constructs pg = pg.
Proof.
  intros S1 S2 S3 S4 S5 S6 S7 S8.
  assert (H1 : initSelectInputs hasChoices constructs pg = pg)
    by exact (init_each_fixed select_selector (select_body hasChoices constructs) pg S1).
  assert (H2 : initCheckboxInputs pg = pg)
    by exact (init_each_fixed checkbox_selector checkbox_body pg S2).
  assert (H3 : initRadioInputs pg = pg)
    by exact (init_each_fixed radio_selector radio_body pg S3).
  assert (H4 : initSwitchInputs pg = pg)
    by exact (init_each_fixed switch_selector switch_body pg S4).
  assert (H5 : initSliderInputs pg = pg)
    by exact (init_each_fixed slider_selector slider_body pg S5).
  assert (H6 : initTextInputs pg = pg)
    by exact (init_each_fixed text_selector text_body pg S6).
  assert (H7 : initNumberInputs pg = pg)
    by exact (init_each_fixed number_selector number_body pg S7).
  assert (H8 : initButtonGroupInputs pg = pg)
    by exact (init_each_fixed button_group_selector button_group_body pg S8).
  unfold initDashboardrInputs. congruence.
Qed.

(** X28. Running the initialisation again changes nothing, whatever
    the user has done to the controls in between and whether Choices.js
    has appeared or not: every element an init function matches is
    marked, or has no filter variable, and is skipped. [safeInit] and
    the legacy hook [dashboardrFilterHook], which runs the
    initialisation on every call, therefore never overwrite a registry
    entry or a default. *)
Theorem initialisation_runs_once (hasChoices hasChoices' : bool)
    (constructs constructs' : node -> bool) (pg later : page) :
  Forall2 ages (nodes (initDashboardrInputs hasChoices constructs pg)) (nodes later) ->
  initDashboardrInputs hasChoices' constructs' later = later /\
  (forall flag, snd (safeInit hasChoices' constructs' flag later) = later) /\
  forall ready readyState,
    dashboardrFilterHook ready readyState hasChoices' constructs' later = later.
Proof.
  intros Hlater.
  destruct (initDashboardrInputs_stops hasChoices constructs pg)
    as (S1 & S2 & S3 & S4 & S5 & S6 & S7 & S8).
  assert (Hfixed : initDashboardrInputs hasChoices' constructs' later = later).
  { apply initDashboardrInputs_fixed.
    - exact (all_stopped_ages select_selector _ _ static_select_selector Hlater S1).
    - exact (all_stopped_ages checkbox_selector _ _ (static_has_class _) Hlater S2).
    - exact (all_stopped_ages radio_selector _ _ (static_has_class _) Hlater S3).
    - exact (all_stopped_ages switch_selector _ _ (static_typed_input _ _) Hlater S4).
    - exact (all_stopped_ages slider_selector _ _ (static_typed_input _ _) Hlater S5).
    - exact (all_stopped_ages text_selector _ _ (static_typed_input _ _) Hlater S6).
    - exact (all_stopped_ages number_selector _ _ (static_typed_input _ _) Hlater S7).
    - exact (all_stopped_ages button_group_selector _ _ (static_has_class _) Hlater S8). }
  split; [exact Hfixed|]. split.
  - intros flag. unfold safeInit. now destruct flag.
  - intros ready readyState. unfold dashboardrFilterHook.
    now destruct (ready && negb (String.eqb readyState "loading")).
Qed.

(** ** What interaction keeps *)

Lemma same_control_refl (st : state) : same_control st st.
Proof. split; reflexivity. Qed.

Lemma same_control_trans (a b c : state) :
  same_control a b -> same_control b c -> same_control a c.
Proof. intros [H1 H2] [I1 I2]. split; congruence. Qed.

Lemma same_controls_refl (r : Obj.t state) : same_controls r r.
Proof. apply Forall2_same. intros a. split; [reflexivity|apply same_control_refl]. Qed.

Lemma same_controls_trans (a b c : Obj.t state) :
  same_controls a b -> same_controls b c -> same_controls a c.
Proof.
  apply Forall2_chain. intros x y z [H1 H2] [I1 I2].
  split; [congruence|exact (same_control_trans _ _ _ H2 I2)].
Qed.

Lemma same_controls_replace (k : string) (st st' : state) (r : Obj.t state) :
  Obj.get k r = Some st -> same_control st st' -> same_controls r (Obj.replace k st' r).
Proof.
  intros Hget Hsame. induction r as [|[k0 st0] r IH]; [constructor|].
  cbn in Hget |- *. destruct (String.eqb k0 k).
  - injection Hget as ->. constructor; [now split|apply same_controls_refl].
  - constructor; [split; [reflexivity|apply same_control_refl]|now apply IH].
Qed.

Lemma controls_kept_refl (e : engine) : controls_kept e e.
Proof. split; [reflexivity|]. split; [apply same_controls_refl|auto]. Qed.

Lemma controls_kept_trans (a b c : engine) :
  controls_kept a b -> controls_kept b c -> controls_kept a c.
Proof.
  intros (H1 & H2 & H3) (I1 & I2 & I3). split; [congruence|].
  split; [exact (same_controls_trans _ _ _ H2 I2)|auto].
Qed.

Lemma controls_kept_applyAllFilters (e0 e : engine) :
  controls_kept e0 e -> controls_kept e0 (applyAllFilters e).
Proof.
  intros H. destruct (applyAllFilters_controls e) as (Hs & Hd & Hdef).
  unfold controls_kept. now rewrite Hs, Hd, Hdef.
Qed.

(** A write to the entry and to the element of one control. *)
Lemma controls_kept_write (e : engine) (inputId : string) (st st' : state)
    (doc : Obj.t element) :
  Obj.get inputId (inputState e) = Some st ->
  same_control st st' ->
  (forall k, Obj.get k (document e) <> None -> Obj.get k doc <> None) ->
  controls_kept e (mkEngine (Obj.replace inputId st' (inputState e)) (defaultValues e)
                            (choicesInstances e) doc (charts e) (globals e)).
Proof.
  intros Hget Hsame Hdoc. split; [reflexivity|]. split; [|exact Hdoc].
  now apply (same_controls_replace inputId st).
Qed.

Lemma set_selected_kept (inputId : string) (sel : list string) (e e' : engine) :
  set_selected inputId sel e = Some e' -> controls_kept e e'.
Proof.
  unfold set_selected. destruct (Obj.get inputId (inputState e)) as [st|] eqn:Hget; [|discriminate].
  intros [= <-]. apply (controls_kept_write e inputId st); [exact Hget| |auto].
  split; reflexivity.
Qed.

Lemma selected_then_filters_kept (inputId : string) (sel : list string) (e e' : engine) :
  option_map applyAllFilters (set_selected inputId sel e) = Some e' -> controls_kept e e'.
Proof.
  destruct (set_selected inputId sel e) as [e1|] eqn:Hset; [|discriminate].
  intros [= <-]. apply controls_kept_applyAllFilters. now apply (set_selected_kept inputId sel).
Qed.

Lemma updateSliderDisplay_present (inputId : string) (labels : option (list jsval))
    (v mn stp : jsnumber) (doc : Obj.t element) (k : string) :
  Obj.get k doc <> None -> Obj.get k (updateSliderDisplay inputId labels v mn stp doc) <> None.
Proof.
  intros H. unfold updateSliderDisplay. destruct (Obj.get (inputId ++ "_value") doc); [|exact H].
  now apply get_replace_present.
Qed.

Lemma state_reset_same_control (st st' : state) (d : default) :
  state_reset st d = Some st' -> same_control st st'.
Proof.
  unfold state_reset. destruct (kind st) eqn:Hk, d; try discriminate; intros [= <-];
    split; cbn; rewrite ?Hk; reflexivity.
Qed.

Lemma reset_target_kept (e e' : engine) (b : string) :
  reset_target e b = Some e' -> controls_kept e e'.
Proof.
  intros Hreset. destruct (reset_target_charts e e' b Hreset) as (_ & _ & Hdef & _).
  destruct (reset_target_frame e e' b Hreset) as (_ & _ & Hdoc).
  split; [exact Hdef|]. split; [|exact Hdoc].
  destruct (reset_target_cases e e' b Hreset)
    as [->|(d & st & el & st' & Hd & Hst & Hel & Hstate & ->)]; [apply same_controls_refl|].
  cbn [inputState]. apply (same_controls_replace b st); [exact Hst|].
  now apply (state_reset_same_control st st' d).
Qed.

Lemma reset_targets_kept (targets : list string) (e e' : engine) :
  reset_targets targets e = Some e' -> controls_kept e e'.
Proof.
  revert e. induction targets as [|b targets IH]; intros e; cbn [reset_targets].
  - intros [= <-]. apply controls_kept_refl.
  - destruct (reset_target e b) as [e1|] eqn:Hb; [|discriminate]. intros Hrest.
    exact (controls_kept_trans _ _ _ (reset_target_kept _ _ _ Hb) (IH _ Hrest)).
Qed.

Lemma fired_kept (inputId : string) (el : element) (e : engine) :
  controls_kept e (fired inputId el e).
Proof.
  split; [reflexivity|]. split; [apply same_controls_refl|].
  intros k Hk. cbn [fired document]. now apply get_replace_present.
Qed.

Lemma fired_selected_kept (inputId : string) (el : element) (sel : list string)
    (e e' : engine) :
  option_map applyAllFilters (set_selected inputId sel (fired inputId el e)) = Some e' ->
  controls_kept e e'.
Proof.
  intros H. apply selected_then_filters_kept in H.
  exact (controls_kept_trans _ _ _ (fired_kept inputId el e) H).
Qed.

Lemma handle_kept (ev : event) (e e' : engine) :
  handle ev e = Some e' -> controls_kept e e'.
Proof.
  destruct ev; cbn [handle].
  - apply fired_selected_kept.
  - apply fired_selected_kept.
  - apply fired_selected_kept.
  - apply fired_selected_kept.
  - unfold button_clicked. destruct (nth_error (options group) j) as [btn|]; [|discriminate].
    apply fired_selected_kept.
  - unfold switch_changed.
    destruct (Obj.get inputId (inputState e)) as [st|] eqn:Hget; [|discriminate].
    destruct (kind st) eqn:Hk; try discriminate. intros [= <-].
    apply controls_kept_applyAllFilters.
    apply (controls_kept_write e inputId st); [exact Hget| |].
    + split; cbn; rewrite ?Hk; reflexivity.
    + intros k Hpresent. now apply get_replace_present.
  - unfold slider_moved.
    destruct (Obj.get inputId (inputState e)) as [st|] eqn:Hget; [|discriminate].
    destruct (kind st) eqn:Hk; try discriminate. intros [= <-].
    apply controls_kept_applyAllFilters.
    apply (controls_kept_write e inputId st); [exact Hget| |].
    + split; cbn; rewrite ?Hk; reflexivity.
    + intros k Hpresent. now apply get_replace_present, updateSliderDisplay_present.
  - unfold text_typed.
    destruct (Obj.get inputId (inputState e)) as [st|] eqn:Hget; [|discriminate].
    destruct (kind st) eqn:Hk; try discriminate. intros [= <-].
    apply controls_kept_applyAllFilters.
    apply (controls_kept_write e inputId st); [exact Hget| |].
    + split; cbn; rewrite ?Hk; reflexivity.
    + intros k Hpresent. now apply get_replace_present.
  - unfold number_typed.
    destruct (Obj.get inputId (inputState e)) as [st|] eqn:Hget; [|discriminate].
    destruct (kind st) eqn:Hk; try discriminate. intros [= <-].
    apply controls_kept_applyAllFilters.
    apply (controls_kept_write e inputId st); [exact Hget| |].
    + split; cbn; rewrite ?Hk; reflexivity.
    + intros k Hpresent. now apply get_replace_present.
  - intros [= <-]. unfold tab_clicked. apply controls_kept_applyAllFilters.
    split; [reflexivity|]. split; [apply same_controls_refl|auto].
  - intros [= <-]. unfold waitForChartsAndApply.
    destruct filtersApplied; [apply controls_kept_refl|].
    destruct (charts e); [apply controls_kept_refl|]. cbn [snd].
    apply controls_kept_applyAllFilters.
    split; [reflexivity|]. split; [apply same_controls_refl|auto].
  - intros [= <-]. unfold reapplyFilters. apply controls_kept_applyAllFilters.
    apply controls_kept_refl.
  - unfold resetFilters.
    destruct (reset_targets _ e) as [e0|] eqn:Hreset; [|discriminate]. intros [= <-].
    apply controls_kept_applyAllFilters. exact (reset_targets_kept _ _ _ Hreset).
Qed.

Lemma handle_all_kept (evs : list event) (e e' : engine) :
  handle_all evs e = Some e' -> controls_kept e e'.
Proof.
  revert e. induction evs as [|ev evs IH]; intros e; cbn [handle_all].
  - intros [= <-]. apply controls_kept_refl.
  - destruct (handle ev e) as [e1|] eqn:Hev; [|discriminate]. intros Hrest.
    exact (controls_kept_trans _ _ _ (handle_kept _ _ _ Hev) (IH _ Hrest)).
Qed.

(** X29. Whatever sequence of events the page handles (changes of any
    control, presses, clicks on tabs, resets), the default entries are
    never written, every control stays registered under its id with its
    type, its filter variable and what its type carries besides the
    value, and no element the page had under an id is lost: interaction
    changes the values and the selections only. *)
Theorem interaction_changes_values_only (evs : list event) (e e' : engine) :
  handle_all evs e = Some e' ->
  defaultValues e' = defaultValues e /\
  same_controls (inputState e) (inputState e') /\
  forall k, Obj.get k (document e) <> None -> Obj.get k (document e') <> None.
Proof. apply handle_all_kept. Qed.

(** ** Reset after interaction *)

Lemma same_controls_get (r r' : Obj.t state) (k : string) (st : state) :
  same_controls r r' -> Obj.get k r = Some st ->
  exists st', Obj.get k r' = Some st' /\ same_control st st'.
Proof.
  intros H. induction H as [|[k0 st0] [k1 st1] r r' [Hk Hs] _ IH]; cbn; [discriminate|].
  cbn in Hk, Hs. subst k1. destruct (String.eqb k0 k).
  - intros [= <-]. eauto.
  - exact IH.
Qed.

Lemma same_controls_keys (r r' : Obj.t state) :
  same_controls r r' -> Obj.keys r' = Obj.keys r.
Proof.
  unfold Obj.keys. intros H.
  induction H as [|a b r r' [Hk _] _ IH]; cbn; [reflexivity|]. now rewrite Hk, IH.
Qed.

Lemma keys_defaults_of (r : Obj.t state) : Obj.keys (defaults_of r) = Obj.keys r.
Proof. unfold Obj.keys, defaults_of. rewrite map_map. reflexivity. Qed.

Lemma state_reset_restores (st0 st : state) :
  same_control st0 st ->
  exists st', state_reset st (default_of st0) = Some st' /\ same_reading st0 st'.
Proof.
  intros [Hfv Hkind]. unfold state_reset, default_of, same_reading.
  destruct st0 as [fv0 k0 sel0], st as [fv k sel]. cbn in *. subst fv.
  destruct k0, k; cbn in Hkind; try discriminate; try injection Hkind as; subst;
    eexists; (split; [reflexivity|]); cbn; repeat split; intros; try discriminate; reflexivity.
Qed.

Lemma same_reading_collect_one (st st' : state) (k k' : string) (fs : filterSets) :
  same_reading st st' -> collect_one fs (k', st') = collect_one fs (k, st).
Proof.
  intros (Hfv & Hkind & Hsel). unfold collect_one. cbn [snd]. rewrite Hfv, Hkind.
  destruct (kind st); try reflexivity; now rewrite Hsel.
Qed.

Lemma same_reading_collect (r r' : Obj.t state) :
  Forall2 (fun a b => fst b = fst a /\ same_reading (snd a) (snd b)) r r' ->
  collect r' = collect r /\
  switchHiddenSeries r' = switchHiddenSeries r /\
  switchShownSeries r' = switchShownSeries r /\
  legend_choice r' = legend_choice r.
Proof.
  intros H. unfold collect, legend_choice. generalize no_filters. generalize (@None bool).
  unfold switchHiddenSeries, switchShownSeries.
  induction H as [|[k st] [k' st'] r r' [_ Hs] _ IH]; intros acc fs; cbn [fold_left flat_map];
    [repeat split|].
  cbn [snd] in Hs. rewrite (same_reading_collect_one st st' k k' fs Hs).
  destruct Hs as (Hfv & Hkind & _). cbn [snd]. rewrite Hfv, Hkind.
  destruct (IH (match kind st with
                | switch v _ _ => if String.eqb (filterVar st) "show_legend" then Some v else acc
                | _ => acc
                end) (collect_one fs (k, st))) as (-> & -> & -> & ->).
  repeat split.
Qed.

Lemma Forall2_strengthen {A B : Type} (P Q : A -> B -> Prop) (l : list A) (l' : list B) :
  Forall2 P l l' ->
  (forall a b, In a l -> In b l' -> P a b -> Q a b) ->
  Forall2 Q l l'.
Proof.
  intros H. induction H as [|a b l l' Hab _ IH]; intros Himp; constructor.
  - apply Himp; [now left|now left|exact Hab].
  - apply IH. intros x y Hx Hy. apply Himp; now right.
Qed.

(** X30. Reset of all the controls brings back the filters of the
    start. On a page whose default entries are the ones the
    initialisation wrote and whose controls all have their element,
    after any sequence of events handled since, a reset with targets
    [all] goes through and leaves every control with what a filter
    application read of it at the start (the filter variable, the type
    and value, and the selection of a control that selects values). Its
    filter application then works on the charts as the events left
    them: every chart is what one filter application with the controls
    of the start makes of the chart the last event left. *)
Theorem reset_all_restores_the_filters (evs : list event) (e0 e : engine) :
  defaultValues e0 = defaults_of (inputState e0) ->
  NoDup (Obj.keys (inputState e0)) ->
  (forall k, In k (Obj.keys (inputState e0)) -> Obj.get k (document e0) <> None) ->
  handle_all evs e0 = Some e ->
  exists e',
    resetFilters "all" e = Some e' /\
    Forall2 (fun a b => fst b = fst a /\ same_reading (snd a) (snd b))
            (inputState e0) (inputState e') /\
    charts e'
    = map (apply_chart (globals e) (inputState e0) (collect (inputState e0))) (charts e).
Proof.
  intros Hdefaults Hnodup Hel Hevs.
  destruct (handle_all_kept evs e0 e Hevs) as (Hdef & Hsame & Hdoc).
  assert (Hmatch : defaults_match e).
  { intros inputId d st Hd Hst. rewrite Hdef, Hdefaults in Hd. unfold defaults_of in Hd.
    rewrite (get_map_values default_of) in Hd.
    destruct (Obj.get inputId (inputState e0)) as [st0|] eqn:Hst0; [|discriminate].
    injection Hd as <-.
    destruct (same_controls_get _ _ inputId st0 Hsame Hst0) as (st1 & Hst1 & Hctl).
    assert (st1 = st) by congruence. subst st1.
    destruct (state_reset_restores st0 st Hctl) as (st' & -> & _). discriminate. }
  destruct (resetFilters_total "all" e Hmatch) as (e' & Hreset).
  exists e'. split; [exact Hreset|].
  unfold resetFilters in Hreset.
  destruct (reset_targets (targets_of "all" (defaultValues e)) e) as [e1|] eqn:Hrun;
    [|discriminate].
  injection Hreset as <-.
  destruct (reset_targets_charts _ e e1 Hrun) as (Hcharts & Hglobals & _ & _).
  destruct (charts_applyAllFilters e1) as (Hout & Hstate & _).
  assert (Hkept1 := reset_targets_kept _ _ _ Hrun). destruct Hkept1 as (_ & Hsame1 & _).
  assert (Hsame01 := same_controls_trans _ _ _ Hsame Hsame1).
  assert (Hread : Forall2 (fun a b => fst b = fst a /\ same_reading (snd a) (snd b))
                          (inputState e0) (inputState e1)).
  { apply (Forall2_strengthen _ _ _ _ Hsame01).
    intros [k st0] [k' st1] Hin0 Hin1 [Hk _]. cbn [fst snd] in *. subst k'.
    split; [reflexivity|].
    assert (Hget0 : Obj.get k (inputState e0) = Some st0) by now apply In_get.
    assert (Hget1 : Obj.get k (inputState e1) = Some st1).
    { apply In_get; [|exact Hin1]. now rewrite (same_controls_keys _ _ Hsame01). }
    destruct (same_controls_get _ _ k st0 Hsame Hget0) as (st & Hget & Hctl).
    assert (Hkeys : In k (Obj.keys (inputState e0))).
    { apply (in_map fst) in Hin0. exact Hin0. }
    assert (Hd : Obj.get k (defaultValues e) = Some (default_of st0)).
    { rewrite Hdef, Hdefaults. unfold defaults_of.
      now rewrite (get_map_values default_of), Hget0. }
    destruct (reset_targets_entry _ e e1 k (default_of st0) st Hrun Hd Hget
                (Hdoc k (Hel k Hkeys)))
      as [[Hnot _]|(_ & st' & Hst' & Hget')].
    - exfalso. apply Hnot. unfold targets_of. cbn [String.eqb Ascii.eqb Bool.eqb].
      now rewrite Hdef, Hdefaults, keys_defaults_of.
    - destruct (state_reset_restores st0 st Hctl) as (st'' & Hst'' & Hreading).
      assert (st1 = st'') by congruence. now subst st1. }
  split; [now rewrite Hstate|].
  rewrite Hout, Hcharts, Hglobals.
  destruct (same_reading_collect _ _ Hread) as (Hcollect & Hhidden & Hshown & Hlegend).
  apply map_ext. intros c. rewrite Hcollect.
  apply apply_chart_similar; [apply collect_keys|assumption..].
Qed.

(** ** The properties at the sample page *)

Lemma initialisation_writes_matching_defaults_witness :
  let pg' := initDashboardrInputs false (fun _ => false) Fixtures.fresh_page in
  page_defaultValues pg' = defaults_of (page_inputState pg') /\
  forall cs w targetsAttr, exists e', resetFilters targetsAttr (engine_of pg' cs w) = Some e'.
Proof.
  exact (initialisation_writes_matching_defaults false (fun _ => false) Fixtures.fresh_page
           eq_refl).
Defined.

Lemma initialisation_runs_once_witness :
  let later := mkPage (map (with_dom (with_value "2")) (nodes Fixtures.loaded_page))
                      Obj.empty Obj.empty [] in
  initDashboardrInputs true (fun _ => true) later = later /\
  (forall flag, snd (safeInit true (fun _ => true) flag later) = later) /\
  forall ready readyState, dashboardrFilterHook ready readyState true (fun _ => true) later = later.
Proof.
  apply (initialisation_runs_once false true (fun _ => false) (fun _ => true)
           Fixtures.fresh_page).
  cbn [nodes]. fold Fixtures.loaded_page.
  induction (nodes Fixtures.loaded_page) as [|n ns IH]; cbn [map]; constructor;
    [apply ages_with_dom; reflexivity|exact IH].
Defined.

Lemma interaction_changes_values_only_witness :
  exists e',
    handle_all Fixtures.session Fixtures.loaded = Some e' /\
    defaultValues e' = defaultValues Fixtures.loaded /\
    same_controls (inputState Fixtures.loaded) (inputState e') /\
    forall k, Obj.get k (document Fixtures.loaded) <> None -> Obj.get k (document e') <> None.
Proof.
  eexists. split; [vm_compute; reflexivity|].
  apply (interaction_changes_values_only Fixtures.session). vm_compute. reflexivity.
Defined.

Lemma reset_all_restores_the_filters_witness :
  exists e,
    handle_all Fixtures.session Fixtures.loaded = Some e /\
    exists e',
      resetFilters "all" e = Some e' /\
      Forall2 (fun a b => fst b = fst a /\ same_reading (snd a) (snd b))
              (inputState Fixtures.loaded) (inputState e') /\
      charts e'
      = map (apply_chart (globals e) (inputState Fixtures.loaded)
                         (collect (inputState Fixtures.loaded))) (charts e).
Proof.
  eexists. split; [vm_compute; reflexivity|].
  apply (reset_all_restores_the_filters Fixtures.session Fixtures.loaded).
  - reflexivity.
  - vm_compute. repeat constructor; intros H; cbn in H; intuition discriminate.
  - intros k Hk. vm_compute in Hk. destruct Hk as [<-|[<-|[]]]; vm_compute; discriminate.
  - vm_compute. reflexivity.
Defined.
